(** * The reconnecting WebSocket channel of the counter client

    A shallow embedding of [WebSocketService] (the raw WebSocket client of
    the repository) together with the part of the browser it drives: the
    store of transport objects created by [new WebSocket], the pending
    [setTimeout] timers, the clock, and the observable effects (observer
    invocations and console output).

    Modelling conventions.
    - [this.socket] is a reference: it is an index into the store of
      transports, so that the handlers of a replaced transport keep acting
      on the service, as closures over [this] do.
    - An observer is a caller-owned function compared by reference
      ([h !== handler]); it is a [Handler] identifier, and invoking it is
      recorded in the effect log.  A message observer may throw, which
      the message handler of the service catches: whether it throws is
      given by [message_observer_throws] and may depend on everything that
      happened before.  Status and error observers, whose exceptions the
      service does not catch, are taken to return normally, and no
      observer calls back into the service.
    - The transport follows the WHATWG WebSocket interface: [readyState]
      is CONNECTING, OPEN, CLOSING or CLOSED, [close()] without arguments
      never throws, and events are dispatched by the browser.
    - Time is a clock in milliseconds.  A timer never fires before its
      due time; how late it fires, and in which order timers that are due
      fire, is left open. *)

From Stdlib Require Import ZArith Ascii String List Bool Lia.
From stdpp Require Import base decidable option list strings numbers pretty.
Import ListNotations.

Local Open Scope Z_scope.
Local Open Scope string_scope.

(** ** Data model *)

Inductive WebSocketStatus : Type :=
  | connecting
  | connected
  | disconnected
  | error.

#[global] Instance WebSocketStatus_eq_dec : EqDecision WebSocketStatus.
Proof. solve_decision. Defined.

(** [WebSocket.CONNECTING = 0], [OPEN = 1], [CLOSING = 2], [CLOSED = 3]. *)
Inductive ReadyState : Type :=
  | CONNECTING
  | OPEN
  | CLOSING
  | CLOSED.

#[global] Instance ReadyState_eq_dec : EqDecision ReadyState.
Proof. solve_decision. Defined.

(** The [unknown] payload of a message: a JSON value (numbers restricted to
    integers). *)
#[local] Unset Elimination Schemes.
Inductive JsonValue : Type :=
  | JNull
  | JBool (b : bool)
  | JNumber (n : Z)
  | JString (s : string)
  | JArray (items : list JsonValue)
  | JObject (fields : list (string * JsonValue)).
#[local] Set Elimination Schemes.

Record WebSocketMessage : Type := {
  type : string;
  data : option JsonValue;
  timestamp : option Z;
}.

(** A JavaScript [Error] object, by its message. *)
Inductive JsError : Type :=
  | Error (message : string).

(** What a [catch] clause can receive: an [Error] instance or some other
    thrown value. *)
Inductive Thrown : Type :=
  | ThrownError (e : JsError)
  | ThrownValue (v : JsonValue).

(** A base URL as the browser's [URL] parser presents it, for example
    ["https:"], ["example.org:8080"] and ["/api"]. *)
Record URL : Type := {
  protocol : string;
  host : string;
  pathname : string;
}.

(** Observers are compared by reference. *)
Definition Handler : Type := nat.
Definition MessageHandler : Type := Handler.
Definition ErrorHandler : Type := Handler.
Definition StatusChangeHandler : Type := Handler.

(** The browser primitives the service calls but does not define. *)
Class Platform : Type := {
  (** [JSON.parse]: [inl e] when it throws [e], [inr v] when the text is
      JSON for the value [v], whatever its shape. *)
  JSON_parse : string -> (JsError + JsonValue)%type;
  (** [JSON.stringify]. *)
  JSON_stringify : WebSocketMessage -> string;
  (** [new WebSocket(url)]: [Some t] when the constructor throws [t]. *)
  WebSocket_new_throws : string -> option Thrown;
}.

(** A transport object.  [sent] lists the frames written to it,
    [closeDispatched] tells whether its close event has been dispatched, and
    [connectionTimeout] is the timer identifier that the handlers installed
    on it by [connect] close over. *)
Record WebSocket : Type := {
  readyState : ReadyState;
  sent : list string;
  closeDispatched : bool;
  connectionTimeout : nat;
}.

Inductive TimerCallback : Type :=
  | ConnectionTimeoutCallback
  | ReconnectCallback.

#[global] Instance TimerCallback_eq_dec : EqDecision TimerCallback.
Proof. solve_decision. Defined.

Record Timer : Type := {
  timerId : nat;
  delay : Z;
  due : Z;
  callback : TimerCallback;
}.

Inductive Effect : Type :=
  | MessageDelivered (h : MessageHandler) (m : JsonValue)
  | ErrorDelivered (h : ErrorHandler) (e : JsError)
  | StatusDelivered (h : StatusChangeHandler) (s : WebSocketStatus)
  | ConsoleError (text : string) (error : Thrown)
  | ConsoleWarn (text : string)
  | ConsoleInfo (text : string).

(** The private fields of [WebSocketService]. *)
Record WebSocketService : Type := {
  socket : option nat;
  url : string;
  reconnectAttempts : Z;
  status : WebSocketStatus;
  messageHandlers : list MessageHandler;
  errorHandlers : list ErrorHandler;
  statusChangeHandlers : list StatusChangeHandler;
}.

Definition maxReconnectAttempts : Z := 5.
Definition reconnectDelay : Z := 1000.

(** The service in its browser. *)
Record World : Type := {
  this : WebSocketService;
  sockets : list WebSocket;
  timers : list Timer;
  nextTimerId : nat;
  now : Z;
  log : list Effect;
}.

(** *** Field updates *)

Definition set_socket (v : option nat) (s : WebSocketService) : WebSocketService :=
  {| socket := v; url := url s; reconnectAttempts := reconnectAttempts s;
     status := status s; messageHandlers := messageHandlers s;
     errorHandlers := errorHandlers s;
     statusChangeHandlers := statusChangeHandlers s |}.

Definition set_reconnectAttempts (v : Z) (s : WebSocketService) : WebSocketService :=
  {| socket := socket s; url := url s; reconnectAttempts := v;
     status := status s; messageHandlers := messageHandlers s;
     errorHandlers := errorHandlers s;
     statusChangeHandlers := statusChangeHandlers s |}.

Definition set_status (v : WebSocketStatus) (s : WebSocketService) : WebSocketService :=
  {| socket := socket s; url := url s; reconnectAttempts := reconnectAttempts s;
     status := v; messageHandlers := messageHandlers s;
     errorHandlers := errorHandlers s;
     statusChangeHandlers := statusChangeHandlers s |}.

Definition set_messageHandlers (v : list MessageHandler) (s : WebSocketService)
  : WebSocketService :=
  {| socket := socket s; url := url s; reconnectAttempts := reconnectAttempts s;
     status := status s; messageHandlers := v;
     errorHandlers := errorHandlers s;
     statusChangeHandlers := statusChangeHandlers s |}.

Definition set_errorHandlers (v : list ErrorHandler) (s : WebSocketService)
  : WebSocketService :=
  {| socket := socket s; url := url s; reconnectAttempts := reconnectAttempts s;
     status := status s; messageHandlers := messageHandlers s;
     errorHandlers := v;
     statusChangeHandlers := statusChangeHandlers s |}.

Definition set_statusChangeHandlers (v : list StatusChangeHandler)
  (s : WebSocketService) : WebSocketService :=
  {| socket := socket s; url := url s; reconnectAttempts := reconnectAttempts s;
     status := status s; messageHandlers := messageHandlers s;
     errorHandlers := errorHandlers s;
     statusChangeHandlers := v |}.

Definition with_this (f : WebSocketService -> WebSocketService) (w : World) : World :=
  {| this := f (this w); sockets := sockets w; timers := timers w;
     nextTimerId := nextTimerId w; now := now w; log := log w |}.

Definition with_sockets (f : list WebSocket -> list WebSocket) (w : World) : World :=
  {| this := this w; sockets := f (sockets w); timers := timers w;
     nextTimerId := nextTimerId w; now := now w; log := log w |}.

Definition with_timers (f : list Timer -> list Timer) (w : World) : World :=
  {| this := this w; sockets := sockets w; timers := f (timers w);
     nextTimerId := nextTimerId w; now := now w; log := log w |}.

Definition with_now (t : Z) (w : World) : World :=
  {| this := this w; sockets := sockets w; timers := timers w;
     nextTimerId := nextTimerId w; now := t; log := log w |}.

(** Observable effects are appended in the order they happen. *)
Definition emit (es : list Effect) (w : World) : World :=
  {| this := this w; sockets := sockets w; timers := timers w;
     nextTimerId := nextTimerId w; now := now w; log := log w ++ es |}.

(** The caller's message observers.  [message_observer_throws h v w] is
    [Some t] when observer [h], handed the value [v] in world [w], throws
    [t], and [None] when it returns; the world records everything that
    happened before the call. *)
Class Observers : Type := {
  message_observer_throws : MessageHandler -> JsonValue -> World -> option Thrown;
}.

Definition set_readyState (r : ReadyState) (s : WebSocket) : WebSocket :=
  {| readyState := r; sent := sent s; closeDispatched := closeDispatched s;
     connectionTimeout := connectionTimeout s |}.

Definition set_closeDispatched (s : WebSocket) : WebSocket :=
  {| readyState := readyState s; sent := sent s; closeDispatched := true;
     connectionTimeout := connectionTimeout s |}.

Definition push_sent (frame : string) (s : WebSocket) : WebSocket :=
  {| readyState := readyState s; sent := sent s ++ [frame];
     closeDispatched := closeDispatched s;
     connectionTimeout := connectionTimeout s |}.

(** ** Browser primitives *)

(** [setTimeout(callback, delay)]: the new timer gets the next identifier. *)
Definition setTimeout (cb : TimerCallback) (d : Z) (w : World) : World :=
  {| this := this w; sockets := sockets w;
     timers := timers w ++
       [{| timerId := nextTimerId w; delay := d; due := now w + d; callback := cb |}];
     nextTimerId := S (nextTimerId w); now := now w; log := log w |}.

(** [clearTimeout(id)]: no effect when the timer already fired. *)
Definition clearTimeout (id : nat) (w : World) : World :=
  with_timers (filter (fun t => timerId t ≠ id)) w.

(** [socket.close()] with no argument: starts closing an open or connecting
    transport, does nothing otherwise, never throws. *)
Definition WebSocket_close (s : WebSocket) : WebSocket :=
  match readyState s with
  | CONNECTING | OPEN => set_readyState CLOSING s
  | CLOSING | CLOSED => s
  end.

(** [this.socket?.readyState]: [None] stands for [undefined]. *)
Definition socket_readyState (w : World) : option ReadyState :=
  match socket (this w) with
  | Some i => readyState <$> sockets w !! i
  | None => None
  end.

(** ** The service *)

Section Service.
Context `{Platform} `{observers : Observers}.

(** [https:] becomes [wss:], anything else [ws:]; host and path are kept. *)
Definition getWebSocketUrl (apiUrl : URL) : string :=
  let wsProtocol := if decide (protocol apiUrl = "https:") then "wss:" else "ws:" in
  wsProtocol ++ "//" ++ host apiUrl ++ pathname apiUrl.

(** [new WebSocketService(apiBaseUrl)]. *)
Definition newWebSocketService (apiBaseUrl : URL) : WebSocketService :=
  {| socket := None; url := getWebSocketUrl apiBaseUrl; reconnectAttempts := 0;
     status := disconnected; messageHandlers := []; errorHandlers := [];
     statusChangeHandlers := [] |}.

(** A freshly constructed service in a browser with no transport, no timer
    and an empty log, at time 0. *)
Definition initial (apiBaseUrl : URL) : World :=
  {| this := newWebSocketService apiBaseUrl; sockets := []; timers := [];
     nextTimerId := 0%nat; now := 0; log := [] |}.

(** [handlers.forEach(handler => handler(message))]: the observers are
    called in order, and the first one that throws ends the loop.  The
    result is the world after the calls and what was thrown, if anything. *)
Fixpoint forEach_message (message : JsonValue) (handlers : list MessageHandler)
  (w : World) : World * option Thrown :=
  match handlers with
  | [] => (w, None)
  | handler :: handlers' =>
      let w' := emit [MessageDelivered handler message] w in
      match message_observer_throws handler message w with
      | Some thrown => (w', Some thrown)
      | None => forEach_message message handlers' w'
      end
  end.

Definition notifyMessageHandlers (message : JsonValue) (w : World)
  : World * option Thrown :=
  forEach_message message (messageHandlers (this w)) w.

Definition notifyErrorHandlers (e : JsError) (w : World) : World :=
  emit (map (fun handler => ErrorDelivered handler e) (errorHandlers (this w))) w.

Definition notifyStatusChangeHandlers (s : WebSocketStatus) (w : World) : World :=
  emit (map (fun handler => StatusDelivered handler s)
          (statusChangeHandlers (this w))) w.

Definition setStatus (s : WebSocketStatus) (w : World) : World :=
  if decide (status (this w) ≠ s)
  then notifyStatusChangeHandlers s (with_this (set_status s) w)
  else w.

Definition getStatus (w : World) : WebSocketStatus := status (this w).

Definition isConnected (w : World) : bool :=
  bool_decide (socket_readyState w = Some OPEN).

Definition getWebSocketErrorMessage (w : World) : string :=
  if bool_decide (socket_readyState w = Some CLOSED)
  then "WebSocket connection failed to " ++ url (this w) ++ ". Possible reasons:
1. Backend doesn't support WebSocket at this endpoint
2. CloudFront WebSocket support not enabled (check CloudFront distribution settings)
3. WebSocket endpoint might be at different path (e.g., /ws, /api/ws, /socket.io)
4. Firewall or security group blocking WebSocket connections

The HTTP API will continue to work normally."
  else "WebSocket connection error. The backend may not support WebSocket connections. HTTP API is still available.".

Definition getCloseReason (code : Z) : string :=
  if decide (code = 1000) then "Normal Closure"
  else if decide (code = 1001) then "Going Away"
  else if decide (code = 1002) then "Protocol Error"
  else if decide (code = 1003) then "Unsupported Data"
  else if decide (code = 1006) then "Abnormal Closure (Connection Refused)"
  else if decide (code = 1007) then "Invalid Data"
  else if decide (code = 1008) then "Policy Violation"
  else if decide (code = 1009) then "Message Too Big"
  else if decide (code = 1010) then "Extension Error"
  else if decide (code = 1011) then "Internal Server Error"
  else "Unknown (" ++ pretty code ++ ")".

(** [this.socket.close()] on the current transport. *)
Definition close_current (w : World) : World :=
  match socket (this w) with
  | Some i => with_sockets (alter WebSocket_close i) w
  | None => w
  end.

(** The body of [connect()].  The transport is created CONNECTING; its
    handlers capture the identifier that the following [setTimeout]
    returns. *)
Definition connect (w : World) : World :=
  if decide (socket_readyState w = Some OPEN) then w
  else if decide (socket_readyState w = Some CONNECTING) then w
  else
    let w := setStatus connecting w in
    match WebSocket_new_throws (url (this w)) with
    | None =>
        let ws := {| readyState := CONNECTING; sent := [];
                     closeDispatched := false;
                     connectionTimeout := nextTimerId w |} in
        let w := with_this (set_socket (Some (length (sockets w))))
                   (with_sockets (fun l => (l ++ [ws])%list) w) in
        setTimeout ConnectionTimeoutCallback 5000 w
    | Some thrown =>
        let w := setStatus error w in
        notifyErrorHandlers
          (match thrown with
           | ThrownError e => e
           | ThrownValue _ => Error "WebSocket connection failed"
           end) w
    end.

(** The callback armed by [connect]: it inspects [this.socket], whichever
    transport that is when the timer fires. *)
Definition connectionTimeoutCallback (w : World) : World :=
  match socket_readyState w with
  | Some r =>
      if decide (r ≠ OPEN) then
        let w := close_current w in
        let w := setStatus disconnected w in
        with_this (set_reconnectAttempts maxReconnectAttempts) w
      else w
  | None => w
  end.

Definition reconnectCallback (w : World) : World :=
  if decide (status (this w) = disconnected) then connect w else w.

Definition attemptReconnect (w : World) : World :=
  if decide (maxReconnectAttempts <= reconnectAttempts (this w)) then w
  else
    let w := with_this (fun s => set_reconnectAttempts (reconnectAttempts s + 1) s) w in
    setTimeout ReconnectCallback (reconnectDelay * reconnectAttempts (this w)) w.

(** The handlers installed on a transport whose timeout timer is [t]. *)
Definition onopen (t : nat) (w : World) : World :=
  let w := clearTimeout t w in
  let w := setStatus connected w in
  with_this (set_reconnectAttempts 0) w.

(** The [try] block holds both [JSON.parse] and the calls of the observers:
    what either throws reaches the same [catch]. *)
Definition onmessage (event_data : string) (w : World) : World :=
  match JSON_parse event_data with
  | inr message =>
      match notifyMessageHandlers message w with
      | (w, None) => w
      | (w, Some thrown) =>
          emit [ConsoleError "Failed to parse WebSocket message:" thrown] w
      end
  | inl e =>
      emit [ConsoleError "Failed to parse WebSocket message:" (ThrownError e)] w
  end.

Definition onerror (t : nat) (w : World) : World :=
  let w := clearTimeout t w in
  let w := setStatus error w in
  let errorMessage := getWebSocketErrorMessage w in
  notifyErrorHandlers (Error errorMessage) w.

Definition onclose (t : nat) (event_code : Z) (w : World) : World :=
  let w := clearTimeout t w in
  let w := setStatus disconnected w in
  let w :=
    if decide (event_code ≠ 1000)
    then emit [ConsoleWarn ("WebSocket closed: " ++ getCloseReason event_code
                              ++ " (code: " ++ pretty event_code ++ ")")] w
    else w in
  if decide (event_code ≠ 1006 ∧ event_code ≠ 1002
             ∧ reconnectAttempts (this w) < maxReconnectAttempts)
  then attemptReconnect w
  else
    emit [ConsoleInfo "WebSocket reconnection stopped. Backend may not support WebSocket. HTTP API is available."]
      (with_this (set_reconnectAttempts maxReconnectAttempts) w).

Definition disconnect (w : World) : World :=
  let w := with_this (set_reconnectAttempts maxReconnectAttempts) w in
  let w :=
    match socket (this w) with
    | Some _ =>
        let w :=
          if decide (socket_readyState w = Some OPEN
                     ∨ socket_readyState w = Some CONNECTING)
          then close_current w
          else w in
        with_this (set_socket None) w
    | None => w
    end in
  setStatus disconnected w.

(** The result of a call that may throw; a throwing [send] has changed
    nothing. *)
Inductive Completion : Type :=
  | Returns (w : World)
  | Throws (e : JsError).

Definition send (message : WebSocketMessage) (w : World) : Completion :=
  if decide (socket_readyState w = Some OPEN)
  then
    match socket (this w) with
    | Some i => Returns (with_sockets (alter (push_sent (JSON_stringify message)) i) w)
    | None => Returns w
    end
  else Throws (Error "WebSocket is not connected").

(** [Date.now()] is the clock of the world. *)
Definition sendAddNumbers (a b : Z) (w : World) : Completion :=
  send {| type := "add";
          data := Some (JObject [("a", JNumber a); ("b", JNumber b)]);
          timestamp := Some (now w) |} w.

Definition sendHealthCheck (w : World) : Completion :=
  send {| type := "health"; data := None; timestamp := Some (now w) |} w.

(** The closures returned by the three subscription methods. *)
Definition unsubscribeMessage (handler : MessageHandler) (w : World) : World :=
  with_this (fun s => set_messageHandlers
                        (filter (fun h => h ≠ handler) (messageHandlers s)) s) w.

Definition unsubscribeError (handler : ErrorHandler) (w : World) : World :=
  with_this (fun s => set_errorHandlers
                        (filter (fun h => h ≠ handler) (errorHandlers s)) s) w.

Definition unsubscribeStatusChange (handler : StatusChangeHandler) (w : World) : World :=
  with_this (fun s => set_statusChangeHandlers
                        (filter (fun h => h ≠ handler) (statusChangeHandlers s)) s) w.

Definition onMessage (handler : MessageHandler) (w : World) : World * (World -> World) :=
  (with_this (fun s => set_messageHandlers (messageHandlers s ++ [handler]) s) w,
   unsubscribeMessage handler).

Definition onError (handler : ErrorHandler) (w : World) : World * (World -> World) :=
  (with_this (fun s => set_errorHandlers (errorHandlers s ++ [handler]) s) w,
   unsubscribeError handler).

Definition onStatusChange (handler : StatusChangeHandler) (w : World)
  : World * (World -> World) :=
  (with_this (fun s => set_statusChangeHandlers (statusChangeHandlers s ++ [handler]) s) w,
   unsubscribeStatusChange handler).

End Service.

(** ** The event loop

    Everything runs on one event loop: a step is a call made by the
    application, an event dispatched on some transport, or the passage of
    time.  [step] returns [None] when the browser cannot produce the event
    in that world. *)

Inductive Event : Type :=
  (* calls made by the application *)
  | CallConnect
  | CallDisconnect
  | CallSend (message : WebSocketMessage)
  | CallSendAddNumbers (a b : Z)
  | CallSendHealthCheck
  | CallOnMessage (handler : MessageHandler)
  | CallOnError (handler : ErrorHandler)
  | CallOnStatusChange (handler : StatusChangeHandler)
  | CallUnsubscribeMessage (handler : MessageHandler)
  | CallUnsubscribeError (handler : ErrorHandler)
  | CallUnsubscribeStatusChange (handler : StatusChangeHandler)
  (* events dispatched on transport number [i] *)
  | TransportOpen (i : nat)
  | TransportMessage (i : nat) (event_data : string)
  | TransportClosing (i : nat)
  | TransportError (i : nat)
  | TransportClose (i : nat) (event_code : Z)
  (* time *)
  | Elapse (ms : Z)
  | TimerFires (id : nat).

Section EventLoop.
Context `{Platform} `{observers : Observers}.

(** A caller that catches the exception of [send] goes on in the unchanged
    world. *)
Definition after (c : Completion) (w : World) : World :=
  match c with
  | Returns w' => w'
  | Throws _ => w
  end.

(** The browser moves transport [i] to [target], provided [enabled] holds of
    it, and then runs the handler the service installed on it. *)
Definition dispatch (i : nat) (enabled : WebSocket -> bool)
  (move : WebSocket -> WebSocket) (handler : nat -> World -> World)
  (w : World) : option World :=
  match sockets w !! i with
  | Some ws =>
      if enabled ws
      then Some (handler (connectionTimeout ws) (with_sockets (alter move i) w))
      else None
  | None => None
  end.

Definition run_callback (cb : TimerCallback) (w : World) : World :=
  match cb with
  | ConnectionTimeoutCallback => connectionTimeoutCallback w
  | ReconnectCallback => reconnectCallback w
  end.

(** A timer may fire once the clock has reached its due time. *)
Definition may_fire (t : Timer) (w : World) : bool :=
  bool_decide (due t <= now w).

Definition fire (id : nat) (w : World) : option World :=
  match find (fun t => bool_decide (timerId t = id)) (timers w) with
  | Some t =>
      if may_fire t w
      then Some (run_callback (callback t) (clearTimeout id w))
      else None
  | None => None
  end.

(** Time passes; a timer that is due may still be pending afterwards. *)
Definition elapse (ms : Z) (w : World) : option World :=
  if bool_decide (0 <= ms)
  then Some (with_now (now w + ms) w)
  else None.

Definition step (e : Event) (w : World) : option World :=
  match e with
  | CallConnect => Some (connect w)
  | CallDisconnect => Some (disconnect w)
  | CallSend m => Some (after (send m w) w)
  | CallSendAddNumbers a b => Some (after (sendAddNumbers a b w) w)
  | CallSendHealthCheck => Some (after (sendHealthCheck w) w)
  | CallOnMessage h => Some (fst (onMessage h w))
  | CallOnError h => Some (fst (onError h w))
  | CallOnStatusChange h => Some (fst (onStatusChange h w))
  | CallUnsubscribeMessage h => Some (unsubscribeMessage h w)
  | CallUnsubscribeError h => Some (unsubscribeError h w)
  | CallUnsubscribeStatusChange h => Some (unsubscribeStatusChange h w)
  | TransportOpen i =>
      dispatch i (fun ws => bool_decide (readyState ws = CONNECTING))
        (set_readyState OPEN) onopen w
  | TransportMessage i event_data =>
      dispatch i (fun ws => bool_decide (readyState ws = OPEN))
        id (fun _ => onmessage event_data) w
  | TransportClosing i =>
      dispatch i (fun ws => bool_decide (readyState ws = OPEN))
        (set_readyState CLOSING) (fun _ w => w) w
  | TransportError i =>
      dispatch i (fun ws => bool_decide (readyState ws ≠ CLOSED))
        (set_readyState CLOSED) onerror w
  | TransportClose i event_code =>
      dispatch i (fun ws => negb (closeDispatched ws))
        (fun ws => set_closeDispatched (set_readyState CLOSED ws))
        (fun t => onclose t event_code) w
  | Elapse ms => elapse ms w
  | TimerFires id => fire id w
  end.

Fixpoint run (es : list Event) (w : World) : option World :=
  match es with
  | [] => Some w
  | e :: es' =>
      match step e w with
      | Some w' => run es' w'
      | None => None
      end
  end.

(** Worlds the event loop can reach from a freshly constructed service. *)
Inductive reachable : World -> Prop :=
  | reachable_initial (apiBaseUrl : URL) : reachable (initial apiBaseUrl)
  | reachable_step (e : Event) (w w' : World) :
      reachable w -> step e w = Some w' -> reachable w'.

(** Events that are not calls of the application: transport events and the
    passage of time. *)
Definition is_call (e : Event) : bool :=
  match e with
  | TransportOpen _ | TransportMessage _ _ | TransportClosing _
  | TransportError _ | TransportClose _ _ | Elapse _ | TimerFires _ => false
  | _ => true
  end.

End EventLoop.

(** ** A sample platform and sample observers *)

Definition sample_message : WebSocketMessage :=
  {| type := "add"; data := Some (JObject [("result", JNumber 8)]);
     timestamp := None |}.

(** The double-quote character, for writing JSON text. *)
Definition dq : string := String "034"%char EmptyString.

(** The text [{"type":"add","data":{"result":8}}]. *)
Definition sample_frame : string :=
  "{" ++ dq ++ "type" ++ dq ++ ":" ++ dq ++ "add" ++ dq ++ ","
      ++ dq ++ "data" ++ dq ++ ":{" ++ dq ++ "result" ++ dq ++ ":8}}".

(** What [JSON.parse] makes of [sample_frame]. *)
Definition sample_value : JsonValue :=
  JObject [("type", JString "add"); ("data", JObject [("result", JNumber 8)])].

(** A platform whose [JSON.parse] understands [sample_frame] and the text
    [null] only, whose [JSON.stringify] prints the [type] field, and whose
    [WebSocket] constructor accepts every URL but the empty one. *)
Definition sample_platform : Platform :=
  {| JSON_parse := fun s =>
       if decide (s = sample_frame) then inr sample_value
       else if decide (s = "null") then inr JNull
       else inl (Error "SyntaxError");
     JSON_stringify := fun m => "{" ++ dq ++ "type" ++ dq ++ ":" ++ dq ++ type m ++ dq ++ "}";
     WebSocket_new_throws := fun u =>
       if decide (u = "") then Some (ThrownError (Error "SyntaxError")) else None |}.

(** A browser showing a page loaded over https: the [WebSocket] constructor
    throws a [SecurityError] for an insecure [ws:] URL. *)
Definition mixed_content_platform : Platform :=
  {| JSON_parse := fun _ => inl (Error "SyntaxError");
     JSON_stringify := fun m => type m;
     WebSocket_new_throws := fun u =>
       if String.prefix "ws://" u
       then Some (ThrownError (Error "SecurityError")) else None |}.

(** The default argument of the constructor,
    ['https://d1tdizimiz2qsf.cloudfront.net/api']. *)
Definition sample_url : URL :=
  {| protocol := "https:"; host := "d1tdizimiz2qsf.cloudfront.net";
     pathname := "/api" |}.

(** Observers that always return. *)
Definition sample_observers : Observers :=
  {| message_observer_throws := fun _ _ _ => None |}.

(** Observers of which number 1 throws whatever it is handed. *)
Definition throwing_observers : Observers :=
  {| message_observer_throws := fun h _ _ =>
       if decide (h = 1%nat) then Some (ThrownError (Error "TypeError")) else None |}.

(** The world a fresh service on [sample_platform] with [sample_observers]
    is in after the events [es]; the fresh world itself if the browser
    cannot produce them. *)
Definition sample_run (es : list Event) : World :=
  default (initial sample_url)
    (@run sample_platform sample_observers es (initial sample_url)).

(** ** Notions used by the statements *)

(** The service is pending or open: the guard of [connect]. *)
Definition pending_or_open (w : World) : Prop :=
  socket_readyState w = Some OPEN ∨ socket_readyState w = Some CONNECTING.

(** The closure codes [onclose] refuses to retry. *)
Definition terminal_code (event_code : Z) : Prop :=
  event_code = 1006 ∨ event_code = 1002.

(** The timer [attemptReconnect] arms in world [w]. *)
Definition reconnect_timer (w : World) : Timer :=
  {| timerId := nextTimerId w;
     delay := reconnectDelay * (reconnectAttempts (this w) + 1);
     due := now w + reconnectDelay * (reconnectAttempts (this w) + 1);
     callback := ReconnectCallback |}.

(** The statuses delivered to status observer [h] by a list of effects. *)
Fixpoint delivered_to (h : StatusChangeHandler) (es : list Effect)
  : list WebSocketStatus :=
  match es with
  | [] => []
  | StatusDelivered h' s :: es' =>
      if decide (h' = h) then s :: delivered_to h es' else delivered_to h es'
  | _ :: es' => delivered_to h es'
  end.

(** How many times [h] is registered in a list of observers. *)
Definition registrations (h : Handler) (l : list Handler) : nat :=
  length (filter (fun x => x = h) l).

(** The effects that happened between world [w] and a later world [w']. *)
Definition since (w w' : World) : list Effect :=
  drop (length (log w)) (log w').

(** No two neighbours of the list are equal. *)
Fixpoint alternating (l : list WebSocketStatus) : Prop :=
  match l with
  | a :: (b :: _) as rest => a ≠ b ∧ alternating rest
  | _ => True
  end.

(** Every transport other than [this.socket] is closing or closed. *)
Definition stale_closed (w : World) : Prop :=
  ∀ j ws, sockets w !! j = Some ws ->
    readyState ws = CONNECTING ∨ readyState ws = OPEN ->
    socket (this w) = Some j.

(** What [close()] makes of a [readyState]. *)
Definition closed_further (r : ReadyState) : ReadyState :=
  match r with
  | CONNECTING | OPEN | CLOSING => CLOSING
  | CLOSED => CLOSED
  end.

Definition no_reconnect_pending (w : World) : Prop :=
  ∀ tm, tm ∈ timers w -> callback tm ≠ ReconnectCallback.

(** The service has stopped for good: the retry counter is at its bound, no
    reconnect timer is pending, every transport is closing or closed, and
    the status is [disconnected] or [error]. *)
Definition given_up (w : World) : Prop :=
  reconnectAttempts (this w) = maxReconnectAttempts
  ∧ no_reconnect_pending w
  ∧ (∀ j ws, sockets w !! j = Some ws ->
       readyState ws = CLOSING ∨ readyState ws = CLOSED)
  ∧ (status (this w) = disconnected ∨ status (this w) = error).

(** The calls that subscribe or unsubscribe status observer [h]. *)
Definition registers_status (h : StatusChangeHandler) (e : Event) : bool :=
  match e with
  | CallOnStatusChange h' | CallUnsubscribeStatusChange h' => bool_decide (h' = h)
  | _ => false
  end.

(** What an observer with [k] registrations receives when the status goes
    through [changes]: each status once per registration. *)
Definition per_registration (k : nat) (changes : list WebSocketStatus)
  : list WebSocketStatus :=
  concat (map (replicate k) changes).

(** Observer [h], registered [k] times, has been told every status change
    since the log had length [n] and the status was [s0]: the statuses
    [changes] it received, once per registration, start from [s0], never
    repeat a status, and end with the current status. *)
Definition tracked (h : StatusChangeHandler) (k : nat) (s0 : WebSocketStatus)
  (n : nat) (w : World) : Prop :=
  registrations h (statusChangeHandlers (this w)) = k
  ∧ (n <= length (log w))%nat
  ∧ ∃ changes,
      delivered_to h (drop n (log w)) = per_registration k changes
      ∧ alternating (s0 :: changes)
      ∧ last (s0 :: changes) = Some (status (this w)).

(** The world in which the observer that follows [called] is handed
    [message]: the calls of [called] are on the log. *)
Definition after_calls (message : JsonValue) (called : list MessageHandler)
  (w : World) : World :=
  emit (map (fun h => MessageDelivered h message) called) w.

(** Called in order with [message] from world [w] on, the observers
    [handlers] all return. *)
Definition all_return `{Observers} (message : JsonValue)
  (handlers : list MessageHandler) (w : World) : Prop :=
  ∀ before h after, handlers = (before ++ h :: after)%list ->
    message_observer_throws h message (after_calls message before w) = None.

(** Transport [i] is connecting or open. *)
Definition live (w : World) (i : nat) : Prop :=
  ∃ ws, sockets w !! i = Some ws
        ∧ (readyState ws = CONNECTING ∨ readyState ws = OPEN).

(** The calls that change a list of observers. *)
Definition is_subscription (e : Event) : bool :=
  match e with
  | CallOnMessage _ | CallOnError _ | CallOnStatusChange _
  | CallUnsubscribeMessage _ | CallUnsubscribeError _
  | CallUnsubscribeStatusChange _ => true
  | _ => false
  end.

(** The status notifications [setStatus s] produces in world [w]. *)
Definition status_notes (s : WebSocketStatus) (w : World) : list Effect :=
  if decide (status (this w) = s) then []
  else map (fun h => StatusDelivered h s) (statusChangeHandlers (this w)).


(** World [w'] has the observers and the URL of world [w]. *)
Definition same_observers (w w' : World) : Prop :=
  messageHandlers (this w') = messageHandlers (this w)
  ∧ errorHandlers (this w') = errorHandlers (this w)
  ∧ statusChangeHandlers (this w') = statusChangeHandlers (this w)
  ∧ url (this w') = url (this w).

(** The timer and the transport a successful [connect()] creates in world
    [w]. *)
Definition timeout_timer (w : World) : Timer :=
  {| timerId := nextTimerId w; delay := 5000; due := now w + 5000;
     callback := ConnectionTimeoutCallback |}.

Definition fresh_transport (w : World) : WebSocket :=
  {| readyState := CONNECTING; sent := []; closeDispatched := false;
     connectionTimeout := nextTimerId w |}.

(** The delays the service asks for: 5000 ms for a connection timeout, the
    base delay times 1 to 5 for a reconnect. *)
Definition timer_shape (tm : Timer) : Prop :=
  match callback tm with
  | ConnectionTimeoutCallback => delay tm = 5000
  | ReconnectCallback =>
      ∃ k, 1 <= k <= maxReconnectAttempts ∧ delay tm = reconnectDelay * k
  end.

(** The pending timers have the delays of [timer_shape], identifiers handed
    out earlier and all different, and were armed in the past: the due time
    less the delay is not later than the clock.  The timeout identifiers
    captured by the transports were handed out earlier and are all
    different. *)
Definition timers_sound (w : World) : Prop :=
  Forall (fun tm => timer_shape tm ∧ (timerId tm < nextTimerId w)%nat
                    ∧ due tm - delay tm <= now w) (timers w)
  ∧ NoDup (timerId <$> timers w)
  ∧ Forall (fun ws => (connectionTimeout ws < nextTimerId w)%nat) (sockets w)
  ∧ NoDup (connectionTimeout <$> sockets w).

(** Every connecting transport has its connection timeout pending. *)
Definition guarded (w : World) : Prop :=
  ∀ i ws, sockets w !! i = Some ws -> readyState ws = CONNECTING ->
    ∃ tm, tm ∈ timers w ∧ timerId tm = connectionTimeout ws
          ∧ callback tm = ConnectionTimeoutCallback.

(** * Properties *)

Section Properties.
Context `{Platform} `{observers : Observers}.

(** ** What the building blocks leave alone *)

Lemma setStatus_frame s w :
  sockets (setStatus s w) = sockets w
  ∧ timers (setStatus s w) = timers w
  ∧ nextTimerId (setStatus s w) = nextTimerId w
  ∧ now (setStatus s w) = now w
  ∧ socket (this (setStatus s w)) = socket (this w)
  ∧ reconnectAttempts (this (setStatus s w)) = reconnectAttempts (this w)
  ∧ url (this (setStatus s w)) = url (this w)
  ∧ status (this (setStatus s w)) = s.
Proof.
  unfold setStatus. case_decide as Hs; simpl; repeat split; try reflexivity.
  destruct (decide (status (this w) = s)) as [->|Hne]; [reflexivity|contradiction].
Qed.

Lemma setStatus_same w : setStatus (status (this w)) w = w.
Proof. unfold setStatus. case_decide; [contradiction|reflexivity]. Qed.

Lemma setStatus_log s w :
  log (setStatus s w) =
    (log w ++ if decide (status (this w) = s) then []
              else map (fun h => StatusDelivered h s) (statusChangeHandlers (this w)))%list.
Proof.
  unfold setStatus. destruct (decide (status (this w) = s)) as [Heq|Hne].
  - rewrite decide_False by (intros Hc; apply Hc, Heq). symmetry. apply app_nil_r.
  - rewrite decide_True by exact Hne. reflexivity.
Qed.

(** ** Closure events: C1 and C3 *)

Lemma onclose_timers t event_code w :
  timers (onclose t event_code w) =
    (timers (clearTimeout t w) ++
     if decide (¬ terminal_code event_code
                ∧ reconnectAttempts (this w) < maxReconnectAttempts)
     then [reconnect_timer w] else [])%list.
Proof.
  unfold onclose, terminal_code.
  set (w1 := clearTimeout t w).
  set (w2 := setStatus disconnected w1).
  destruct (setStatus_frame disconnected w1) as (_ & Ht & Hn & Hnow & _ & Ha & _).
  fold w2 in Ht, Hn, Hnow, Ha.
  assert (Hw3 : ∀ w3 : World,
    w3 = (if decide (event_code ≠ 1000)
          then emit [ConsoleWarn ("WebSocket closed: " ++ getCloseReason event_code
                                    ++ " (code: " ++ pretty event_code ++ ")")] w2
          else w2) ->
    this w3 = this w2 ∧ timers w3 = timers w2 ∧ nextTimerId w3 = nextTimerId w2
    ∧ now w3 = now w2).
  { intros w3 ->. case_decide; simpl; auto. }
  specialize (Hw3 _ eq_refl). destruct Hw3 as (Hthis & Ht3 & Hn3 & Hnow3).
  set (w3 := if decide (event_code ≠ 1000) then _ else w2) in *.
  assert (Hatt : reconnectAttempts (this w3) = reconnectAttempts (this w)).
  { rewrite Hthis, Ha. reflexivity. }
  destruct (decide (event_code ≠ 1006 ∧ event_code ≠ 1002
                    ∧ reconnectAttempts (this w3) < maxReconnectAttempts))
    as [(H6 & H2 & Hlt)|Hno].
  - rewrite decide_True by (split; [intros [?|?]; contradiction | lia]).
    unfold attemptReconnect. rewrite decide_False by lia. simpl.
    rewrite Ht3, Ht. unfold reconnect_timer.
    rewrite Hn3, Hn, Hnow3, Hnow, Hatt. reflexivity.
  - rewrite decide_False.
    + simpl. rewrite Ht3, Ht. symmetry. apply app_nil_r.
    + intros (Hterm & Hlt). apply Hno. repeat split; [| |lia];
        intros ->; apply Hterm; [left|right]; reflexivity.
Qed.

Lemma onclose_reconnectAttempts t event_code w :
  reconnectAttempts (this (onclose t event_code w)) =
    if decide (¬ terminal_code event_code
               ∧ reconnectAttempts (this w) < maxReconnectAttempts)
    then reconnectAttempts (this w) + 1 else maxReconnectAttempts.
Proof.
  unfold onclose, terminal_code.
  set (w1 := clearTimeout t w).
  set (w2 := setStatus disconnected w1).
  destruct (setStatus_frame disconnected w1) as (_ & _ & _ & _ & _ & Ha & _).
  fold w2 in Ha.
  assert (Hthis : this (if decide (event_code ≠ 1000)
          then emit [ConsoleWarn ("WebSocket closed: " ++ getCloseReason event_code
                                    ++ " (code: " ++ pretty event_code ++ ")")] w2
          else w2) = this w2) by (case_decide; reflexivity).
  set (w3 := if decide (event_code ≠ 1000) then _ else w2) in *.
  assert (Hatt : reconnectAttempts (this w3) = reconnectAttempts (this w)).
  { rewrite Hthis, Ha. reflexivity. }
  destruct (decide (event_code ≠ 1006 ∧ event_code ≠ 1002
                    ∧ reconnectAttempts (this w3) < maxReconnectAttempts))
    as [(H6 & H2 & Hlt)|Hno].
  - rewrite decide_True by (split; [intros [?|?]; contradiction | lia]).
    unfold attemptReconnect. rewrite decide_False by lia. simpl.
    rewrite Hatt. reflexivity.
  - rewrite decide_False; [reflexivity|].
    intros (Hterm & Hlt). apply Hno. repeat split; [| |lia];
      intros ->; apply Hterm; [left|right]; reflexivity.
Qed.

Lemma dispatch_Some i enabled move handler w w' :
  dispatch i enabled move handler w = Some w' ->
  ∃ ws, sockets w !! i = Some ws ∧ enabled ws = true
        ∧ w' = handler (connectionTimeout ws) (with_sockets (alter move i) w).
Proof.
  unfold dispatch. destruct (sockets w !! i) as [ws|]; [|discriminate].
  destruct (enabled ws) eqn:He; [|discriminate].
  intros [= <-]. exists ws. auto.
Qed.

Lemma step_TransportClose i event_code w w' :
  step (TransportClose i event_code) w = Some w' ->
  ∃ ws, sockets w !! i = Some ws ∧ closeDispatched ws = false
        ∧ w' = onclose (connectionTimeout ws) event_code
                 (with_sockets
                    (alter (fun ws => set_closeDispatched (set_readyState CLOSED ws)) i) w).
Proof.
  intros (ws & Hi & Hen & ->)%dispatch_Some. exists ws.
  split; [exact Hi|]. split; [|reflexivity].
  destruct (closeDispatched ws); [discriminate|reflexivity].
Qed.

(** What a closure event does to the pending timers and to the retry
    counter. *)
Lemma close_event_effect (i : nat) (event_code : Z) (w w' : World) :
  step (TransportClose i event_code) w = Some w' ->
  ∃ ws, sockets w !! i = Some ws
    ∧ timers w' =
        (timers (clearTimeout (connectionTimeout ws) w) ++
         if decide (¬ terminal_code event_code
                    ∧ reconnectAttempts (this w) < maxReconnectAttempts)
         then [reconnect_timer w] else [])%list
    ∧ reconnectAttempts (this w') =
        if decide (¬ terminal_code event_code
                   ∧ reconnectAttempts (this w) < maxReconnectAttempts)
        then reconnectAttempts (this w) + 1 else maxReconnectAttempts.
Proof.
  intros (ws & Hi & _ & ->)%step_TransportClose.
  exists ws. split; [exact Hi|].
  set (w0 := with_sockets _ w).
  split.
  - apply (onclose_timers (connectionTimeout ws) event_code w0).
  - apply (onclose_reconnectAttempts (connectionTimeout ws) event_code w0).
Qed.

Lemma retryable_iff event_code w :
  (event_code ≠ 1006 ∧ event_code ≠ 1002 ∧ reconnectAttempts (this w) < 5)
  ↔ (¬ terminal_code event_code
     ∧ reconnectAttempts (this w) < maxReconnectAttempts).
Proof.
  unfold terminal_code, maxReconnectAttempts. split.
  - intros (H6 & H2 & Hlt). split; [intros [?|?]; contradiction|exact Hlt].
  - intros (Hterm & Hlt). repeat split; [| |exact Hlt];
      intros ->; apply Hterm; [left|right]; reflexivity.
Qed.

(** C1 (amended).  On every closure event dispatched on a transport, the
    reconnect timer is armed if and only if the closure code is neither
    1006 (abnormal closure, connection refused) nor 1002 (protocol error)
    and the retry counter is below the bound of 5; armed, the counter goes
    up by one; otherwise the counter is forced to the bound and the pending
    timers are the old ones less the connection timeout of that transport.
    A normal closure (code 1000) is retried like any other code. *)
Theorem close_event_reconnect_policy (i : nat) (event_code : Z) (w w' : World)
  (Hev : step (TransportClose i event_code) w = Some w') :
  ∃ ws, sockets w !! i = Some ws ∧
    let rest := timers (clearTimeout (connectionTimeout ws) w) in
    let retry := event_code ≠ 1006 ∧ event_code ≠ 1002
                 ∧ reconnectAttempts (this w) < 5 in
    (timers w' = (rest ++ [reconnect_timer w])%list ↔ retry)
    ∧ (retry -> reconnectAttempts (this w') = reconnectAttempts (this w) + 1)
    ∧ (¬ retry ->
         timers w' = rest ∧ reconnectAttempts (this w') = maxReconnectAttempts).
Proof.
  destruct (close_event_effect i event_code w w' Hev) as (ws & Hi & Ht & Ha).
  exists ws. split; [exact Hi|]. intros rest retry.
  pose proof (retryable_iff event_code w) as Hiff. fold retry in Hiff.
  fold rest in Ht.
  destruct (decide (¬ terminal_code event_code
                    ∧ reconnectAttempts (this w) < maxReconnectAttempts)) as [Hy|Hn].
  - apply Hiff in Hy.
    split; [split; [intros _; exact Hy|intros _; exact Ht]|].
    split; [intros _; exact Ha|intros Hc; contradiction].
  - assert (Hnr : ¬ retry) by (intros Hr; apply Hn, Hiff, Hr).
    rewrite app_nil_r in Ht.
    split; [split; [|intros Hc; contradiction]|].
    + intros Heq. rewrite Ht in Heq.
      apply (f_equal length) in Heq. rewrite length_app in Heq. simpl in Heq. lia.
    + split; [intros Hc; contradiction|intros _; split; [exact Ht|exact Ha]].
Qed.

Lemma fire_Some id w w' :
  fire id w = Some w' ->
  ∃ tm, find (fun t => bool_decide (timerId t = id)) (timers w) = Some tm
        ∧ may_fire tm w = true
        ∧ w' = run_callback (callback tm) (clearTimeout id w).
Proof.
  unfold fire. destruct (find _ (timers w)) as [tm|]; [|discriminate].
  destruct (may_fire tm w) eqn:Hm; [|discriminate].
  intros [= <-]. exists tm. auto.
Qed.

Lemma find_timer_spec id (l : list Timer) tm :
  find (fun t => bool_decide (timerId t = id)) l = Some tm ->
  tm ∈ l ∧ timerId tm = id.
Proof.
  induction l as [|a l IH]; simpl; [discriminate|].
  case_bool_decide as Ha.
  - intros [= <-]. split; [left|exact Ha].
  - intros Hf. destruct (IH Hf) as [Hin Hid]. split; [right; exact Hin|exact Hid].
Qed.

(** C3.  A closure with a retryable code while the counter is below the
    bound arms exactly one timer: a reconnect timer whose delay is the base
    delay times the incremented counter (1000 ms for the first attempt,
    2000 ms for the second, linear).  When a reconnect timer fires it runs
    [connect()] if the status is then [disconnected] and does nothing
    otherwise.  With the counter at the bound a closure arms nothing. *)
Theorem retryable_close_schedules_one_reconnect
  (i : nat) (event_code : Z) (w w' : World)
  (Hev : step (TransportClose i event_code) w = Some w')
  (Hcode : event_code ≠ 1006 ∧ event_code ≠ 1002)
  (Hbudget : reconnectAttempts (this w) < maxReconnectAttempts) :
  (∃ ws tm, sockets w !! i = Some ws
     ∧ timers w' = (timers (clearTimeout (connectionTimeout ws) w) ++ [tm])%list
     ∧ callback tm = ReconnectCallback
     ∧ reconnectAttempts (this w') = reconnectAttempts (this w) + 1
     ∧ delay tm = reconnectDelay * reconnectAttempts (this w')
     ∧ due tm = now w + delay tm)
  ∧ (∀ id tm w2 w3,
       find (fun t => bool_decide (timerId t = id)) (timers w2) = Some tm ->
       callback tm = ReconnectCallback ->
       step (TimerFires id) w2 = Some w3 ->
       w3 = if decide (status (this w2) = disconnected)
            then connect (clearTimeout id w2) else clearTimeout id w2)
  ∧ (∀ i0 code0 w0 w0' ws0,
       step (TransportClose i0 code0) w0 = Some w0' ->
       sockets w0 !! i0 = Some ws0 ->
       maxReconnectAttempts <= reconnectAttempts (this w0) ->
       timers w0' = timers (clearTimeout (connectionTimeout ws0) w0)
       ∧ reconnectAttempts (this w0') = maxReconnectAttempts).
Proof.
  split; [|split].
  - destruct (close_event_effect _ _ _ _ Hev) as (ws & Hi & Ht & Ha).
    destruct Hcode as [H6 H2].
    assert (Hretry : ¬ terminal_code event_code
                     ∧ reconnectAttempts (this w) < maxReconnectAttempts)
      by (apply retryable_iff; auto).
    rewrite decide_True in Ht by exact Hretry.
    rewrite decide_True in Ha by exact Hretry.
    exists ws, (reconnect_timer w). rewrite Ha. repeat split; auto.
  - intros id tm w2 w3 Hfind Hcb Hfire. simpl in Hfire.
    apply fire_Some in Hfire as (tm' & Hfind' & _ & ->).
    rewrite Hfind in Hfind'. injection Hfind' as <-. rewrite Hcb. simpl.
    unfold reconnectCallback. simpl. reflexivity.
  - intros i0 code0 w0 w0' ws0 Hev0 Hi0 Hmax.
    destruct (close_event_effect _ _ _ _ Hev0) as (ws & Hi & Ht & Ha).
    rewrite Hi0 in Hi. injection Hi as <-.
    rewrite decide_False in Ht by (intros [_ Hlt]; lia).
    rewrite decide_False in Ha by (intros [_ Hlt]; lia).
    rewrite app_nil_r in Ht. auto.
Qed.

(** ** Subscriptions: C2 *)

Lemma delivered_to_app h l1 l2 :
  delivered_to h (l1 ++ l2) = (delivered_to h l1 ++ delivered_to h l2)%list.
Proof.
  induction l1 as [|e l1 IH]; [reflexivity|].
  destruct e; simpl; try exact IH.
  case_decide; simpl; [f_equal|]; exact IH.
Qed.

Lemma delivered_to_map h s (l : list StatusChangeHandler) :
  delivered_to h (map (fun x => StatusDelivered x s) l)
  = replicate (registrations h l) s.
Proof.
  unfold registrations. induction l as [|x l IH]; [reflexivity|].
  destruct (decide (x = h)) as [Hx|Hx].
  - rewrite filter_cons_True by exact Hx. simpl.
    rewrite decide_True by exact Hx. f_equal. exact IH.
  - rewrite filter_cons_False by exact Hx. simpl.
    rewrite decide_False by exact Hx. exact IH.
Qed.

Lemma registrations_filter_eq h (l : list Handler) :
  registrations h (filter (fun x => x ≠ h) l) = 0%nat.
Proof.
  unfold registrations. induction l as [|x l IH]; [reflexivity|].
  destruct (decide (x = h)) as [Hx|Hx].
  - rewrite filter_cons_False by (intros Hc; apply Hc, Hx). exact IH.
  - rewrite filter_cons_True by exact Hx.
    rewrite filter_cons_False by exact Hx. exact IH.
Qed.

Lemma registrations_filter_ne h h' (l : list Handler) :
  h' ≠ h ->
  registrations h' (filter (fun x => x ≠ h) l) = registrations h' l.
Proof.
  intros Hne. unfold registrations. induction l as [|x l IH]; [reflexivity|].
  destruct (decide (x = h)) as [Hx|Hx].
  - rewrite filter_cons_False by (intros Hc; apply Hc, Hx).
    rewrite filter_cons_False by (intros Hc; apply Hne; rewrite <- Hc; exact Hx).
    exact IH.
  - rewrite filter_cons_True by exact Hx.
    destruct (decide (x = h')) as [Hx'|Hx'].
    + rewrite !filter_cons_True by exact Hx'. simpl. f_equal. exact IH.
    + rewrite !filter_cons_False by exact Hx'. exact IH.
Qed.

Lemma registrations_app h (l1 l2 : list Handler) :
  registrations h (l1 ++ l2) = (registrations h l1 + registrations h l2)%nat.
Proof. unfold registrations. rewrite filter_app, length_app. reflexivity. Qed.

Lemma since_setStatus s w :
  since w (setStatus s w)
  = if decide (status (this w) = s) then []
    else map (fun h => StatusDelivered h s) (statusChangeHandlers (this w)).
Proof. unfold since. rewrite setStatus_log. apply drop_app_length. Qed.

(** C2 (amended).  Each of [onMessage], [onError] and [onStatusChange]
    appends the handler to its list and returns a function that, whenever it
    is called, removes every registration of that handler from the list and
    keeps the other handlers in their order.  So after one call of the
    returned function the handler receives no further status change, however
    many times it had been subscribed, while every other handler receives
    what it would have received. *)
Theorem unsubscribe_removes_every_registration (h : Handler) (w : World) :
  (messageHandlers (this (fst (onMessage h w)))
     = (messageHandlers (this w) ++ [h])%list
   ∧ errorHandlers (this (fst (onError h w)))
     = (errorHandlers (this w) ++ [h])%list
   ∧ statusChangeHandlers (this (fst (onStatusChange h w)))
     = (statusChangeHandlers (this w) ++ [h])%list)
  ∧ (∀ w1,
       messageHandlers (this (snd (onMessage h w) w1))
         = filter (fun x => x ≠ h) (messageHandlers (this w1))
       ∧ errorHandlers (this (snd (onError h w) w1))
         = filter (fun x => x ≠ h) (errorHandlers (this w1))
       ∧ statusChangeHandlers (this (snd (onStatusChange h w) w1))
         = filter (fun x => x ≠ h) (statusChangeHandlers (this w1)))
  ∧ (∀ w1 s,
       let w2 := snd (onStatusChange h w) w1 in
       delivered_to h (since w2 (setStatus s w2)) = []
       ∧ ∀ h', h' ≠ h ->
           delivered_to h' (since w2 (setStatus s w2))
           = delivered_to h' (since w1 (setStatus s w1))).
Proof.
  split; [repeat split|split; [intros w1; repeat split|]].
  intros w1 s w2. rewrite !since_setStatus. subst w2. simpl.
  destruct (decide (status (this w1) = s)); [split; reflexivity|].
  rewrite delivered_to_map, registrations_filter_eq. split; [reflexivity|].
  intros h' Hne. rewrite !delivered_to_map, registrations_filter_ne by exact Hne.
  reflexivity.
Qed.

(** ** Sending: C5 *)

(** C5 (amended).  [send(message)] serializes the message and writes it to
    the current transport if and only if that transport exists and its
    [readyState] is OPEN, which is what [isConnected()] reports; the status
    field is not consulted.  Otherwise it throws the error
    "WebSocket is not connected" and writes nothing; so it does on a freshly
    constructed service. *)
Theorem send_transmits_iff_transport_open (message : WebSocketMessage) (w : World) :
  ((∃ w', send message w = Returns w') ↔ isConnected w = true)
  ∧ (isConnected w = true ->
       ∃ i ws, socket (this w) = Some i ∧ sockets w !! i = Some ws
         ∧ readyState ws = OPEN
         ∧ send message w
           = Returns (with_sockets
                        (fun l => <[i := push_sent (JSON_stringify message) ws]> l) w))
  ∧ (isConnected w = false ->
       send message w = Throws (Error "WebSocket is not connected"))
  ∧ (∀ apiBaseUrl, send message (initial apiBaseUrl)
                   = Throws (Error "WebSocket is not connected")).
Proof.
  unfold isConnected, send.
  destruct (decide (socket_readyState w = Some OPEN)) as [Ho|Hn].
  - rewrite bool_decide_eq_true_2 by exact Ho.
    unfold socket_readyState in Ho.
    destruct (socket (this w)) as [i|] eqn:Hs; [|discriminate].
    destruct (sockets w !! i) as [ws|] eqn:Hi; [|discriminate].
    simpl in Ho. injection Ho as Ho.
    split; [split; eauto|]. split; [|split; [discriminate|reflexivity]].
    intros _. exists i, ws. repeat split; auto.
    unfold with_sockets. do 2 f_equal.
    apply list_eq. intros j.
    destruct (decide (i = j)) as [<-|Hij].
    + rewrite list_lookup_alter_eq, Hi. simpl.
      rewrite list_lookup_insert_eq; [reflexivity|].
      apply lookup_lt_Some in Hi. exact Hi.
    + rewrite list_lookup_alter_ne, list_lookup_insert_ne by exact Hij. reflexivity.
  - rewrite bool_decide_eq_false_2 by exact Hn.
    split; [split; [intros [? ?]; discriminate|discriminate]|].
    split; [discriminate|]. split; reflexivity.
Qed.

(** ** Connecting twice: C6 *)

Lemma connect_noop w : pending_or_open w -> connect w = w.
Proof.
  unfold pending_or_open, connect. intros [Ho|Hc].
  - rewrite decide_True by exact Ho. reflexivity.
  - destruct (decide (socket_readyState w = Some OPEN)); [reflexivity|].
    rewrite decide_True by exact Hc. reflexivity.
Qed.

Lemma connect_fresh w :
  ¬ pending_or_open w ->
  WebSocket_new_throws (url (this w)) = None ->
  sockets (connect w)
    = (sockets w ++ [{| readyState := CONNECTING; sent := [];
                        closeDispatched := false;
                        connectionTimeout := nextTimerId w |}])%list
  ∧ socket (this (connect w)) = Some (length (sockets w))
  ∧ status (this (connect w)) = connecting
  ∧ reconnectAttempts (this (connect w)) = reconnectAttempts (this w)
  ∧ timers (connect w)
    = (timers w ++ [{| timerId := nextTimerId w; delay := 5000;
                       due := now w + 5000;
                       callback := ConnectionTimeoutCallback |}])%list.
Proof.
  unfold pending_or_open, connect. intros Hn Hctor.
  rewrite decide_False by (intros Hc; apply Hn; left; exact Hc).
  rewrite decide_False by (intros Hc; apply Hn; right; exact Hc).
  destruct (setStatus_frame connecting w)
    as (Hs & Ht & Hid & Hnow & _ & Ha & Hu & Hst).
  rewrite Hu, Hctor. simpl. rewrite Hs, Ht, Hid, Hnow, Ha, Hst. auto.
Qed.

(** C6.  While the current transport is connecting or open, [connect()]
    changes nothing at all: no transport is created and the status stays as
    it is.  So, whenever the [WebSocket] constructor accepts the URL, the
    service is pending or open after a first [connect()], a second
    [connect()] right after it is a no-op, and the two calls together create
    one transport if the service was neither pending nor open and none if
    it was; on a fresh service they leave exactly one transport. *)
Theorem connect_idempotent_while_pending_or_open (w : World)
  (Hpo : pending_or_open w) :
  connect w = w
  ∧ (∀ w0, WebSocket_new_throws (url (this w0)) = None ->
       pending_or_open (connect w0)
       ∧ connect (connect w0) = connect w0
       ∧ (¬ pending_or_open w0 ->
            length (sockets (connect (connect w0))) = S (length (sockets w0)))
       ∧ (pending_or_open w0 ->
            length (sockets (connect (connect w0))) = length (sockets w0)))
  ∧ (∀ apiBaseUrl,
       WebSocket_new_throws (getWebSocketUrl apiBaseUrl) = None ->
       length (sockets (connect (connect (initial apiBaseUrl)))) = 1%nat).
Proof.
  split; [apply connect_noop, Hpo|].
  assert (Hgen : ∀ w0, WebSocket_new_throws (url (this w0)) = None ->
       pending_or_open (connect w0)
       ∧ connect (connect w0) = connect w0
       ∧ (¬ pending_or_open w0 ->
            length (sockets (connect (connect w0))) = S (length (sockets w0)))
       ∧ (pending_or_open w0 ->
            length (sockets (connect (connect w0))) = length (sockets w0))).
  { intros w0 Hctor.
    assert (Hpo0 : pending_or_open (connect w0)).
    { destruct (decide (socket_readyState w0 = Some OPEN
                        ∨ socket_readyState w0 = Some CONNECTING)) as [Hp|Hn].
      - rewrite connect_noop by exact Hp. exact Hp.
      - destruct (connect_fresh w0 Hn Hctor) as (Hs & Hi & _).
        right. unfold socket_readyState. rewrite Hi, Hs.
        rewrite lookup_app_r by reflexivity.
        replace (length (sockets w0) - length (sockets w0))%nat with 0%nat by lia.
        reflexivity. }
    split; [exact Hpo0|]. rewrite (connect_noop _ Hpo0).
    split; [reflexivity|]. split.
    - intros Hn. destruct (connect_fresh w0 Hn Hctor) as (-> & _).
      rewrite length_app. simpl. lia.
    - intros Hp. rewrite connect_noop by exact Hp. reflexivity. }
  split; [exact Hgen|].
  intros apiBaseUrl Hctor.
  destruct (Hgen (initial apiBaseUrl) Hctor) as (_ & _ & Hone & _).
  apply Hone. intros [Hc|Hc]; discriminate.
Qed.

(** ** Inbound messages: C9 *)

Lemma alter_id_list {A} (l : list A) i : alter id i l = l.
Proof.
  apply list_eq. intros j. destruct (decide (i = j)) as [<-|Hij].
  - rewrite list_lookup_alter_eq. destruct (l !! i); reflexivity.
  - rewrite list_lookup_alter_ne by exact Hij. reflexivity.
Qed.

Lemma emit_emit a b w : emit b (emit a w) = emit (a ++ b)%list w.
Proof. unfold emit. simpl. rewrite app_assoc. reflexivity. Qed.

Lemma emit_nil w : emit [] w = w.
Proof. destruct w. unfold emit. simpl. rewrite app_nil_r. reflexivity. Qed.

Lemma after_calls_cons message a called w :
  after_calls message (a :: called) w
  = after_calls message called (emit [MessageDelivered a message] w).
Proof. unfold after_calls. rewrite emit_emit. reflexivity. Qed.

Lemma all_return_cons message a handlers w :
  message_observer_throws a message w = None ->
  all_return message handlers (emit [MessageDelivered a message] w) ->
  all_return message (a :: handlers) w.
Proof.
  intros Ha Hrest [|b before] h after Heq; simpl in Heq; injection Heq as -> ->.
  - unfold after_calls. simpl. rewrite emit_nil. exact Ha.
  - rewrite after_calls_cons. apply (Hrest before h after). reflexivity.
Qed.

(** The loop over the observers either calls them all, or stops at the
    first one that throws. *)
Lemma forEach_message_spec message handlers w :
  (all_return message handlers w
   ∧ forEach_message message handlers w = (after_calls message handlers w, None))
  ∨ (∃ before h after thrown,
       handlers = (before ++ h :: after)%list
       ∧ all_return message before w
       ∧ message_observer_throws h message (after_calls message before w) = Some thrown
       ∧ forEach_message message handlers w
         = (after_calls message (before ++ [h]) w, Some thrown)).
Proof.
  revert w. induction handlers as [|a handlers IH]; intros w; simpl.
  - left. split.
    + intros [|b before] h after Heq; discriminate.
    + unfold after_calls. simpl. rewrite emit_nil. reflexivity.
  - destruct (message_observer_throws a message w) as [thrown|] eqn:Ha.
    + right. exists [], a, handlers, thrown. split; [reflexivity|]. split.
      * intros [|b before] h after Heq; discriminate.
      * unfold after_calls. simpl. rewrite emit_nil. auto.
    + destruct (IH (emit [MessageDelivered a message] w))
        as [[Hall ->]|(before & h & after & thrown & -> & Hall & Hthrows & ->)].
      * left. split; [apply all_return_cons; assumption|].
        rewrite after_calls_cons. reflexivity.
      * right. exists (a :: before), h, after, thrown.
        split; [reflexivity|]. split; [apply all_return_cons; assumption|].
        rewrite after_calls_cons. split; [exact Hthrows|].
        simpl. rewrite after_calls_cons. reflexivity.
Qed.

Lemma delivered_to_messages h message called :
  delivered_to h (map (fun h' => MessageDelivered h' message) called) = [].
Proof. induction called; [reflexivity|auto]. Qed.

(** A message event only adds to the log, and no status is delivered. *)
Lemma onmessage_quiet event_data w :
  ∃ es, onmessage event_data w = emit es w ∧ ∀ h, delivered_to h es = [].
Proof.
  unfold onmessage, notifyMessageHandlers.
  destruct (JSON_parse event_data) as [e|message].
  - eexists. split; [reflexivity|]. reflexivity.
  - destruct (forEach_message_spec message (messageHandlers (this w)) w)
      as [[_ ->]|(before & h0 & after & thrown & _ & _ & _ & ->)].
    + eexists. split; [reflexivity|]. intros h. apply delivered_to_messages.
    + unfold after_calls. rewrite emit_emit. eexists. split; [reflexivity|].
      intros h. rewrite delivered_to_app, delivered_to_messages. reflexivity.
Qed.

(** C9.  A message event on an open transport always completes, and
    changes nothing but the log: the status, the retry counter, the
    observer lists, the transports and the timers are as before.  When
    [JSON.parse] throws on the payload, the only effect is one
    [console.error] line with what it threw: no message observer and no
    error observer is invoked.  When the payload parses, to whatever value,
    that value is handed as it is to the registered message observers in
    registration order.  Either all of them return, and then every one of
    them was called and nothing else happened; or one of them throws, and
    then the observers registered after it are not called and the
    exception is logged by [console.error] as a parse failure. *)
Theorem inbound_message_delivery (i : nat) (ws : WebSocket)
  (event_data : string) (w : World)
  (Hsock : sockets w !! i = Some ws) (Hopen : readyState ws = OPEN) :
  ∃ w', step (TransportMessage i event_data) w = Some w'
    ∧ this w' = this w ∧ sockets w' = sockets w ∧ timers w' = timers w
    ∧ nextTimerId w' = nextTimerId w ∧ now w' = now w
    ∧ match JSON_parse event_data with
      | inl e =>
          log w' = (log w ++ [ConsoleError "Failed to parse WebSocket message:"
                                (ThrownError e)])%list
      | inr message =>
          (all_return message (messageHandlers (this w)) w
           ∧ log w' = (log w ++ map (fun h => MessageDelivered h message)
                                  (messageHandlers (this w)))%list)
          ∨ (∃ before h after thrown,
               messageHandlers (this w) = (before ++ h :: after)%list
               ∧ all_return message before w
               ∧ message_observer_throws h message (after_calls message before w)
                 = Some thrown
               ∧ log w' = (log w ++ map (fun h => MessageDelivered h message)
                                      (before ++ [h])
                             ++ [ConsoleError "Failed to parse WebSocket message:"
                                   thrown])%list)
      end.
Proof.
  simpl. unfold dispatch. rewrite Hsock, Hopen. simpl.
  eexists. split; [reflexivity|].
  set (w0 := with_sockets (alter id i) w).
  assert (Hw0 : w0 = w).
  { unfold w0, with_sockets. rewrite alter_id_list. destruct w; reflexivity. }
  rewrite Hw0. clear w0 Hw0.
  assert (Hframe : this (onmessage event_data w) = this w
                   ∧ sockets (onmessage event_data w) = sockets w
                   ∧ timers (onmessage event_data w) = timers w
                   ∧ nextTimerId (onmessage event_data w) = nextTimerId w
                   ∧ now (onmessage event_data w) = now w).
  { destruct (onmessage_quiet event_data w) as (es & -> & _). simpl. auto. }
  destruct Hframe as (H1 & H2 & H3 & H4 & H5).
  split; [exact H1|]. split; [exact H2|]. split; [exact H3|].
  split; [exact H4|]. split; [exact H5|]. clear H1 H2 H3 H4 H5.
  unfold onmessage, notifyMessageHandlers.
  destruct (JSON_parse event_data) as [e|message]; [reflexivity|].
  destruct (forEach_message_spec message (messageHandlers (this w)) w)
    as [[Hall ->]|(before & h & after & thrown & Heq & Hall & Hthrows & ->)].
  - left. split; [exact Hall|]. reflexivity.
  - right. exists before, h, after, thrown. split; [exact Heq|].
    split; [exact Hall|]. split; [exact Hthrows|].
    unfold after_calls. simpl. rewrite app_assoc. reflexivity.
Qed.

(** ** Replaced transports are closing or closed *)

Ltac unfold_handlers :=
  unfold onopen, onmessage, onerror, onclose, attemptReconnect,
    notifyMessageHandlers, notifyErrorHandlers, clearTimeout, setStatus,
    notifyStatusChangeHandlers.

Lemma handlers_keep_transports t event_code event_data w :
  (sockets (onopen t w) = sockets w ∧ socket (this (onopen t w)) = socket (this w))
  ∧ (sockets (onmessage event_data w) = sockets w
     ∧ socket (this (onmessage event_data w)) = socket (this w))
  ∧ (sockets (onerror t w) = sockets w ∧ socket (this (onerror t w)) = socket (this w))
  ∧ (sockets (onclose t event_code w) = sockets w
     ∧ socket (this (onclose t event_code w)) = socket (this w)).
Proof.
  split; [|split; [|split]].
  - unfold_handlers. repeat case_decide; simpl; auto.
  - destruct (onmessage_quiet event_data w) as (es & -> & _). simpl. auto.
  - unfold_handlers. repeat case_decide; simpl; auto.
  - unfold_handlers. repeat case_decide; simpl; auto.
Qed.

Lemma stale_closed_same w w' :
  sockets w' = sockets w -> socket (this w') = socket (this w) ->
  stale_closed w -> stale_closed w'.
Proof. unfold stale_closed. intros -> ->. auto. Qed.

Lemma stale_closed_alter (f : WebSocket -> WebSocket) i w :
  (∀ ws, sockets w !! i = Some ws ->
     readyState (f ws) = CONNECTING ∨ readyState (f ws) = OPEN ->
     readyState ws = CONNECTING ∨ readyState ws = OPEN) ->
  stale_closed w -> stale_closed (with_sockets (alter f i) w).
Proof.
  intros Hf Hw j ws'. simpl. intros Hj Hopen.
  destruct (decide (i = j)) as [<-|Hij].
  - rewrite list_lookup_alter_eq in Hj.
    destruct (sockets w !! i) as [ws|] eqn:Hi; [|discriminate].
    simpl in Hj. injection Hj as <-. apply (Hw i ws Hi). apply Hf; auto.
  - rewrite list_lookup_alter_ne in Hj by exact Hij. apply (Hw j ws' Hj Hopen).
Qed.

Lemma WebSocket_close_readyState ws :
  readyState (WebSocket_close ws)
  = match readyState ws with
    | CONNECTING | OPEN | CLOSING => CLOSING
    | CLOSED => CLOSED
    end.
Proof. unfold WebSocket_close. destruct (readyState ws) eqn:Hr; simpl; auto. Qed.

Lemma close_current_readyState w :
  socket_readyState (close_current w) = closed_further <$> socket_readyState w.
Proof.
  unfold close_current, socket_readyState.
  destruct (socket (this w)) as [i|] eqn:Hi; [|rewrite Hi; reflexivity].
  simpl. rewrite Hi, list_lookup_alter_eq.
  destruct (sockets w !! i) as [ws|]; [|reflexivity].
  simpl. rewrite WebSocket_close_readyState. reflexivity.
Qed.

Lemma stale_closed_close_current w :
  stale_closed w -> stale_closed (close_current w).
Proof.
  intros Hw. unfold close_current. destruct (socket (this w)) as [i|]; [|exact Hw].
  apply stale_closed_alter; [|exact Hw].
  intros ws _. rewrite WebSocket_close_readyState.
  destruct (readyState ws); intros [?|?]; discriminate || auto.
Qed.

Lemma stale_closed_connect w : stale_closed w -> stale_closed (connect w).
Proof.
  intros Hw. destruct (decide (pending_or_open w)) as [Hp|Hn].
  { rewrite connect_noop by exact Hp. exact Hw. }
  destruct (WebSocket_new_throws (url (this w))) as [thrown|] eqn:Hctor.
  - unfold pending_or_open in Hn. unfold connect.
    rewrite decide_False by (intros Hc; apply Hn; left; exact Hc).
    rewrite decide_False by (intros Hc; apply Hn; right; exact Hc).
    destruct (setStatus_frame connecting w) as (Hs & _ & _ & _ & Hi & _ & Hu & _).
    rewrite Hu, Hctor. cbv zeta.
    apply (stale_closed_same w); [| |exact Hw].
    + unfold notifyErrorHandlers. simpl.
      destruct (setStatus_frame error (setStatus connecting w)) as (-> & _). exact Hs.
    + unfold notifyErrorHandlers. simpl.
      destruct (setStatus_frame error (setStatus connecting w))
        as (_ & _ & _ & _ & -> & _). exact Hi.
  - destruct (connect_fresh w Hn Hctor) as (Hs & Hi & _).
    intros j ws. rewrite Hs, Hi. intros Hj Hopen.
    destruct (decide (j < length (sockets w))%nat) as [Hlt|Hge].
    + rewrite lookup_app_l in Hj by exact Hlt.
      pose proof (Hw j ws Hj Hopen) as Hcur. exfalso. apply Hn.
      unfold pending_or_open, socket_readyState. rewrite Hcur, Hj. simpl.
      destruct Hopen as [->| ->]; auto.
    + apply lookup_lt_Some in Hj. rewrite length_app in Hj. simpl in Hj.
      f_equal. lia.
Qed.

Lemma stale_closed_disconnect w : stale_closed w -> stale_closed (disconnect w).
Proof.
  intros Hw. unfold disconnect. cbv zeta.
  set (w1 := with_this (set_reconnectAttempts maxReconnectAttempts) w).
  assert (Hw1 : stale_closed w1) by (apply (stale_closed_same w); auto).
  assert (Hall : ∀ w2, stale_closed w2 ->
            (∀ i, socket (this w2) = Some i ->
               ¬ (socket_readyState w2 = Some OPEN
                  ∨ socket_readyState w2 = Some CONNECTING)) ->
            stale_closed (setStatus disconnected (with_this (set_socket None) w2))).
  { intros w2 Hw2 Hcur j ws Hj Hopen. exfalso.
    destruct (setStatus_frame disconnected (with_this (set_socket None) w2))
      as (Hs & _). rewrite Hs in Hj. simpl in Hj.
    pose proof (Hw2 j ws Hj Hopen) as Hc. apply (Hcur j Hc).
    unfold socket_readyState. rewrite Hc, Hj. simpl.
    destruct Hopen as [->| ->]; auto. }
  destruct (socket (this w1)) as [i|] eqn:Hi.
  - destruct (decide (socket_readyState w1 = Some OPEN
                      ∨ socket_readyState w1 = Some CONNECTING)) as [Hp|Hn].
    + apply Hall; [apply stale_closed_close_current, Hw1|].
      intros _ _. rewrite close_current_readyState.
      destruct (socket_readyState w1) as [[]|]; intros [?|?]; discriminate.
    + apply Hall; [exact Hw1|]. intros _ _. exact Hn.
  - apply (stale_closed_same w1); [| |exact Hw1].
    + destruct (setStatus_frame disconnected w1) as (-> & _). reflexivity.
    + destruct (setStatus_frame disconnected w1) as (_ & _ & _ & _ & -> & _).
      reflexivity.
Qed.

Lemma stale_closed_connectionTimeoutCallback w :
  stale_closed w -> stale_closed (connectionTimeoutCallback w).
Proof.
  intros Hw. unfold connectionTimeoutCallback.
  destruct (socket_readyState w) as [r|]; [|exact Hw].
  case_decide; [|exact Hw]. cbv zeta.
  apply (stale_closed_same (close_current w));
    [| |apply stale_closed_close_current, Hw]; simpl.
  - destruct (setStatus_frame disconnected (close_current w)) as (-> & _). reflexivity.
  - destruct (setStatus_frame disconnected (close_current w))
      as (_ & _ & _ & _ & -> & _). reflexivity.
Qed.

Lemma stale_closed_step e w w' :
  stale_closed w -> step e w = Some w' -> stale_closed w'.
Proof.
  intros Hw. destruct e; simpl.
  - intros [= <-]. apply stale_closed_connect, Hw.
  - intros [= <-]. apply stale_closed_disconnect, Hw.
  - intros [= <-]. unfold send. case_decide; [|exact Hw].
    destruct (socket (this w)); [|exact Hw]. simpl.
    apply stale_closed_alter; auto.
  - intros [= <-]. unfold sendAddNumbers, send. case_decide; [|exact Hw].
    destruct (socket (this w)); [|exact Hw]. simpl.
    apply stale_closed_alter; auto.
  - intros [= <-]. unfold sendHealthCheck, send. case_decide; [|exact Hw].
    destruct (socket (this w)); [|exact Hw]. simpl.
    apply stale_closed_alter; auto.
  - intros [= <-]. exact Hw.
  - intros [= <-]. exact Hw.
  - intros [= <-]. exact Hw.
  - intros [= <-]. exact Hw.
  - intros [= <-]. exact Hw.
  - intros [= <-]. exact Hw.
  - intros (ws & Hi & Hen & ->)%dispatch_Some.
    destruct (handlers_keep_transports (connectionTimeout ws) 0 ""
                (with_sockets (alter (set_readyState OPEN) i) w))
      as ((Hs & Hc) & _).
    apply (stale_closed_same _ _ Hs Hc). apply stale_closed_alter; [|exact Hw].
    intros ws' Hi' _. rewrite Hi in Hi'. injection Hi' as <-.
    apply bool_decide_eq_true in Hen. auto.
  - intros (ws & Hi & Hen & ->)%dispatch_Some.
    destruct (handlers_keep_transports 0%nat 0 event_data
                (with_sockets (alter id i) w)) as (_ & (Hs & Hc) & _).
    apply (stale_closed_same _ _ Hs Hc). apply stale_closed_alter; auto.
  - intros (ws & Hi & Hen & ->)%dispatch_Some.
    apply stale_closed_alter; [|exact Hw]. simpl. intros ? _ [?|?]; discriminate.
  - intros (ws & Hi & Hen & ->)%dispatch_Some.
    destruct (handlers_keep_transports (connectionTimeout ws) 0 ""
                (with_sockets (alter (set_readyState CLOSED) i) w))
      as (_ & _ & (Hs & Hc) & _).
    apply (stale_closed_same _ _ Hs Hc). apply stale_closed_alter; [|exact Hw].
    simpl. intros ? _ [?|?]; discriminate.
  - intros (ws & Hi & Hen & ->)%dispatch_Some.
    destruct (handlers_keep_transports (connectionTimeout ws) event_code ""
                (with_sockets
                   (alter (fun ws => set_closeDispatched (set_readyState CLOSED ws)) i) w))
      as (_ & _ & _ & (Hs & Hc)).
    apply (stale_closed_same _ _ Hs Hc). apply stale_closed_alter; [|exact Hw].
    simpl. intros ? _ [?|?]; discriminate.
  - unfold elapse. destruct (bool_decide _); [|discriminate]. intros [= <-]. exact Hw.
  - intros (tm & _ & _ & ->)%fire_Some.
    assert (Hc : stale_closed (clearTimeout id w)) by exact Hw.
    destruct (callback tm); simpl.
    + apply stale_closed_connectionTimeoutCallback, Hc.
    + unfold reconnectCallback. case_decide; [|exact Hc].
      apply stale_closed_connect, Hc.
Qed.

Lemma reachable_stale_closed w : reachable w -> stale_closed w.
Proof.
  induction 1 as [apiBaseUrl|e w w' _ IH Hstep].
  - intros j ws Hj. discriminate.
  - apply (stale_closed_step e w w' IH Hstep).
Qed.

Lemma reachable_run es w w' :
  reachable w -> run es w = Some w' -> reachable w'.
Proof.
  revert w. induction es as [|e es IH]; intros w Hw; simpl.
  - intros [= <-]. exact Hw.
  - destruct (step e w) as [w1|] eqn:Hstep; [|discriminate].
    apply IH. apply (reachable_step e w w1 Hw Hstep).
Qed.

(** ** Opening: C7 *)

(** C7.  In every world the event loop can reach, an open event on a
    transport cancels the connection timeout its handlers captured (no
    pending timer carries that identifier afterwards), sets the status to
    [connected] and resets the retry counter to zero; afterwards
    [getStatus()] is [connected] and [isConnected()] is [true], because the
    transport that opens is the current one. *)
Theorem open_event_connects (i : nat) (w w' : World)
  (Hreach : reachable w)
  (Hev : step (TransportOpen i) w = Some w') :
  (∃ ws, sockets w !! i = Some ws
     ∧ timers w' = filter (fun tm => timerId tm ≠ connectionTimeout ws) (timers w)
     ∧ ∀ tm, tm ∈ timers w' -> timerId tm ≠ connectionTimeout ws)
  ∧ status (this w') = connected
  ∧ reconnectAttempts (this w') = 0
  ∧ getStatus w' = connected
  ∧ isConnected w' = true.
Proof.
  simpl in Hev. apply dispatch_Some in Hev as (ws & Hi & Hen & ->).
  apply bool_decide_eq_true in Hen.
  pose proof (reachable_stale_closed w Hreach i ws Hi (or_introl Hen)) as Hcur.
  set (w0 := with_sockets (alter (set_readyState OPEN) i) w).
  unfold onopen. cbv zeta.
  destruct (setStatus_frame connected (clearTimeout (connectionTimeout ws) w0))
    as (Hs & Ht & _ & _ & Hsock & _ & _ & Hst).
  assert (Htimers : timers (with_this (set_reconnectAttempts 0)
                      (setStatus connected (clearTimeout (connectionTimeout ws) w0)))
                    = filter (fun tm => timerId tm ≠ connectionTimeout ws) (timers w)).
  { simpl. rewrite Ht. reflexivity. }
  split; [exists ws; split; [exact Hi|split; [exact Htimers|]]|].
  - intros tm. rewrite Htimers. intros Hin%list_elem_of_filter. apply Hin.
  - repeat split; try exact Hst.
    unfold isConnected. apply bool_decide_eq_true.
    unfold socket_readyState. simpl. rewrite Hsock, Hs. simpl. rewrite Hcur.
    rewrite list_lookup_alter_eq, Hi. reflexivity.
Qed.

(** ** The connection timeout: C4 *)

Lemma onerror_effect t w :
  sockets (onerror t w) = sockets w
  ∧ timers (onerror t w) = timers (clearTimeout t w)
  ∧ reconnectAttempts (this (onerror t w)) = reconnectAttempts (this w)
  ∧ status (this (onerror t w)) = error.
Proof.
  unfold onerror, notifyErrorHandlers. cbv zeta. simpl.
  destruct (setStatus_frame error (clearTimeout t w))
    as (-> & -> & _ & _ & _ & -> & _ & ->). auto.
Qed.

Lemma onclose_status t event_code w :
  status (this (onclose t event_code w)) = disconnected.
Proof.
  unfold onclose, attemptReconnect. cbv zeta.
  repeat case_decide; simpl; apply setStatus_frame.
Qed.

Lemma no_reconnect_pending_clearTimeout t w :
  no_reconnect_pending w -> no_reconnect_pending (clearTimeout t w).
Proof.
  intros Hw tm. simpl. intros Hin%list_elem_of_filter. apply Hw, Hin.
Qed.

Lemma connectionTimeoutCallback_effect r w :
  socket_readyState w = Some r -> r ≠ OPEN ->
  status (this (connectionTimeoutCallback w)) = disconnected
  ∧ reconnectAttempts (this (connectionTimeoutCallback w)) = maxReconnectAttempts
  ∧ socket_readyState (connectionTimeoutCallback w) = Some (closed_further r)
  ∧ timers (connectionTimeoutCallback w) = timers w
  ∧ ∃ i, socket (this w) = Some i
         ∧ sockets (connectionTimeoutCallback w) = alter WebSocket_close i (sockets w).
Proof.
  intros Hr Hno. unfold connectionTimeoutCallback. rewrite Hr.
  rewrite decide_True by exact Hno. cbv zeta.
  destruct (setStatus_frame disconnected (close_current w))
    as (Hs & Ht & _ & _ & Hsock & _ & _ & Hst).
  split; [exact Hst|]. split; [reflexivity|]. split; [|split].
  - unfold socket_readyState. simpl. rewrite Hsock, Hs.
    change (socket_readyState (close_current w) = Some (closed_further r)).
    rewrite close_current_readyState, Hr. reflexivity.
  - simpl. rewrite Ht. unfold close_current.
    destruct (socket (this w)); reflexivity.
  - unfold socket_readyState in Hr.
    destruct (socket (this w)) as [i|] eqn:Hi; [|discriminate].
    exists i. split; [reflexivity|]. simpl. rewrite Hs.
    unfold close_current. rewrite Hi. reflexivity.
Qed.

Lemma all_closed_alter (f : WebSocket -> WebSocket) i (l : list WebSocket) :
  (∀ ws, readyState ws = CLOSING ∨ readyState ws = CLOSED ->
         readyState (f ws) = CLOSING ∨ readyState (f ws) = CLOSED) ->
  (∀ j ws, l !! j = Some ws -> readyState ws = CLOSING ∨ readyState ws = CLOSED) ->
  ∀ j ws, alter f i l !! j = Some ws ->
          readyState ws = CLOSING ∨ readyState ws = CLOSED.
Proof.
  intros Hf Hl j ws' Hj. destruct (decide (i = j)) as [<-|Hij].
  - rewrite list_lookup_alter_eq in Hj.
    destruct (l !! i) as [ws|] eqn:Hi; [|discriminate].
    simpl in Hj. injection Hj as <-. apply Hf, (Hl i ws Hi).
  - rewrite list_lookup_alter_ne in Hj by exact Hij. apply (Hl j ws' Hj).
Qed.

Lemma WebSocket_close_closed ws :
  readyState ws = CLOSING ∨ readyState ws = CLOSED ->
  readyState (WebSocket_close ws) = CLOSING
  ∨ readyState (WebSocket_close ws) = CLOSED.
Proof.
  rewrite WebSocket_close_readyState. intros [->| ->]; auto.
Qed.

(** Once the service has given up, transport events and the passage of time
    keep it so and create no transport. *)
Lemma given_up_step e w w' :
  is_call e = false -> given_up w -> step e w = Some w' ->
  given_up w' ∧ length (sockets w') = length (sockets w).
Proof.
  intros Hcall (Hmax & Hnorec & Hclosed & Hst).
  destruct e; try discriminate Hcall; simpl.
  - intros (ws & Hi & Hen & _)%dispatch_Some. exfalso.
    apply bool_decide_eq_true in Hen.
    destruct (Hclosed i ws Hi) as [Hc|Hc]; rewrite Hc in Hen; discriminate.
  - intros (ws & Hi & Hen & _)%dispatch_Some. exfalso.
    apply bool_decide_eq_true in Hen.
    destruct (Hclosed i ws Hi) as [Hc|Hc]; rewrite Hc in Hen; discriminate.
  - intros (ws & Hi & Hen & _)%dispatch_Some. exfalso.
    apply bool_decide_eq_true in Hen.
    destruct (Hclosed i ws Hi) as [Hc|Hc]; rewrite Hc in Hen; discriminate.
  - intros (ws & Hi & _ & ->)%dispatch_Some.
    set (w0 := with_sockets (alter (set_readyState CLOSED) i) w).
    destruct (onerror_effect (connectionTimeout ws) w0) as (Hs & Ht & Ha & Hstat).
    split; [split; [|split; [|split]]|].
    + rewrite Ha. exact Hmax.
    + intros tm. rewrite Ht. apply (no_reconnect_pending_clearTimeout _ w0 Hnorec).
    + rewrite Hs. simpl. apply all_closed_alter; auto.
    + right. exact Hstat.
    + rewrite Hs. simpl. apply length_alter.
  - intros (ws & Hi & _ & ->)%dispatch_Some.
    set (w0 := with_sockets
                 (alter (fun ws => set_closeDispatched (set_readyState CLOSED ws)) i) w).
    pose proof (onclose_timers (connectionTimeout ws) event_code w0) as Ht.
    pose proof (onclose_reconnectAttempts (connectionTimeout ws) event_code w0) as Ha.
    rewrite decide_False in Ht
      by (intros [_ Hlt]; simpl in Hlt; rewrite Hmax in Hlt; lia).
    rewrite decide_False in Ha
      by (intros [_ Hlt]; simpl in Hlt; rewrite Hmax in Hlt; lia).
    rewrite app_nil_r in Ht.
    destruct (handlers_keep_transports (connectionTimeout ws) event_code "" w0)
      as (_ & _ & _ & (Hs & _)).
    split; [split; [|split; [|split]]|].
    + exact Ha.
    + intros tm. rewrite Ht. apply (no_reconnect_pending_clearTimeout _ w0 Hnorec).
    + rewrite Hs. simpl. apply all_closed_alter; auto.
    + left. apply onclose_status.
    + rewrite Hs. simpl. apply length_alter.
  - unfold elapse. destruct (bool_decide _); [|discriminate]. intros [= <-].
    split; [split; [|split; [|split]]|]; auto.
  - intros (tm & Hfind & _ & ->)%fire_Some.
    apply find_timer_spec in Hfind as [Hin _].
    pose proof (Hnorec tm Hin) as Hcb.
    destruct (callback tm); [|contradiction]. simpl.
    set (w0 := clearTimeout id w).
    assert (Hnorec0 : no_reconnect_pending w0)
      by (apply no_reconnect_pending_clearTimeout, Hnorec).
    destruct (socket_readyState w0) as [r|] eqn:Hr.
    + assert (Hne : r ≠ OPEN).
      { unfold socket_readyState in Hr. simpl in Hr.
        destruct (socket (this w)) as [i|]; [|discriminate].
        destruct (sockets w !! i) as [ws|] eqn:Hi; [|discriminate].
        simpl in Hr. injection Hr as <-.
        destruct (Hclosed i ws Hi) as [->| ->]; discriminate. }
      destruct (connectionTimeoutCallback_effect r w0 Hr Hne)
        as (Hstat & Ha & _ & Ht & i & _ & Hs).
      split; [split; [|split; [|split]]|].
      * exact Ha.
      * intros tm'. rewrite Ht. apply Hnorec0.
      * rewrite Hs. simpl. apply all_closed_alter; [|exact Hclosed].
        apply WebSocket_close_closed.
      * left. exact Hstat.
      * rewrite Hs. simpl. apply length_alter.
    + unfold connectionTimeoutCallback. rewrite Hr.
      split; [split; [|split; [|split]]|]; auto.
Qed.

Lemma given_up_run es w w' :
  forallb (fun e => negb (is_call e)) es = true ->
  given_up w -> run es w = Some w' ->
  given_up w' ∧ length (sockets w') = length (sockets w).
Proof.
  revert w. induction es as [|e es IH]; intros w Hes Hw; simpl.
  - intros [= <-]. auto.
  - simpl in Hes. apply andb_true_iff in Hes as [He Hes].
    destruct (step e w) as [w1|] eqn:Hstep; [|discriminate].
    intros Hrun.
    destruct (given_up_step e w w1) as [Hw1 Hlen]; auto.
    { destruct (is_call e); [discriminate|reflexivity]. }
    destruct (IH w1 Hes Hw1 Hrun) as [Hw' Hlen']. split; [exact Hw'|]. lia.
Qed.

(** X16.  The connection timeout where it does stop the service.  Take a
    reachable world with no reconnect timer pending in which a connection
    timeout fires while the current transport has not reached the open
    state.  Then the transport is closed forcibly (it is closing,
    or stays closed), the status is [disconnected] and the retry counter is
    at its bound.  From then on, whatever transport events arrive and
    however much time passes, no transport is created, no reconnect timer is
    ever pending, the counter stays at the bound and the status never
    becomes [connecting] or [connected]. *)
Lemma connection_timeout_is_terminal
  (id : nat) (tm : Timer) (r : ReadyState) (w w1 : World)
  (Hreach : reachable w)
  (Htimer : find (fun t => bool_decide (timerId t = id)) (timers w) = Some tm)
  (Hcb : callback tm = ConnectionTimeoutCallback)
  (Hcur : socket_readyState w = Some r)
  (Hnotopen : r ≠ OPEN)
  (Hnorec : no_reconnect_pending w)
  (Hfire : step (TimerFires id) w = Some w1) :
  (status (this w1) = disconnected
   ∧ reconnectAttempts (this w1) = maxReconnectAttempts
   ∧ socket_readyState w1 = Some (closed_further r)
   ∧ length (sockets w1) = length (sockets w))
  ∧ ∀ es w2,
      forallb (fun e => negb (is_call e)) es = true ->
      run es w1 = Some w2 ->
      length (sockets w2) = length (sockets w1)
      ∧ no_reconnect_pending w2
      ∧ reconnectAttempts (this w2) = maxReconnectAttempts
      ∧ status (this w2) ≠ connecting ∧ status (this w2) ≠ connected.
Proof.
  simpl in Hfire. apply fire_Some in Hfire as (tm' & Hfind & _ & ->).
  rewrite Htimer in Hfind. injection Hfind as <-. rewrite Hcb. simpl.
  set (w0 := clearTimeout id w).
  assert (Hr0 : socket_readyState w0 = Some r) by exact Hcur.
  destruct (connectionTimeoutCallback_effect r w0 Hr0 Hnotopen)
    as (Hstat & Ha & Hrs & Ht & i & Hi & Hs).
  assert (Hgu : given_up (connectionTimeoutCallback w0)).
  { split; [exact Ha|]. split; [|split; [|left; exact Hstat]].
    - intros tm'. rewrite Ht. apply no_reconnect_pending_clearTimeout, Hnorec.
    - rewrite Hs. simpl. intros j ws' Hj.
      pose proof (reachable_stale_closed w Hreach) as Hstale.
      destruct (decide (i = j)) as [<-|Hij].
      + rewrite list_lookup_alter_eq in Hj.
        destruct (sockets w !! i) as [ws|] eqn:Hlk; [|discriminate].
        simpl in Hj. injection Hj as <-.
        rewrite WebSocket_close_readyState.
        destruct (readyState ws); auto.
      + rewrite list_lookup_alter_ne in Hj by exact Hij.
        destruct (readyState ws') eqn:Hrs'; auto; exfalso; apply Hij.
        * assert (Hc : socket (this w) = Some j) by (apply (Hstale j ws' Hj); auto).
          simpl in Hi. rewrite Hi in Hc. injection Hc as ->. reflexivity.
        * assert (Hc : socket (this w) = Some j) by (apply (Hstale j ws' Hj); auto).
          simpl in Hi. rewrite Hi in Hc. injection Hc as ->. reflexivity. }
  split.
  - split; [exact Hstat|]. split; [exact Ha|]. split; [exact Hrs|].
    rewrite Hs. simpl. apply length_alter.
  - intros es w2 Hes Hrun.
    destruct (given_up_run es _ w2 Hes Hgu Hrun) as ((Hmax & Hnr & _ & Hst) & Hlen).
    split; [exact Hlen|]. split; [exact Hnr|]. split; [exact Hmax|].
    destruct Hst as [->| ->]; split; discriminate.
Qed.

(** ** Status notifications: C10 *)

Lemma alternating_snoc (l : list WebSocketStatus) a s :
  alternating l -> last l = Some a -> a ≠ s -> alternating (l ++ [s]).
Proof.
  induction l as [|x l IH]; [discriminate 2|].
  destruct l as [|y l].
  - simpl. intros _ [= ->] Hne. auto.
  - intros [Hxy Halt] Hlast Hne. split; [exact Hxy|].
    apply IH; auto.
Qed.

Section Tracked.
Variables (h : StatusChangeHandler) (k : nat) (s0 : WebSocketStatus) (n : nat).

Lemma tracked_quiet w w' :
  status (this w') = status (this w) ->
  registrations h (statusChangeHandlers (this w'))
    = registrations h (statusChangeHandlers (this w)) ->
  log w' = log w ->
  tracked h k s0 n w -> tracked h k s0 n w'.
Proof. unfold tracked. intros -> -> ->. auto. Qed.

Lemma tracked_emit es w :
  delivered_to h es = [] -> tracked h k s0 n w -> tracked h k s0 n (emit es w).
Proof.
  intros Hes (Hreg & Hn & changes & Hd & Halt & Hlast). unfold tracked.
  change (log (emit es w)) with (log w ++ es)%list.
  change (this (emit es w)) with (this w).
  rewrite drop_app_le by exact Hn. rewrite delivered_to_app, Hes, app_nil_r.
  rewrite length_app. split; [exact Hreg|]. split; [lia|].
  exists changes. auto.
Qed.

Lemma tracked_setStatus s w :
  tracked h k s0 n w -> tracked h k s0 n (setStatus s w).
Proof.
  intros (Hreg & Hn & changes & Hd & Halt & Hlast). unfold setStatus.
  case_decide as Hs; [|split; [exact Hreg|split; [exact Hn|exists changes; auto]]].
  set (w' := notifyStatusChangeHandlers s (with_this (set_status s) w)).
  assert (Hlog : log w' = (log w ++ map (fun x => StatusDelivered x s)
                                      (statusChangeHandlers (this w)))%list)
    by reflexivity.
  assert (Hst : status (this w') = s) by reflexivity.
  assert (Hh : statusChangeHandlers (this w') = statusChangeHandlers (this w))
    by reflexivity.
  unfold tracked. rewrite Hlog, Hst, Hh.
  rewrite drop_app_le by exact Hn.
  rewrite delivered_to_app, delivered_to_map, Hreg, length_app, Hd.
  split; [reflexivity|]. split; [lia|].
  exists (changes ++ [s])%list. split; [|split].
  - unfold per_registration. rewrite map_app, concat_app. simpl.
    rewrite app_nil_r. reflexivity.
  - rewrite app_comm_cons. apply (alternating_snoc _ (status (this w))); auto.
  - rewrite app_comm_cons. apply last_snoc.
Qed.

Lemma tracked_with_this f w :
  status (f (this w)) = status (this w) ->
  statusChangeHandlers (f (this w)) = statusChangeHandlers (this w) ->
  tracked h k s0 n w -> tracked h k s0 n (with_this f w).
Proof. intros Hs Hh. apply tracked_quiet; simpl; congruence. Qed.

Lemma tracked_with_sockets f w :
  tracked h k s0 n w -> tracked h k s0 n (with_sockets f w).
Proof. apply tracked_quiet; reflexivity. Qed.

Lemma tracked_with_timers f w :
  tracked h k s0 n w -> tracked h k s0 n (with_timers f w).
Proof. apply tracked_quiet; reflexivity. Qed.

Lemma tracked_setTimeout cb d w :
  tracked h k s0 n w -> tracked h k s0 n (setTimeout cb d w).
Proof. apply tracked_quiet; reflexivity. Qed.

Lemma tracked_with_now t w : tracked h k s0 n w -> tracked h k s0 n (with_now t w).
Proof. apply tracked_quiet; reflexivity. Qed.

Lemma tracked_close_current w :
  tracked h k s0 n w -> tracked h k s0 n (close_current w).
Proof.
  unfold close_current. destruct (socket (this w)); [|auto].
  apply tracked_with_sockets.
Qed.

Lemma tracked_onmessage event_data w :
  tracked h k s0 n w -> tracked h k s0 n (onmessage event_data w).
Proof.
  destruct (onmessage_quiet event_data w) as (es & -> & Hes).
  apply tracked_emit, Hes.
Qed.

Lemma tracked_notifyErrorHandlers e w :
  tracked h k s0 n w -> tracked h k s0 n (notifyErrorHandlers e w).
Proof.
  apply tracked_emit. induction (errorHandlers (this w)); [reflexivity|auto].
Qed.

Ltac tracked_peel :=
  repeat first
    [ assumption
    | apply tracked_setStatus
    | apply tracked_setTimeout
    | apply tracked_with_timers
    | apply tracked_with_sockets
    | apply tracked_with_now
    | apply tracked_close_current
    | apply tracked_onmessage
    | apply tracked_notifyErrorHandlers
    | apply tracked_emit; [reflexivity|]
    | apply tracked_with_this; [reflexivity|reflexivity|] ].

Lemma tracked_connect w : tracked h k s0 n w -> tracked h k s0 n (connect w).
Proof.
  intros Hw. unfold connect. repeat case_decide; [assumption..|]. cbv zeta.
  destruct (WebSocket_new_throws _); tracked_peel.
Qed.

Lemma tracked_disconnect w : tracked h k s0 n w -> tracked h k s0 n (disconnect w).
Proof.
  intros Hw. unfold disconnect. cbv zeta. apply tracked_setStatus.
  destruct (socket (this (with_this _ w))); [|tracked_peel].
  case_decide; tracked_peel.
Qed.

Lemma tracked_onclose t event_code w :
  tracked h k s0 n w -> tracked h k s0 n (onclose t event_code w).
Proof.
  intros Hw. unfold onclose, attemptReconnect, clearTimeout. cbv zeta.
  repeat case_decide; tracked_peel.
Qed.

Lemma tracked_send m w :
  tracked h k s0 n w -> tracked h k s0 n (after (send m w) w).
Proof.
  intros Hw. unfold send. case_decide; [|assumption].
  destruct (socket (this w)); simpl; tracked_peel.
Qed.

Lemma tracked_step e w w' :
  registers_status h e = false ->
  step e w = Some w' -> tracked h k s0 n w -> tracked h k s0 n w'.
Proof.
  intros Hreg Hstep Hw. destruct e; simpl in Hstep, Hreg.
  - injection Hstep as <-. apply tracked_connect, Hw.
  - injection Hstep as <-. apply tracked_disconnect, Hw.
  - injection Hstep as <-. apply tracked_send, Hw.
  - injection Hstep as <-. apply tracked_send, Hw.
  - injection Hstep as <-. apply tracked_send, Hw.
  - injection Hstep as <-. simpl. tracked_peel.
  - injection Hstep as <-. simpl. tracked_peel.
  - injection Hstep as <-. simpl.
    assert (Hne : handler ≠ h) by (apply bool_decide_eq_false in Hreg; exact Hreg).
    revert Hw. apply tracked_quiet; try reflexivity. simpl.
    rewrite registrations_app. unfold registrations at 2.
    rewrite filter_cons_False by exact Hne. simpl. lia.
  - injection Hstep as <-. unfold unsubscribeMessage. tracked_peel.
  - injection Hstep as <-. unfold unsubscribeError. tracked_peel.
  - injection Hstep as <-.
    assert (Hne : h ≠ handler).
    { apply bool_decide_eq_false in Hreg. intros ->. apply Hreg. reflexivity. }
    revert Hw. apply tracked_quiet; try reflexivity. simpl.
    apply registrations_filter_ne, Hne.
  - apply dispatch_Some in Hstep as (ws & _ & _ & ->).
    unfold onopen, clearTimeout. cbv zeta. tracked_peel.
  - apply dispatch_Some in Hstep as (ws & _ & _ & ->).
    tracked_peel.
  - apply dispatch_Some in Hstep as (ws & _ & _ & ->). tracked_peel.
  - apply dispatch_Some in Hstep as (ws & _ & _ & ->).
    unfold onerror, clearTimeout. cbv zeta. tracked_peel.
  - apply dispatch_Some in Hstep as (ws & _ & _ & ->).
    apply tracked_onclose. tracked_peel.
  - unfold elapse in Hstep. destruct (bool_decide _); [|discriminate].
    injection Hstep as <-. tracked_peel.
  - apply fire_Some in Hstep as (tm & _ & _ & ->).
    assert (Hc : tracked h k s0 n (clearTimeout id w))
      by (unfold clearTimeout; tracked_peel).
    destruct (callback tm); simpl.
    + unfold connectionTimeoutCallback.
      destruct (socket_readyState _); [|assumption].
      case_decide; [|assumption]. cbv zeta. tracked_peel.
    + unfold reconnectCallback. case_decide; [|assumption].
      apply tracked_connect, Hc.
Qed.

Lemma tracked_run es w w' :
  forallb (fun e => negb (registers_status h e)) es = true ->
  run es w = Some w' -> tracked h k s0 n w -> tracked h k s0 n w'.
Proof.
  revert w. induction es as [|e es IH]; intros w Hes; simpl.
  - intros [= <-]. auto.
  - simpl in Hes. apply andb_true_iff in Hes as [He Hes].
    destruct (step e w) as [w1|] eqn:Hstep; [|discriminate].
    intros Hrun Hw. apply (IH w1 Hes Hrun).
    apply (tracked_step e w w1); auto.
    destruct (registers_status h e); [discriminate|reflexivity].
Qed.

End Tracked.

(** C10.  [setStatus] called with the status the service already holds
    changes nothing and notifies nobody.  Consequently, along a run of the
    event loop during which observer [h] is neither subscribed nor
    unsubscribed, the service goes through a list of statuses [changes]
    that, put after the status at the start, has no two equal neighbours
    and ends with the status at the end, and the observer receives each of
    them once per registration, in that order.  Registered once, it
    receives exactly [changes], and so never the same status twice in a
    row; registered several times, it receives every status that many
    times in a row.  On a fresh service whose transport constructor accepts
    the URL, subscribing [h], calling [connect()] and opening the transport
    delivers exactly [connecting] and then [connected] to [h]. *)
Theorem status_observer_sees_changes_only
  (h : StatusChangeHandler) (es : list Event) (w w' : World)
  (Hstay : forallb (fun e => negb (registers_status h e)) es = true)
  (Hrun : run es w = Some w') :
  setStatus (status (this w)) w = w
  ∧ (∃ changes,
       delivered_to h (since w w')
       = per_registration (registrations h (statusChangeHandlers (this w))) changes
       ∧ alternating (status (this w) :: changes)
       ∧ last (status (this w) :: changes) = Some (status (this w'))
       ∧ (registrations h (statusChangeHandlers (this w)) = 1%nat ->
          delivered_to h (since w w') = changes
          ∧ alternating (delivered_to h (since w w'))))
  ∧ (∀ apiBaseUrl w2,
       WebSocket_new_throws (getWebSocketUrl apiBaseUrl) = None ->
       run [CallOnStatusChange h; CallConnect; TransportOpen 0%nat]
         (initial apiBaseUrl) = Some w2 ->
       delivered_to h (log w2) = [connecting; connected]).
Proof.
  split; [apply setStatus_same|]. split.
  - set (k := registrations h (statusChangeHandlers (this w))).
    assert (H0 : tracked h k (status (this w)) (length (log w)) w).
    { unfold tracked. rewrite drop_all. split; [reflexivity|]. split; [lia|].
      exists []. simpl. auto. }
    destruct (tracked_run h _ _ _ es w w' Hstay Hrun H0)
      as (_ & _ & changes & Hd & Halt & Hlast).
    exists changes. split; [exact Hd|]. split; [exact Halt|]. split; [exact Hlast|].
    intros Hone.
    assert (Hsame : delivered_to h (since w w') = changes).
    { unfold since. rewrite Hd. fold k. rewrite Hone.
      unfold per_registration. clear. induction changes as [|c cs IH];
        [reflexivity|]. simpl. f_equal. exact IH. }
    split; [exact Hsame|]. rewrite Hsame.
    destruct changes as [|c cs]; [exact I|]. apply Halt.
  - intros apiBaseUrl w2 Hctor. simpl. unfold connect. simpl.
    rewrite Hctor. simpl. intros [= <-]. simpl.
    rewrite !decide_True by reflexivity. reflexivity.
Qed.

(** ** Disconnecting: C8 *)

(** What [disconnect()] does on its own: the counter is at the bound, the
    transport reference is released, the status is [disconnected], the
    current transport is closed if it was open or connecting, and the
    pending timers are left as they are. *)
Lemma disconnect_effect w :
  reconnectAttempts (this (disconnect w)) = maxReconnectAttempts
  ∧ socket (this (disconnect w)) = None
  ∧ status (this (disconnect w)) = disconnected
  ∧ timers (disconnect w) = timers w
  ∧ sockets (disconnect w)
    = match socket (this w) with
      | Some i =>
          if decide (pending_or_open w)
          then alter WebSocket_close i (sockets w) else sockets w
      | None => sockets w
      end.
Proof.
  unfold disconnect, pending_or_open. cbv zeta.
  set (w1 := with_this (set_reconnectAttempts maxReconnectAttempts) w).
  change (socket (this w1)) with (socket (this w)).
  change (socket_readyState w1) with (socket_readyState w).
  destruct (socket (this w)) as [i|] eqn:Hi.
  - set (w2 := with_this (set_socket None) _).
    destruct (setStatus_frame disconnected w2)
      as (-> & -> & _ & _ & -> & -> & _ & ->).
    subst w2. unfold close_current. simpl. rewrite Hi.
    case_decide; simpl; auto.
  - destruct (setStatus_frame disconnected w1)
      as (-> & -> & _ & _ & -> & -> & _ & ->). auto.
Qed.

Lemma disconnect_idempotent w : disconnect (disconnect w) = disconnect w.
Proof.
  destruct (disconnect_effect w) as (Ha & Hs & Hst & _).
  destruct (disconnect w) as [[sk u att st mh eh sh] socks tms nid nw lg].
  simpl in Ha, Hs, Hst. subst. reflexivity.
Qed.

End Properties.

(** * Scenarios on the sample platform *)

Section Scenarios.
#[local] Existing Instance sample_platform.
#[local] Existing Instance sample_observers.

(** C1, counterexample.  A transport is opened and then closed by the peer
    with the normal code 1000 while the retry counter is 0: a reconnect
    timer is armed and the counter becomes 1, not the bound. *)
Lemma normal_closure_is_retried :
  let w := sample_run [CallConnect; TransportOpen 0%nat] in
  let w' := sample_run [CallConnect; TransportOpen 0%nat; TransportClose 0%nat 1000] in
  step (TransportClose 0%nat 1000) w = Some w'
  ∧ reconnectAttempts (this w) = 0
  ∧ timers w = []
  ∧ timers w' = [{| timerId := 1; delay := 1000; due := 1000;
                    callback := ReconnectCallback |}]
  ∧ reconnectAttempts (this w') = 1
  ∧ reconnectAttempts (this w') ≠ maxReconnectAttempts.
Proof. vm_compute. repeat split; discriminate. Qed.

Lemma close_event_reconnect_policy_witness :
  let w := sample_run [CallConnect; TransportOpen 0%nat] in
  let w' := sample_run [CallConnect; TransportOpen 0%nat; TransportClose 0%nat 1006] in
  step (TransportClose 0%nat 1006) w = Some w'
  ∧ timers w' = timers (clearTimeout 0 w)
  ∧ reconnectAttempts (this w') = maxReconnectAttempts.
Proof.
  intros w w'. split; [vm_compute; reflexivity|].
  destruct (close_event_reconnect_policy 0%nat 1006 w w' ltac:(vm_compute; reflexivity))
    as (ws & Hi & _ & _ & Hstop).
  vm_compute in Hi. injection Hi as <-. apply Hstop. intros (Hc & _). apply Hc.
  reflexivity.
Defined.

(** C2, counterexample.  The same handler is subscribed twice to status
    changes; the unsubscribe function of the first subscription is called
    once.  Both registrations are gone and the handler receives nothing
    from the [connect()] that follows. *)
Lemma one_unsubscribe_removes_both_registrations :
  let s1 := onStatusChange 7%nat (initial sample_url) in
  let s2 := onStatusChange 7%nat (fst s1) in
  let w := snd s1 (fst s2) in
  statusChangeHandlers (this (fst s2)) = [7%nat; 7%nat]
  ∧ statusChangeHandlers (this w) = []
  ∧ status (this (connect w)) = connecting
  ∧ log (connect w) = [].
Proof. vm_compute. repeat split. Qed.

Lemma unsubscribe_removes_every_registration_witness :
  let w := fst (onStatusChange 8%nat (fst (onStatusChange 7%nat (initial sample_url)))) in
  let w' := snd (onStatusChange 7%nat (initial sample_url)) w in
  delivered_to 7%nat (since w' (setStatus connecting w')) = []
  ∧ delivered_to 8%nat (since w' (setStatus connecting w')) = [connecting].
Proof.
  intros w w'.
  destruct (unsubscribe_removes_every_registration 7%nat (initial sample_url))
    as (_ & _ & Hrecv).
  destruct (Hrecv w connecting) as [Hnone Hothers].
  split; [exact Hnone|]. subst w'.
  rewrite (Hothers 8%nat) by discriminate. vm_compute. reflexivity.
Defined.

(** C3, witness: a first retryable closure arms a reconnect after 1000 ms;
    the reconnect fires and the new transport is closed in turn, which arms
    the second reconnect after 2000 ms. *)
Lemma retryable_close_schedules_one_reconnect_witness :
  let w := sample_run [CallConnect; TransportOpen 0%nat] in
  let w' := sample_run [CallConnect; TransportOpen 0%nat; TransportClose 0%nat 1001] in
  let v := sample_run [CallConnect; TransportOpen 0%nat; TransportClose 0%nat 1001;
                       Elapse 1000; TimerFires 1] in
  let v' := sample_run [CallConnect; TransportOpen 0%nat; TransportClose 0%nat 1001;
                        Elapse 1000; TimerFires 1; TransportClose 1%nat 1001] in
  (step (TransportClose 0%nat 1001) w = Some w'
   ∧ ∃ ws tm, sockets w !! 0%nat = Some ws
       ∧ timers w' = (timers (clearTimeout (connectionTimeout ws) w) ++ [tm])%list
       ∧ callback tm = ReconnectCallback
       ∧ reconnectAttempts (this w') = reconnectAttempts (this w) + 1
       ∧ delay tm = reconnectDelay * reconnectAttempts (this w')
       ∧ due tm = now w + delay tm)
  ∧ (step (TransportClose 1%nat 1001) v = Some v'
     ∧ timers v' = [{| timerId := 3; delay := 2000; due := 3000;
                       callback := ReconnectCallback |}]
     ∧ ∃ ws tm, sockets v !! 1%nat = Some ws
         ∧ timers v' = (timers (clearTimeout (connectionTimeout ws) v) ++ [tm])%list
         ∧ callback tm = ReconnectCallback
         ∧ reconnectAttempts (this v') = reconnectAttempts (this v) + 1
         ∧ delay tm = reconnectDelay * reconnectAttempts (this v')
         ∧ due tm = now v + delay tm).
Proof.
  intros w w' v v'. split.
  - split; [vm_compute; reflexivity|].
    apply (retryable_close_schedules_one_reconnect 0%nat 1001 w w').
    + vm_compute. reflexivity.
    + split; discriminate.
    + vm_compute. reflexivity.
  - split; [vm_compute; reflexivity|]. split; [vm_compute; reflexivity|].
    apply (retryable_close_schedules_one_reconnect 1%nat 1001 v v').
    + vm_compute. reflexivity.
    + split; discriminate.
    + vm_compute. reflexivity.
Defined.

(** C4, failing run.  The first transport opens and the peer starts to close
    it; the application calls [connect()], which creates a second transport;
    4500 ms later the close event of the first transport arrives with code
    1001 and arms a reconnect for 5500 ms.  At 5000 ms the connection
    timeout finds the second transport still connecting, closes it and
    forces the counter to the bound.  At 5500 ms the reconnect timer fires
    all the same and [connect()] creates a third transport. *)
Theorem reconnect_fires_after_connection_timeout :
  let w := sample_run [CallConnect; TransportOpen 0%nat; TransportClosing 0%nat;
                       CallConnect; Elapse 4500; TransportClose 0%nat 1001;
                       Elapse 500] in
  let w1 := sample_run [CallConnect; TransportOpen 0%nat; TransportClosing 0%nat;
                        CallConnect; Elapse 4500; TransportClose 0%nat 1001;
                        Elapse 500; TimerFires 1] in
  let w2 := sample_run [CallConnect; TransportOpen 0%nat; TransportClosing 0%nat;
                        CallConnect; Elapse 4500; TransportClose 0%nat 1001;
                        Elapse 500; TimerFires 1; Elapse 500; TimerFires 2] in
  run [CallConnect; TransportOpen 0%nat; TransportClosing 0%nat;
       CallConnect; Elapse 4500; TransportClose 0%nat 1001; Elapse 500]
    (initial sample_url) = Some w
  ∧ reachable w
  ∧ (socket (this w) = Some 1%nat ∧ socket_readyState w = Some CONNECTING
     ∧ now w = 5000
     ∧ timers w = [{| timerId := 1; delay := 5000; due := 5000;
                      callback := ConnectionTimeoutCallback |};
                   {| timerId := 2; delay := 1000; due := 5500;
                      callback := ReconnectCallback |}])
  ∧ step (TimerFires 1) w = Some w1
  ∧ (status (this w1) = disconnected
     ∧ reconnectAttempts (this w1) = maxReconnectAttempts
     ∧ socket_readyState w1 = Some CLOSING
     ∧ length (sockets w1) = 2%nat)
  ∧ run [Elapse 500; TimerFires 2] w1 = Some w2
  ∧ (length (sockets w2) = 3%nat
     ∧ status (this w2) = connecting
     ∧ socket (this w2) = Some 2%nat
     ∧ socket_readyState w2 = Some CONNECTING).
Proof.
  intros w w1 w2. split; [vm_compute; reflexivity|].
  split; [|vm_compute; repeat split].
  apply (reachable_run
           [CallConnect; TransportOpen 0%nat; TransportClosing 0%nat;
            CallConnect; Elapse 4500; TransportClose 0%nat 1001; Elapse 500]
           (initial sample_url)).
  - apply reachable_initial.
  - vm_compute. reflexivity.
Qed.

(** The end-to-end scenario of the connection timeout: a fresh service
    connects, five seconds pass without an open event, the timeout fires;
    the transport then fails with an error and a close event of code 1006
    and an hour passes.  The status is [disconnected], the counter is at the
    bound and there is still one transport only. *)
Lemma connection_timeout_end_to_end :
  let w := sample_run [CallConnect; Elapse 5000] in
  let w1 := sample_run [CallConnect; Elapse 5000; TimerFires 0] in
  let es := [TransportError 0%nat; TransportClose 0%nat 1006; Elapse 3600000] in
  let w2 := sample_run ([CallConnect; Elapse 5000; TimerFires 0] ++ es) in
  step (TimerFires 0) w = Some w1
  ∧ run es w1 = Some w2
  ∧ status (this w1) = disconnected
  ∧ socket_readyState w1 = Some CLOSING
  ∧ status (this w2) = disconnected
  ∧ reconnectAttempts (this w2) = maxReconnectAttempts
  ∧ length (sockets w2) = 1%nat
  ∧ no_reconnect_pending w2.
Proof.
  intros w w1 es w2.
  assert (Hreach : reachable w).
  { apply (reachable_run [CallConnect; Elapse 5000] (initial sample_url)).
    - apply reachable_initial.
    - vm_compute. reflexivity. }
  assert (Hfire : step (TimerFires 0) w = Some w1) by (vm_compute; reflexivity).
  assert (Hrun : run es w1 = Some w2) by (vm_compute; reflexivity).
  assert (Hnorec : no_reconnect_pending w).
  { intros tm. vm_compute. intros Hin Hcb.
    apply list_elem_of_singleton in Hin. subst tm. discriminate. }
  assert (Htimer : find (fun t => bool_decide (timerId t = 0%nat)) (timers w)
                   = Some {| timerId := 0; delay := 5000; due := 5000;
                             callback := ConnectionTimeoutCallback |})
    by (vm_compute; reflexivity).
  assert (Hcur : socket_readyState w = Some CONNECTING) by (vm_compute; reflexivity).
  assert (Hnotopen : CONNECTING ≠ OPEN) by discriminate.
  destruct (connection_timeout_is_terminal 0%nat _ CONNECTING w w1
              Hreach Htimer eq_refl Hcur Hnotopen Hnorec Hfire)
    as ((Hst & _ & Hrs & Hlen) & Hlater).
  destruct (Hlater es w2 eq_refl Hrun) as (Hlen2 & Hnr & Ha & _).
  split; [exact Hfire|]. split; [exact Hrun|]. split; [exact Hst|].
  split; [exact Hrs|]. split; [vm_compute; reflexivity|].
  split; [exact Ha|]. split; [|exact Hnr].
  rewrite Hlen2, Hlen. vm_compute. reflexivity.
Defined.

(** C5, counterexample.  A first transport is opened and dropped by
    [disconnect()]; a second one is created and opens; then the close event
    of the first transport arrives and sets the status to [disconnected].
    The status is not [connected], yet [send] writes the frame to the second
    transport, which is open. *)
Lemma send_transmits_while_status_disconnected :
  let w := sample_run [CallConnect; TransportOpen 0%nat; CallDisconnect;
                       CallConnect; TransportOpen 1%nat; TransportClose 0%nat 1005] in
  run [CallConnect; TransportOpen 0%nat; CallDisconnect;
       CallConnect; TransportOpen 1%nat; TransportClose 0%nat 1005]
    (initial sample_url) = Some w
  ∧ reachable w
  ∧ status (this w) = disconnected
  ∧ getStatus w ≠ connected
  ∧ isConnected w = true
  ∧ ∃ w', send sample_message w = Returns w'
          ∧ sent <$> sockets w' !! 1%nat = Some [JSON_stringify sample_message].
Proof.
  intros w. split; [vm_compute; reflexivity|].
  split; [|split; [vm_compute; reflexivity
                  |split; [vm_compute; discriminate
                          |split; [vm_compute; reflexivity|]]]].
  - apply (reachable_run
             [CallConnect; TransportOpen 0%nat; CallDisconnect;
              CallConnect; TransportOpen 1%nat; TransportClose 0%nat 1005]
             (initial sample_url)).
    + apply reachable_initial.
    + vm_compute. reflexivity.
  - eexists. split; vm_compute; reflexivity.
Qed.

Lemma send_transmits_iff_transport_open_witness :
  let w := sample_run [CallConnect; TransportOpen 0%nat] in
  isConnected w = true
  ∧ (∃ w', send sample_message w = Returns w')
  ∧ isConnected (initial sample_url) = false
  ∧ send sample_message (initial sample_url)
    = Throws (Error "WebSocket is not connected").
Proof.
  intros w.
  destruct (send_transmits_iff_transport_open sample_message w) as (Hiff & _).
  destruct (send_transmits_iff_transport_open sample_message (initial sample_url))
    as (_ & _ & Hthrow & _).
  split; [vm_compute; reflexivity|].
  split; [apply Hiff; vm_compute; reflexivity|].
  split; [reflexivity|]. apply Hthrow. reflexivity.
Defined.

(** C6, witness: a second [connect()] on a pending service. *)
Lemma connect_idempotent_while_pending_or_open_witness :
  let w := sample_run [CallConnect] in
  pending_or_open w
  ∧ connect w = w
  ∧ length (sockets (connect (connect (initial sample_url)))) = 1%nat.
Proof.
  intros w.
  assert (Hpo : pending_or_open w) by (right; vm_compute; reflexivity).
  destruct (connect_idempotent_while_pending_or_open w Hpo) as (Hnoop & _ & Hone).
  split; [exact Hpo|]. split; [exact Hnoop|]. apply Hone. reflexivity.
Defined.

(** C7, witness: the transport created by the first [connect()] opens. *)
Lemma open_event_connects_witness :
  let w := sample_run [CallConnect] in
  let w' := sample_run [CallConnect; TransportOpen 0%nat] in
  reachable w
  ∧ step (TransportOpen 0%nat) w = Some w'
  ∧ timers w' = []
  ∧ getStatus w' = connected
  ∧ reconnectAttempts (this w') = 0
  ∧ isConnected w' = true.
Proof.
  intros w w'.
  assert (Hreach : reachable w).
  { apply (reachable_step CallConnect (initial sample_url)).
    - apply reachable_initial.
    - vm_compute. reflexivity. }
  assert (Hev : step (TransportOpen 0%nat) w = Some w') by (vm_compute; reflexivity).
  destruct (open_event_connects 0%nat w w' Hreach Hev)
    as ((ws & Hi & Ht & _) & _ & Ha & Hst & Hconn).
  split; [exact Hreach|]. split; [exact Hev|].
  split; [rewrite Ht; vm_compute in Hi; injection Hi as <-; vm_compute; reflexivity|].
  auto.
Defined.

(** C8, failing run.  The transport opens and is closed by the peer with
    code 1001, which arms a reconnect for 1000 ms; the application calls
    [disconnect()] right away.  The counter is at the bound, the transport
    reference is released and the status is [disconnected], but the timer is
    still pending: when it fires 1000 ms later it finds the status
    [disconnected] and runs [connect()], which creates a second transport
    and sets the status to [connecting]. *)
Theorem reconnect_fires_after_disconnect :
  let w := sample_run [CallConnect; TransportOpen 0%nat; TransportClose 0%nat 1001;
                       CallDisconnect] in
  let w' := sample_run [CallConnect; TransportOpen 0%nat; TransportClose 0%nat 1001;
                        CallDisconnect; Elapse 1000; TimerFires 1] in
  run [CallConnect; TransportOpen 0%nat; TransportClose 0%nat 1001; CallDisconnect]
    (initial sample_url) = Some w
  ∧ (reconnectAttempts (this w) = maxReconnectAttempts
     ∧ socket (this w) = None
     ∧ status (this w) = disconnected
     ∧ length (sockets w) = 1%nat
     ∧ timers w = [{| timerId := 1; delay := 1000; due := 1000;
                      callback := ReconnectCallback |}])
  ∧ run [Elapse 1000; TimerFires 1] w = Some w'
  ∧ (length (sockets w') = 2%nat
     ∧ status (this w') = connecting
     ∧ socket (this w') = Some 1%nat
     ∧ socket_readyState w' = Some CONNECTING).
Proof. vm_compute. repeat split. Qed.

(** C9, counterexample.  Two message observers are registered and the
    first one throws.  The frame parses, yet the second observer is never
    handed the message, and the exception of the first is logged as a parse
    failure. *)
Lemma throwing_observer_stops_delivery :
  let w := sample_run [CallOnMessage 1%nat; CallOnMessage 2%nat;
                       CallConnect; TransportOpen 0%nat] in
  let w' := default w (@step sample_platform throwing_observers
                         (TransportMessage 0%nat sample_frame) w) in
  JSON_parse sample_frame = inr sample_value
  ∧ messageHandlers (this w) = [1%nat; 2%nat]
  ∧ @step sample_platform throwing_observers (TransportMessage 0%nat sample_frame) w
    = Some w'
  ∧ log w' = (log w ++ [MessageDelivered 1%nat sample_value;
                        ConsoleError "Failed to parse WebSocket message:"
                          (ThrownError (Error "TypeError"))])%list
  ∧ MessageDelivered 2%nat sample_value ∉ log w'.
Proof.
  intros w w'.
  split; [vm_compute; reflexivity|]. split; [vm_compute; reflexivity|].
  split; [vm_compute; reflexivity|]. split; [vm_compute; reflexivity|].
  assert (Hlog : log w' = [MessageDelivered 1%nat sample_value;
                           ConsoleError "Failed to parse WebSocket message:"
                             (ThrownError (Error "TypeError"))])
    by (vm_compute; reflexivity).
  rewrite Hlog. intros Hin.
  apply elem_of_cons in Hin as [Hin|Hin]; [discriminate|].
  apply list_elem_of_singleton in Hin. discriminate.
Qed.

(** C9, witness: a malformed frame, a well-formed one and the text [null],
    with two message observers that return and one error observer
    registered on an open transport. *)
Lemma inbound_message_delivery_witness :
  let w := sample_run [CallOnMessage 1%nat; CallOnMessage 2%nat; CallOnError 3%nat;
                       CallConnect; TransportOpen 0%nat] in
  (∃ w', step (TransportMessage 0%nat "not json") w = Some w'
     ∧ this w' = this w
     ∧ log w' = (log w ++ [ConsoleError "Failed to parse WebSocket message:"
                             (ThrownError (Error "SyntaxError"))])%list)
  ∧ (∃ w', step (TransportMessage 0%nat sample_frame) w = Some w'
       ∧ this w' = this w
       ∧ log w' = (log w ++ [MessageDelivered 1%nat sample_value;
                             MessageDelivered 2%nat sample_value])%list)
  ∧ (∃ w', step (TransportMessage 0%nat "null") w = Some w'
       ∧ log w' = (log w ++ [MessageDelivered 1%nat JNull;
                             MessageDelivered 2%nat JNull])%list).
Proof.
  intros w.
  assert (Hsock : sockets w !! 0%nat
                  = Some {| readyState := OPEN; sent := []; closeDispatched := false;
                            connectionTimeout := 0 |}) by (vm_compute; reflexivity).
  assert (Hhandlers : messageHandlers (this w) = [1%nat; 2%nat])
    by (vm_compute; reflexivity).
  assert (Hbad : JSON_parse "not json" = inl (Error "SyntaxError"))
    by (vm_compute; reflexivity).
  assert (Hgood : JSON_parse sample_frame = inr sample_value)
    by (vm_compute; reflexivity).
  assert (Hnull : JSON_parse "null" = inr JNull) by (vm_compute; reflexivity).
  split; [|split].
  - destruct (inbound_message_delivery 0%nat _ "not json" w Hsock eq_refl)
      as (w' & Hstep & Hthis & _ & _ & _ & _ & Hlog).
    rewrite Hbad in Hlog.
    exists w'. split; [exact Hstep|]. split; [exact Hthis|]. exact Hlog.
  - destruct (inbound_message_delivery 0%nat _ sample_frame w Hsock eq_refl)
      as (w' & Hstep & Hthis & _ & _ & _ & _ & Hlog).
    rewrite Hgood in Hlog.
    exists w'. split; [exact Hstep|]. split; [exact Hthis|].
    destruct Hlog as [[_ Hlog]|(before & h & after & thrown & _ & _ & Hthrows & _)];
      [|discriminate Hthrows].
    rewrite Hhandlers in Hlog. exact Hlog.
  - destruct (inbound_message_delivery 0%nat _ "null" w Hsock eq_refl)
      as (w' & Hstep & _ & _ & _ & _ & _ & Hlog).
    rewrite Hnull in Hlog.
    exists w'. split; [exact Hstep|].
    destruct Hlog as [[_ Hlog]|(before & h & after & thrown & _ & _ & Hthrows & _)];
      [|discriminate Hthrows].
    rewrite Hhandlers in Hlog. exact Hlog.
Defined.

(** C10, counterexample.  An observer subscribed twice follows a connection
    that opens: it is told each status twice in a row.  An observer that
    unsubscribes after the opening and subscribes again before the next
    one is told [connected] twice in a row. *)
Lemma status_observer_hears_a_status_twice_in_a_row :
  let w := sample_run [CallOnStatusChange 1%nat; CallOnStatusChange 1%nat;
                       CallConnect; TransportOpen 0%nat] in
  let w2 := sample_run [CallOnStatusChange 1%nat; CallConnect; TransportOpen 0%nat;
                        CallUnsubscribeStatusChange 1%nat;
                        TransportClose 0%nat 1000; Elapse 1000; TimerFires 1;
                        CallOnStatusChange 1%nat; TransportOpen 1%nat] in
  delivered_to 1%nat (log w) = [connecting; connecting; connected; connected]
  ∧ delivered_to 1%nat (log w2) = [connecting; connected; connected]
  ∧ status (this w2) = connected.
Proof. vm_compute. repeat split. Qed.

(** C10, witness: an observer subscribed once follows a connection that
    opens, is closed by the peer with code 1001 and is reconnected by the
    timer. *)
Lemma status_observer_sees_changes_only_witness :
  let w := sample_run [CallOnStatusChange 1%nat] in
  let es := [CallConnect; TransportOpen 0%nat; TransportClose 0%nat 1001;
             Elapse 1000; TimerFires 1; CallConnect; TransportOpen 1%nat] in
  let w' := sample_run (CallOnStatusChange 1%nat :: es) in
  run es w = Some w'
  ∧ delivered_to 1%nat (since w w')
    = [connecting; connected; disconnected; connecting; connected]
  ∧ ∃ changes,
      delivered_to 1%nat (since w w') = changes
      ∧ alternating (status (this w) :: changes)
      ∧ last (status (this w) :: changes) = Some (status (this w')).
Proof.
  intros w es w'.
  assert (Hrun : run es w = Some w') by (vm_compute; reflexivity).
  destruct (status_observer_sees_changes_only 1%nat es w w' eq_refl Hrun)
    as (_ & (changes & _ & Halt & Hlast & Hone) & _).
  split; [exact Hrun|]. split; [vm_compute; reflexivity|].
  assert (Hreg : registrations 1%nat (statusChangeHandlers (this w)) = 1%nat)
    by (vm_compute; reflexivity).
  destruct (Hone Hreg) as [Hsame _].
  exists changes. split; [exact Hsame|]. split; assumption.
Defined.

End Scenarios.

(** * Further properties of the service *)

Section FurtherProperties.
Context `{Platform} `{observers : Observers}.

Ltac onmessage_emits :=
  match goal with
  | |- context [onmessage ?d ?x] => destruct (onmessage_quiet d x) as (? & -> & _)
  end.

(** ** One live transport *)

(** X1.  In every world the event loop can reach, a transport that is
    connecting or open is the one [this.socket] refers to; so at most one
    transport is connecting or open at any time. *)
Theorem at_most_one_live_transport (w : World) (i j : nat)
  (Hreach : reachable w) (Hi : live w i) (Hj : live w j) :
  i = j ∧ socket (this w) = Some i.
Proof.
  pose proof (reachable_stale_closed w Hreach) as Hstale.
  destruct Hi as (wsi & Hli & Hopi). destruct Hj as (wsj & Hlj & Hopj).
  pose proof (Hstale i wsi Hli Hopi) as Hci.
  pose proof (Hstale j wsj Hlj Hopj) as Hcj.
  split; [|exact Hci]. rewrite Hci in Hcj. injection Hcj as ->. reflexivity.
Qed.

(** ** Timers and an open transport *)

(** X2.  While the current transport is open, a timer that fires does
    nothing but leave the list of pending timers, whether it is a
    connection timeout (armed for this transport or for an earlier one) or
    a reconnect: the transport, the status, the retry counter and the log
    stay as they are. *)
Theorem open_transport_ignores_timers (id : nat) (w w' : World)
  (Hopen : socket_readyState w = Some OPEN)
  (Hfire : step (TimerFires id) w = Some w') :
  w' = clearTimeout id w.
Proof.
  simpl in Hfire. apply fire_Some in Hfire as (tm & _ & _ & ->).
  assert (Hopen' : socket_readyState (clearTimeout id w) = Some OPEN) by exact Hopen.
  destruct (callback tm); simpl.
  - unfold connectionTimeoutCallback. rewrite Hopen'.
    rewrite decide_False by (intros Hc; apply Hc; reflexivity). reflexivity.
  - unfold reconnectCallback. case_decide; [|reflexivity].
    apply connect_noop. left. exact Hopen'.
Qed.

(** ** Subscribing and unsubscribing *)

Lemma filter_ne_id (h : Handler) (l : list Handler) :
  h ∉ l -> filter (fun x => x ≠ h) l = l.
Proof.
  induction l as [|x l IH]; [reflexivity|].
  intros Hnot. apply not_elem_of_cons in Hnot as [Hne Hnot].
  rewrite filter_cons_True by (intros ->; apply Hne; reflexivity).
  f_equal. apply IH, Hnot.
Qed.

Lemma filter_ne_snoc (h : Handler) (l : list Handler) :
  filter (fun x => x ≠ h) (l ++ [h])%list = filter (fun x => x ≠ h) l.
Proof.
  rewrite filter_app.
  rewrite (filter_cons_False _ h []) by (intros Hc; apply Hc; reflexivity).
  apply app_nil_r.
Qed.

Lemma filter_ne_idemp (h : Handler) (l : list Handler) :
  filter (fun x => x ≠ h) (filter (fun x => x ≠ h) l) = filter (fun x => x ≠ h) l.
Proof.
  apply filter_ne_id. intros Hin%list_elem_of_filter. destruct Hin as [Hne _].
  apply Hne. reflexivity.
Qed.

(** X3.  Subscribing a handler and calling the returned function right away
    leaves the list with every earlier registration of that handler
    removed; so for a handler that was not registered the service is
    exactly as before, for each of the three kinds of observers.  Calling
    the returned function a second time changes nothing. *)
Theorem subscribe_unsubscribe_round_trip (h : Handler) (w : World) :
  (messageHandlers (this (snd (onMessage h w) (fst (onMessage h w))))
     = filter (fun x => x ≠ h) (messageHandlers (this w))
   ∧ errorHandlers (this (snd (onError h w) (fst (onError h w))))
     = filter (fun x => x ≠ h) (errorHandlers (this w))
   ∧ statusChangeHandlers (this (snd (onStatusChange h w) (fst (onStatusChange h w))))
     = filter (fun x => x ≠ h) (statusChangeHandlers (this w)))
  ∧ (h ∉ messageHandlers (this w) ->
       snd (onMessage h w) (fst (onMessage h w)) = w)
  ∧ (h ∉ errorHandlers (this w) ->
       snd (onError h w) (fst (onError h w)) = w)
  ∧ (h ∉ statusChangeHandlers (this w) ->
       snd (onStatusChange h w) (fst (onStatusChange h w)) = w)
  ∧ (∀ w1, snd (onMessage h w) (snd (onMessage h w) w1) = snd (onMessage h w) w1
           ∧ snd (onError h w) (snd (onError h w) w1) = snd (onError h w) w1
           ∧ snd (onStatusChange h w) (snd (onStatusChange h w) w1)
             = snd (onStatusChange h w) w1).
Proof.
  destruct w as [[sk u att st mh eh sh] socks tms nid nw lg].
  split; [|split; [|split; [|split]]].
  - simpl. rewrite !filter_ne_snoc. auto.
  - simpl. intros Hnot. unfold unsubscribeMessage, with_this, set_messageHandlers.
    simpl. rewrite filter_ne_snoc, filter_ne_id by exact Hnot. reflexivity.
  - simpl. intros Hnot. unfold unsubscribeError, with_this, set_errorHandlers.
    simpl. rewrite filter_ne_snoc, filter_ne_id by exact Hnot. reflexivity.
  - simpl. intros Hnot.
    unfold unsubscribeStatusChange, with_this, set_statusChangeHandlers.
    simpl. rewrite filter_ne_snoc, filter_ne_id by exact Hnot. reflexivity.
  - intros [[sk1 u1 att1 st1 mh1 eh1 sh1] socks1 tms1 nid1 nw1 lg1]. simpl.
    unfold unsubscribeMessage, unsubscribeError, unsubscribeStatusChange,
      with_this, set_messageHandlers, set_errorHandlers, set_statusChangeHandlers.
    simpl. rewrite !filter_ne_idemp. auto.
Qed.

(** ** Disconnecting *)

(** X4.  In every reachable world [disconnect()] leaves the retry counter at
    its bound, no current transport, the status [disconnected] and
    [isConnected()] false; no transport is connecting or open afterwards;
    the pending timers are exactly those pending before, so neither a
    connection timeout nor a reconnect is cancelled; and a second
    [disconnect()] changes nothing. *)
Theorem disconnect_releases_the_transport (w : World) (Hreach : reachable w) :
  reconnectAttempts (this (disconnect w)) = maxReconnectAttempts
  ∧ socket (this (disconnect w)) = None
  ∧ getStatus (disconnect w) = disconnected
  ∧ isConnected (disconnect w) = false
  ∧ (∀ j, ¬ live (disconnect w) j)
  ∧ timers (disconnect w) = timers w
  ∧ length (sockets (disconnect w)) = length (sockets w)
  ∧ disconnect (disconnect w) = disconnect w.
Proof.
  destruct (disconnect_effect w) as (Ha & Hs & Hst & Ht & Hsk).
  split; [exact Ha|]. split; [exact Hs|]. split; [exact Hst|].
  split; [|split; [|split; [exact Ht|split; [|apply disconnect_idempotent]]]].
  - unfold isConnected, socket_readyState. rewrite Hs. reflexivity.
  - intros j (ws & Hj & Hlive).
    assert (Hreach' : reachable (disconnect w))
      by (apply (reachable_step CallDisconnect w); auto).
    pose proof (reachable_stale_closed _ Hreach' j ws Hj Hlive) as Hc.
    rewrite Hs in Hc. discriminate.
  - rewrite Hsk. destruct (socket (this w)); [|reflexivity].
    case_decide; [apply length_alter|reflexivity].
Qed.

(** ** Closures that end the retrying *)

(** X5.  Take a reachable world with no reconnect timer pending and a
    closure event on the current transport that is not retried: its code is
    1006 or 1002, or the retry counter is at its bound.  Then the status is
    [disconnected], the counter is at the bound, and from then on, whatever
    transport events arrive and however much time passes, no transport is
    created, no reconnect timer is pending and the status never becomes
    [connecting] or [connected]: only a call of [connect()] starts a new
    attempt. *)
Theorem unretried_close_is_terminal (i : nat) (event_code : Z) (w w1 : World)
  (Hreach : reachable w)
  (Hcur : socket (this w) = Some i)
  (Hstop : terminal_code event_code
           ∨ maxReconnectAttempts <= reconnectAttempts (this w))
  (Hnorec : no_reconnect_pending w)
  (Hev : step (TransportClose i event_code) w = Some w1) :
  (status (this w1) = disconnected
   ∧ reconnectAttempts (this w1) = maxReconnectAttempts
   ∧ socket_readyState w1 = Some CLOSED)
  ∧ ∀ es w2,
      forallb (fun e => negb (is_call e)) es = true ->
      run es w1 = Some w2 ->
      length (sockets w2) = length (sockets w1)
      ∧ no_reconnect_pending w2
      ∧ reconnectAttempts (this w2) = maxReconnectAttempts
      ∧ status (this w2) ≠ connecting ∧ status (this w2) ≠ connected.
Proof.
  destruct (close_event_effect i event_code w w1 Hev) as (ws & Hi & Ht & Ha).
  assert (Hno : ¬ (¬ terminal_code event_code
                   ∧ reconnectAttempts (this w) < maxReconnectAttempts)).
  { intros [Hterm Hlt]. destruct Hstop as [Hc|Hc]; [contradiction|lia]. }
  rewrite decide_False in Ht by exact Hno.
  rewrite decide_False in Ha by exact Hno.
  rewrite app_nil_r in Ht.
  apply step_TransportClose in Hev as (ws' & Hi' & _ & ->).
  rewrite Hi in Hi'. injection Hi' as <-.
  set (w0 := with_sockets
               (alter (fun ws => set_closeDispatched (set_readyState CLOSED ws)) i) w)
    in *.
  destruct (handlers_keep_transports (connectionTimeout ws) event_code "" w0)
    as (_ & _ & _ & (Hs & Hsock)).
  pose proof (onclose_status (connectionTimeout ws) event_code w0) as Hst.
  assert (Hgu : given_up (onclose (connectionTimeout ws) event_code w0)).
  { split; [exact Ha|]. split; [|split; [|left; exact Hst]].
    - intros tm. rewrite Ht. apply no_reconnect_pending_clearTimeout, Hnorec.
    - rewrite Hs. simpl. intros j wsj Hj.
      pose proof (reachable_stale_closed w Hreach) as Hstale.
      destruct (decide (i = j)) as [<-|Hij].
      + rewrite list_lookup_alter_eq, Hi in Hj. simpl in Hj.
        injection Hj as <-. right. reflexivity.
      + rewrite list_lookup_alter_ne in Hj by exact Hij.
        destruct (readyState wsj) eqn:Hr; auto; exfalso; apply Hij.
        * assert (Hc : socket (this w) = Some j) by (apply (Hstale j wsj Hj); auto).
          rewrite Hcur in Hc. injection Hc as ->. reflexivity.
        * assert (Hc : socket (this w) = Some j) by (apply (Hstale j wsj Hj); auto).
          rewrite Hcur in Hc. injection Hc as ->. reflexivity. }
  split.
  - split; [exact Hst|]. split; [exact Ha|].
    unfold socket_readyState. rewrite Hsock, Hs. simpl. rewrite Hcur.
    rewrite list_lookup_alter_eq, Hi. reflexivity.
  - intros es w2 Hes Hrun.
    destruct (given_up_run es _ w2 Hes Hgu Hrun) as ((Hmax & Hnr & _ & Hst2) & Hlen).
    split; [exact Hlen|]. split; [exact Hnr|]. split; [exact Hmax|].
    destruct Hst2 as [->| ->]; split; discriminate.
Qed.

(** ** What [connect()] does *)

Lemma setStatus_notes s w : log (setStatus s w) = (log w ++ status_notes s w)%list.
Proof. apply setStatus_log. Qed.

(** The three outcomes of [connect()]. *)
Lemma connect_cases w :
  (pending_or_open w ∧ connect w = w)
  ∨ (¬ pending_or_open w
     ∧ WebSocket_new_throws (url (this w)) = None
     ∧ connect w =
         setTimeout ConnectionTimeoutCallback 5000
           (with_this (set_socket (Some (length (sockets w))))
              (with_sockets
                 (fun l => (l ++ [{| readyState := CONNECTING; sent := [];
                                     closeDispatched := false;
                                     connectionTimeout := nextTimerId w |}])%list)
                 (setStatus connecting w))))
  ∨ (¬ pending_or_open w
     ∧ ∃ thrown, WebSocket_new_throws (url (this w)) = Some thrown
         ∧ connect w =
             notifyErrorHandlers
               (match thrown with
                | ThrownError e => e
                | ThrownValue _ => Error "WebSocket connection failed"
                end)
               (setStatus error (setStatus connecting w))).
Proof.
  destruct (decide (socket_readyState w = Some OPEN
                    ∨ socket_readyState w = Some CONNECTING)) as [Hp|Hn].
  { left. split; [exact Hp|apply connect_noop, Hp]. }
  right. unfold connect.
  rewrite decide_False by (intros Hc; apply Hn; left; exact Hc).
  rewrite decide_False by (intros Hc; apply Hn; right; exact Hc).
  destruct (setStatus_frame connecting w) as (Hs & _ & Hid & _ & _ & _ & Hu & _).
  cbv zeta. rewrite Hu, Hid, Hs.
  destruct (WebSocket_new_throws (url (this w))) as [thrown|] eqn:Hctor.
  - right. split; [exact Hn|]. exists thrown. split; reflexivity.
  - left. split; [exact Hn|]. split; reflexivity.
Qed.

(** X6.  When the [WebSocket] constructor throws, [connect()] creates no
    transport, arms no timer and keeps [this.socket] and the retry counter;
    the status ends as [error]; the status observers hear [connecting]
    (unless that was the status already) and then [error], and every error
    observer then receives the thrown error, or an error "WebSocket
    connection failed" if what was thrown is not an [Error].  The service is
    not pending afterwards unless it was, so a later [connect()] tries
    again. *)
Theorem connect_constructor_failure (thrown : Thrown) (w : World)
  (Hidle : ¬ pending_or_open w)
  (Hctor : WebSocket_new_throws (url (this w)) = Some thrown) :
  sockets (connect w) = sockets w
  ∧ socket (this (connect w)) = socket (this w)
  ∧ timers (connect w) = timers w
  ∧ reconnectAttempts (this (connect w)) = reconnectAttempts (this w)
  ∧ status (this (connect w)) = error
  ∧ ¬ pending_or_open (connect w)
  ∧ log (connect w) =
      (log w ++ status_notes connecting w
         ++ map (fun h => StatusDelivered h error) (statusChangeHandlers (this w))
         ++ map (fun h => ErrorDelivered h
                            (match thrown with
                             | ThrownError e => e
                             | ThrownValue _ => Error "WebSocket connection failed"
                             end))
              (errorHandlers (this w)))%list.
Proof.
  destruct (connect_cases w) as [[Hp _]|[(_ & Hnone & _)|(_ & t & Ht & ->)]];
    [contradiction|congruence|].
  rewrite Hctor in Ht. injection Ht as <-.
  set (w1 := setStatus connecting w).
  destruct (setStatus_frame connecting w) as (Hs1 & Ht1 & _ & _ & Hk1 & Ha1 & _ & Hst1).
  pose proof (setStatus_notes connecting w) as Hl1. fold w1 in Hs1, Ht1, Hk1, Ha1, Hst1, Hl1.
  destruct (setStatus_frame error w1) as (Hs2 & Ht2 & _ & _ & Hk2 & Ha2 & _ & Hst2).
  pose proof (setStatus_notes error w1) as Hl2.
  assert (Hh1 : statusChangeHandlers (this w1) = statusChangeHandlers (this w)
                ∧ errorHandlers (this w1) = errorHandlers (this w)).
  { subst w1. unfold setStatus. case_decide; simpl; auto. }
  assert (Hh2 : errorHandlers (this (setStatus error w1)) = errorHandlers (this w1)).
  { unfold setStatus. case_decide; simpl; auto. }
  destruct Hh1 as [Hh1 He1].
  unfold notifyErrorHandlers. simpl.
  rewrite Hs2, Hs1, Hk2, Hk1, Ht2, Ht1, Ha2, Ha1, Hst2, Hl2, Hl1, Hh2, He1.
  repeat split; try reflexivity.
  - intros Hpo. apply Hidle. unfold pending_or_open, socket_readyState in *.
    simpl in Hpo. rewrite Hk2, Hk1, Hs2, Hs1 in Hpo. exact Hpo.
  - unfold status_notes at 2. rewrite Hst1.
    rewrite decide_False by discriminate. rewrite Hh1, <- !app_assoc. reflexivity.
Qed.

(** ** Error events *)

(** X7.  An error event on a transport cancels the connection timeout of
    that transport, sets the status to [error] and hands one [Error] to
    every error observer, in registration order; its message is the one
    [getWebSocketErrorMessage] composes for the current transport, which is
    closed by then if the failing transport is the current one.  The retry
    counter is untouched and no timer is armed: retrying is left to the
    close event. *)
Theorem error_event_reports_without_retrying (i : nat) (w w' : World)
  (Hev : step (TransportError i) w = Some w') :
  ∃ ws, sockets w !! i = Some ws
    ∧ status (this w') = error
    ∧ reconnectAttempts (this w') = reconnectAttempts (this w)
    ∧ timers w' = filter (fun tm => timerId tm ≠ connectionTimeout ws) (timers w)
    ∧ sockets w' = alter (set_readyState CLOSED) i (sockets w)
    ∧ socket (this w') = socket (this w)
    ∧ log w' =
        (log w ++ status_notes error w
           ++ map (fun h => ErrorDelivered h (Error (getWebSocketErrorMessage w')))
                (errorHandlers (this w)))%list
    ∧ (socket (this w) = Some i -> socket_readyState w' = Some CLOSED).
Proof.
  simpl in Hev. apply dispatch_Some in Hev as (ws & Hi & _ & ->).
  exists ws. split; [exact Hi|].
  set (w0 := with_sockets (alter (set_readyState CLOSED) i) w).
  destruct (onerror_effect (connectionTimeout ws) w0) as (Hs & Ht & Ha & Hst).
  destruct (handlers_keep_transports (connectionTimeout ws) 0 "" w0)
    as (_ & _ & (_ & Hk) & _).
  split; [exact Hst|]. split; [exact Ha|]. split; [exact Ht|].
  split; [exact Hs|]. split; [exact Hk|]. split.
  - unfold onerror, notifyErrorHandlers, getWebSocketErrorMessage. cbv zeta.
    set (w1 := setStatus error (clearTimeout (connectionTimeout ws) w0)).
    assert (Hl : log w1 = (log w ++ status_notes error w)%list)
      by (apply (setStatus_notes error (clearTimeout (connectionTimeout ws) w0))).
    assert (Hh : errorHandlers (this w1) = errorHandlers (this w))
      by (subst w1; unfold setStatus; case_decide; reflexivity).
    simpl. rewrite Hl, Hh, <- app_assoc. reflexivity.
  - intros Hcur. unfold socket_readyState. rewrite Hk, Hs. simpl. rewrite Hcur.
    rewrite list_lookup_alter_eq, Hi. reflexivity.
Qed.

(** ** Sending *)

Lemma send_effect message w :
  (socket_readyState w = Some OPEN
   ∧ ∃ i ws, socket (this w) = Some i ∧ sockets w !! i = Some ws
       ∧ readyState ws = OPEN
       ∧ send message w
         = Returns (with_sockets (alter (push_sent (JSON_stringify message)) i) w))
  ∨ (socket_readyState w ≠ Some OPEN
     ∧ send message w = Throws (Error "WebSocket is not connected")).
Proof.
  unfold send. destruct (decide (socket_readyState w = Some OPEN)) as [Ho|Hn].
  - left. split; [exact Ho|]. unfold socket_readyState in Ho.
    destruct (socket (this w)) as [i|]; [|discriminate].
    destruct (sockets w !! i) as [ws|] eqn:Hi; [|discriminate].
    simpl in Ho. injection Ho as Ho. exists i, ws. auto.
  - right. auto.
Qed.

(** X8.  [sendAddNumbers(a, b)] and [sendHealthCheck()] behave as [send]
    does.  With the current transport open each writes exactly one frame to
    it, the serialization of [{type: "add", data: {a, b}, timestamp}] and of
    [{type: "health", timestamp}] with the clock as time stamp; the frames
    written before stay, and the service fields, the other transports, the
    timers and the log are unchanged.  Otherwise each throws "WebSocket is
    not connected". *)
Theorem convenience_senders_write_one_frame (a b : Z) (w : World) :
  let add := {| type := "add";
                data := Some (JObject [("a", JNumber a); ("b", JNumber b)]);
                timestamp := Some (now w) |} in
  let health := {| type := "health"; data := None; timestamp := Some (now w) |} in
  (isConnected w = true ->
     ∃ i ws w1 w2,
       socket (this w) = Some i ∧ sockets w !! i = Some ws
       ∧ sendAddNumbers a b w = Returns w1
       ∧ sendHealthCheck w = Returns w2
       ∧ sent <$> sockets w1 !! i = Some (sent ws ++ [JSON_stringify add])%list
       ∧ sent <$> sockets w2 !! i = Some (sent ws ++ [JSON_stringify health])%list
       ∧ (∀ j, j ≠ i -> sockets w1 !! j = sockets w !! j
                        ∧ sockets w2 !! j = sockets w !! j)
       ∧ (this w1 = this w ∧ timers w1 = timers w ∧ log w1 = log w)
       ∧ (this w2 = this w ∧ timers w2 = timers w ∧ log w2 = log w))
  ∧ (isConnected w = false ->
       sendAddNumbers a b w = Throws (Error "WebSocket is not connected")
       ∧ sendHealthCheck w = Throws (Error "WebSocket is not connected")).
Proof.
  intros add health. unfold isConnected, sendAddNumbers, sendHealthCheck.
  fold add. fold health. split.
  - intros Hc%bool_decide_eq_true.
    destruct (send_effect add w) as [(_ & i & ws & Hk & Hi & _ & Ha)|[Hn _]];
      [|contradiction].
    destruct (send_effect health w) as [(_ & i2 & ws2 & Hk2 & Hi2 & _ & Hh)|[Hn _]];
      [|contradiction].
    rewrite Hk in Hk2. injection Hk2 as <-. rewrite Hi in Hi2. injection Hi2 as <-.
    exists i, ws. eexists. eexists.
    split; [exact Hk|]. split; [exact Hi|]. split; [exact Ha|]. split; [exact Hh|].
    simpl. rewrite !list_lookup_alter_eq, Hi. simpl.
    split; [reflexivity|]. split; [reflexivity|]. split; [|auto].
    intros j Hj. rewrite !list_lookup_alter_ne by (intros Hc'; apply Hj; auto). auto.
  - intros Hc%bool_decide_eq_false.
    destruct (send_effect add w) as [[Ho _]|[_ Ha]]; [contradiction|].
    destruct (send_effect health w) as [[Ho _]|[_ Hh]]; [contradiction|].
    auto.
Qed.

(** ** How each event moves the status and the retry counter *)

Lemma connect_throws_effect thrown w :
  ¬ pending_or_open w ->
  WebSocket_new_throws (url (this w)) = Some thrown ->
  sockets (connect w) = sockets w
  ∧ socket (this (connect w)) = socket (this w)
  ∧ timers (connect w) = timers w
  ∧ nextTimerId (connect w) = nextTimerId w
  ∧ now (connect w) = now w
  ∧ reconnectAttempts (this (connect w)) = reconnectAttempts (this w)
  ∧ status (this (connect w)) = error.
Proof.
  intros Hn Hctor.
  destruct (connect_cases w) as [[Hp _]|[(_ & Hnone & _)|(_ & t & Ht & ->)]];
    [contradiction|congruence|].
  destruct (setStatus_frame connecting w) as (Hs1 & Ht1 & Hi1 & Hn1 & Hk1 & Ha1 & _).
  destruct (setStatus_frame error (setStatus connecting w))
    as (Hs2 & Ht2 & Hi2 & Hn2 & Hk2 & Ha2 & _ & Hst2).
  unfold notifyErrorHandlers. simpl.
  rewrite Hs2, Hs1, Hk2, Hk1, Ht2, Ht1, Hi2, Hi1, Hn2, Hn1, Ha2, Ha1, Hst2.
  auto 10.
Qed.

Lemma connect_status_counter w :
  reconnectAttempts (this (connect w)) = reconnectAttempts (this w)
  ∧ (connect w = w
     ∨ (¬ pending_or_open w ∧ WebSocket_new_throws (url (this w)) = None
        ∧ status (this (connect w)) = connecting
        ∧ socket_readyState (connect w) = Some CONNECTING)
     ∨ (¬ pending_or_open w ∧ WebSocket_new_throws (url (this w)) ≠ None
        ∧ status (this (connect w)) = error)).
Proof.
  destruct (connect_cases w) as [[Hp Heq]|[(Hn & Hnone & Heq)|(Hn & t & Ht & Heq)]].
  - rewrite Heq. auto.
  - destruct (connect_fresh w Hn Hnone) as (Hs & Hk & Hst & Ha & _).
    split; [exact Ha|]. right. left. repeat split; auto.
    unfold socket_readyState. rewrite Hk, Hs.
    rewrite lookup_app_r by reflexivity.
    replace (length (sockets w) - length (sockets w))%nat with 0%nat by lia.
    reflexivity.
  - destruct (connect_throws_effect t w Hn Ht) as (_ & _ & _ & _ & _ & Ha & Hst).
    split; [exact Ha|]. right. right. repeat split; auto. congruence.
Qed.

Lemma onopen_effect t w :
  sockets (onopen t w) = sockets w
  ∧ socket (this (onopen t w)) = socket (this w)
  ∧ timers (onopen t w) = timers (clearTimeout t w)
  ∧ nextTimerId (onopen t w) = nextTimerId w
  ∧ now (onopen t w) = now w
  ∧ reconnectAttempts (this (onopen t w)) = 0
  ∧ status (this (onopen t w)) = connected.
Proof.
  unfold onopen. cbv zeta. simpl.
  destruct (setStatus_frame connected (clearTimeout t w))
    as (-> & -> & -> & -> & -> & _ & _ & ->). auto 10.
Qed.

Lemma connectionTimeoutCallback_idle w :
  socket_readyState w = None ∨ socket_readyState w = Some OPEN ->
  connectionTimeoutCallback w = w.
Proof.
  unfold connectionTimeoutCallback. intros [->| ->]; [reflexivity|].
  rewrite decide_False by (intros Hc; apply Hc; reflexivity). reflexivity.
Qed.

(** What a timer that fires does to the status, the counter and the state
    of the current transport. *)
Lemma fire_cases id w w' :
  fire id w = Some w' ->
  w' = clearTimeout id w
  ∨ (∃ r, socket_readyState w = Some r ∧ r ≠ OPEN
       ∧ status (this w') = disconnected
       ∧ reconnectAttempts (this w') = maxReconnectAttempts
       ∧ socket_readyState w' = Some (closed_further r))
  ∨ (status (this w) = disconnected
     ∧ reconnectAttempts (this w') = reconnectAttempts (this w)
     ∧ ¬ pending_or_open w
     ∧ ((WebSocket_new_throws (url (this w)) = None
         ∧ status (this w') = connecting
         ∧ socket_readyState w' = Some CONNECTING)
        ∨ (WebSocket_new_throws (url (this w)) ≠ None
           ∧ status (this w') = error))).
Proof.
  intros (tm & _ & _ & ->)%fire_Some. set (w0 := clearTimeout id w).
  destruct (callback tm); simpl.
  - destruct (socket_readyState w0) as [r|] eqn:Hr.
    + destruct (decide (r = OPEN)) as [->|Hne].
      * left. apply connectionTimeoutCallback_idle. auto.
      * right. left. exists r.
        destruct (connectionTimeoutCallback_effect r w0 Hr Hne)
          as (Hst & Ha & Hrs & _). auto.
    + left. apply connectionTimeoutCallback_idle. auto.
  - unfold reconnectCallback. case_decide as Hst; [|left; reflexivity].
    destruct (connect_status_counter w0) as (Ha & [Heq|[Hc|Hc]]).
    + left. exact Heq.
    + right. right. destruct Hc as (Hn & Hnone & Hs & Hrs). auto 10.
    + right. right. destruct Hc as (Hn & Hsome & Hs). auto 10.
Qed.


(** How each event moves the retry counter. *)
Lemma step_reconnectAttempts e w w' :
  step e w = Some w' ->
  match e with
  | TransportOpen _ => reconnectAttempts (this w') = 0
  | TransportClose _ event_code =>
      reconnectAttempts (this w') =
        if decide (¬ terminal_code event_code
                   ∧ reconnectAttempts (this w) < maxReconnectAttempts)
        then reconnectAttempts (this w) + 1 else maxReconnectAttempts
  | CallDisconnect => reconnectAttempts (this w') = maxReconnectAttempts
  | TimerFires _ =>
      reconnectAttempts (this w') = reconnectAttempts (this w)
      ∨ reconnectAttempts (this w') = maxReconnectAttempts
  | _ => reconnectAttempts (this w') = reconnectAttempts (this w)
  end.
Proof.
  intros Hstep. destruct e; simpl in Hstep.
  - injection Hstep as <-. apply connect_status_counter.
  - injection Hstep as <-. apply disconnect_effect.
  - injection Hstep as <-. unfold send. case_decide; [|reflexivity].
    destruct (socket (this w)); reflexivity.
  - injection Hstep as <-. unfold sendAddNumbers, send. case_decide; [|reflexivity].
    destruct (socket (this w)); reflexivity.
  - injection Hstep as <-. unfold sendHealthCheck, send. case_decide; [|reflexivity].
    destruct (socket (this w)); reflexivity.
  - injection Hstep as <-. reflexivity.
  - injection Hstep as <-. reflexivity.
  - injection Hstep as <-. reflexivity.
  - injection Hstep as <-. reflexivity.
  - injection Hstep as <-. reflexivity.
  - injection Hstep as <-. reflexivity.
  - apply dispatch_Some in Hstep as (ws & _ & _ & ->). apply onopen_effect.
  - apply dispatch_Some in Hstep as (ws & _ & _ & ->).
    onmessage_emits. reflexivity.
  - apply dispatch_Some in Hstep as (ws & _ & _ & ->). reflexivity.
  - apply dispatch_Some in Hstep as (ws & _ & _ & ->).
    destruct (onerror_effect (connectionTimeout ws)
                (with_sockets (alter (set_readyState CLOSED) i) w))
      as (_ & _ & -> & _). reflexivity.
  - destruct (close_event_effect i event_code w w' Hstep) as (ws & _ & _ & Ha).
    exact Ha.
  - unfold elapse in Hstep. destruct (bool_decide _); [|discriminate].
    injection Hstep as <-. reflexivity.
  - destruct (fire_cases id w w' Hstep) as [->|[Hc|Hc]].
    + left. reflexivity.
    + destruct Hc as (r & _ & _ & _ & -> & _). auto.
    + destruct Hc as (_ & -> & _). auto.
Qed.

Lemma reachable_counter_bounds w :
  reachable w -> 0 <= reconnectAttempts (this w) <= maxReconnectAttempts.
Proof.
  induction 1 as [apiBaseUrl|e w w' _ IH Hstep];
    [unfold maxReconnectAttempts; simpl; lia|].
  pose proof (step_reconnectAttempts e w w' Hstep) as He.
  destruct e; unfold maxReconnectAttempts in *; try (rewrite He; lia).
  - destruct (decide _) as [[_ Hlt]|_] in He; rewrite He; lia.
  - destruct He as [->| ->]; lia.
Qed.

(** X10.  In every reachable world the retry counter lies between 0 and 5.
    It is lowered by one event only, the opening of a transport, which
    resets it to 0; every other step leaves it or raises it.  In
    particular [connect()] leaves it as it is, so after [disconnect()] or a
    connection timeout a new [connect()] starts with the counter still at
    the bound. *)
Theorem retry_counter_drops_only_on_open (e : Event) (w w' : World)
  (Hreach : reachable w)
  (Hstep : step e w = Some w') :
  0 <= reconnectAttempts (this w) <= maxReconnectAttempts
  ∧ 0 <= reconnectAttempts (this w') <= maxReconnectAttempts
  ∧ ((∃ i, e = TransportOpen i) -> reconnectAttempts (this w') = 0)
  ∧ ((∀ i, e ≠ TransportOpen i) ->
       reconnectAttempts (this w) <= reconnectAttempts (this w'))
  ∧ (e = CallConnect -> reconnectAttempts (this w') = reconnectAttempts (this w)).
Proof.
  pose proof (reachable_counter_bounds w Hreach) as Hb.
  pose proof (reachable_counter_bounds w' (reachable_step e w w' Hreach Hstep)) as Hb'.
  pose proof (step_reconnectAttempts e w w' Hstep) as He.
  split; [exact Hb|]. split; [exact Hb'|]. split; [|split].
  - intros [i ->]. exact He.
  - intros Hne. destruct e; unfold maxReconnectAttempts in *; try (rewrite He; lia).
    + exfalso. apply (Hne i). reflexivity.
    + destruct (decide _) as [[_ Hlt]|_] in He; rewrite He; lia.
    + destruct He as [->| ->]; lia.
  - intros ->. exact He.
Qed.

(** ** The status and the current transport *)



Lemma send_keeps_state message w :
  this (after (send message w) w) = this w
  ∧ socket_readyState (after (send message w) w) = socket_readyState w
  ∧ timers (after (send message w) w) = timers w
  ∧ log (after (send message w) w) = log w.
Proof.
  destruct (send_effect message w) as [(_ & i & ws & Hk & Hi & _ & ->)|[_ ->]];
    [|auto].
  simpl. repeat split. unfold socket_readyState. simpl. rewrite Hk.
  rewrite list_lookup_alter_eq, Hi. reflexivity.
Qed.




(** ** Observers outlive connections *)

Lemma setStatus_observers s w :
  messageHandlers (this (setStatus s w)) = messageHandlers (this w)
  ∧ errorHandlers (this (setStatus s w)) = errorHandlers (this w)
  ∧ statusChangeHandlers (this (setStatus s w)) = statusChangeHandlers (this w)
  ∧ url (this (setStatus s w)) = url (this w).
Proof. unfold setStatus. case_decide; simpl; auto. Qed.

Lemma same_observers_refl w : same_observers w w.
Proof. repeat split. Qed.

Lemma same_observers_trans w1 w2 w3 :
  same_observers w1 w2 -> same_observers w2 w3 -> same_observers w1 w3.
Proof.
  intros (A1 & A2 & A3 & A4) (B1 & B2 & B3 & B4).
  repeat split; congruence.
Qed.

Lemma same_observers_quiet w x x' :
  messageHandlers (this x') = messageHandlers (this x) ->
  errorHandlers (this x') = errorHandlers (this x) ->
  statusChangeHandlers (this x') = statusChangeHandlers (this x) ->
  url (this x') = url (this x) ->
  same_observers w x -> same_observers w x'.
Proof. unfold same_observers. intros -> -> -> ->. auto. Qed.

Lemma same_observers_setStatus w s x :
  same_observers w x -> same_observers w (setStatus s x).
Proof. apply same_observers_quiet; apply setStatus_observers. Qed.

Lemma same_observers_close_current w x :
  same_observers w x -> same_observers w (close_current x).
Proof.
  unfold close_current. destruct (socket (this x)); [|auto].
  apply same_observers_quiet; reflexivity.
Qed.

Lemma same_observers_connect w x :
  same_observers w x -> same_observers w (connect x).
Proof.
  intros Hx.
  destruct (connect_cases x) as [[_ ->]|[(_ & _ & ->)|(_ & t & _ & ->)]];
    [exact Hx| |].
  - apply (same_observers_quiet w (setStatus connecting x)); try reflexivity.
    apply same_observers_setStatus, Hx.
  - apply (same_observers_quiet w (setStatus error (setStatus connecting x)));
      try reflexivity.
    apply same_observers_setStatus, same_observers_setStatus, Hx.
Qed.

Lemma same_observers_step e w w' :
  is_subscription e = false -> step e w = Some w' -> same_observers w w'.
Proof.
  intros Hsub Hstep. destruct e; try discriminate Hsub; simpl in Hstep.
  - injection Hstep as <-. apply same_observers_connect, same_observers_refl.
  - injection Hstep as <-. unfold disconnect. cbv zeta.
    apply same_observers_setStatus.
    destruct (socket (this (with_this _ w))).
    + apply (same_observers_quiet w
               (if decide (socket_readyState
                             (with_this (set_reconnectAttempts maxReconnectAttempts) w)
                           = Some OPEN
                           ∨ socket_readyState
                               (with_this (set_reconnectAttempts maxReconnectAttempts) w)
                             = Some CONNECTING)
                then close_current
                       (with_this (set_reconnectAttempts maxReconnectAttempts) w)
                else with_this (set_reconnectAttempts maxReconnectAttempts) w));
        try reflexivity.
      case_decide.
      * apply same_observers_close_current.
        apply (same_observers_quiet w w); try reflexivity. apply same_observers_refl.
      * apply (same_observers_quiet w w); try reflexivity. apply same_observers_refl.
    + apply (same_observers_quiet w w); try reflexivity. apply same_observers_refl.
  - injection Hstep as <-. destruct (send_keeps_state message w) as (Ht & _).
    unfold same_observers. rewrite Ht. auto.
  - injection Hstep as <-. unfold sendAddNumbers.
    destruct (send_keeps_state
                {| type := "add";
                   data := Some (JObject [("a", JNumber a); ("b", JNumber b)]);
                   timestamp := Some (now w) |} w) as (Ht & _).
    unfold same_observers. rewrite Ht. auto.
  - injection Hstep as <-. unfold sendHealthCheck.
    destruct (send_keeps_state
                {| type := "health"; data := None; timestamp := Some (now w) |} w)
      as (Ht & _).
    unfold same_observers. rewrite Ht. auto.
  - apply dispatch_Some in Hstep as (ws & _ & _ & ->).
    set (w0 := clearTimeout (connectionTimeout ws)
                 (with_sockets (alter (set_readyState OPEN) i) w)).
    unfold onopen. cbv zeta.
    apply (same_observers_quiet w (setStatus connected w0)); try reflexivity.
    apply same_observers_setStatus. repeat split.
  - apply dispatch_Some in Hstep as (ws & _ & _ & ->).
    onmessage_emits. repeat split.
  - apply dispatch_Some in Hstep as (ws & _ & _ & ->). repeat split.
  - apply dispatch_Some in Hstep as (ws & _ & _ & ->).
    set (w0 := clearTimeout (connectionTimeout ws)
                 (with_sockets (alter (set_readyState CLOSED) i) w)).
    unfold onerror. cbv zeta.
    apply (same_observers_quiet w (setStatus error w0)); try reflexivity.
    apply same_observers_setStatus. repeat split.
  - apply dispatch_Some in Hstep as (ws & _ & _ & ->).
    set (w0 := clearTimeout (connectionTimeout ws)
                 (with_sockets
                    (alter (fun ws => set_closeDispatched (set_readyState CLOSED ws)) i)
                    w)).
    unfold onclose, attemptReconnect. cbv zeta. fold w0.
    assert (H0 : same_observers w (setStatus disconnected w0))
      by (apply same_observers_setStatus; repeat split).
    revert H0. generalize (setStatus disconnected w0). intros x Hx.
    repeat case_decide;
      (eapply same_observers_quiet; [..|exact Hx]; reflexivity).
  - unfold elapse in Hstep. destruct (bool_decide _); [|discriminate].
    injection Hstep as <-. repeat split.
  - apply fire_Some in Hstep as (tm & _ & _ & ->).
    assert (H0 : same_observers w (clearTimeout id w)) by repeat split.
    revert H0. generalize (clearTimeout id w). intros x Hx.
    destruct (callback tm); simpl.
    + unfold connectionTimeoutCallback.
      destruct (socket_readyState x); [|exact Hx].
      case_decide; [|exact Hx]. cbv zeta.
      apply (same_observers_quiet w (setStatus disconnected (close_current x)));
        try reflexivity.
      apply same_observers_setStatus, same_observers_close_current, Hx.
    + unfold reconnectCallback. case_decide; [|exact Hx].
      apply same_observers_connect, Hx.
Qed.

(** X12.  Only the subscription methods and the functions they return change
    the lists of observers: along any run of the event loop without such a
    call (connecting, disconnecting, sending, transport events, timers) the
    three lists and the URL stay exactly as they were, so observers
    registered once keep being served across disconnections and
    reconnections. *)
Theorem observers_outlive_connections (es : list Event) (w w' : World)
  (Hes : forallb (fun e => negb (is_subscription e)) es = true)
  (Hrun : run es w = Some w') :
  messageHandlers (this w') = messageHandlers (this w)
  ∧ errorHandlers (this w') = errorHandlers (this w)
  ∧ statusChangeHandlers (this w') = statusChangeHandlers (this w)
  ∧ url (this w') = url (this w).
Proof.
  change (same_observers w w').
  revert w Hes Hrun. induction es as [|e es IH]; intros w Hes; simpl.
  - intros [= <-]. apply same_observers_refl.
  - simpl in Hes. apply andb_true_iff in Hes as [He Hes].
    destruct (step e w) as [w1|] eqn:Hstep; [|discriminate].
    intros Hrun. apply (same_observers_trans _ w1).
    + apply (same_observers_step e); [|exact Hstep].
      destruct (is_subscription e); [discriminate|reflexivity].
    + apply (IH w1 Hes Hrun).
Qed.

(** ** Connecting again after [disconnect()] *)

Lemma disconnect_clock w :
  nextTimerId (disconnect w) = nextTimerId w
  ∧ now (disconnect w) = now w
  ∧ url (this (disconnect w)) = url (this w).
Proof.
  unfold disconnect. cbv zeta.
  set (w1 := with_this (set_reconnectAttempts maxReconnectAttempts) w).
  assert (Hmid : ∀ x, nextTimerId x = nextTimerId w -> now x = now w ->
                      url (this x) = url (this w) ->
                      nextTimerId (setStatus disconnected x) = nextTimerId w
                      ∧ now (setStatus disconnected x) = now w
                      ∧ url (this (setStatus disconnected x)) = url (this w)).
  { intros x Hn Ht Hu.
    destruct (setStatus_frame disconnected x) as (_ & _ & -> & -> & _ & _ & -> & _).
    auto. }
  destruct (socket (this w1)); [|apply Hmid; reflexivity].
  case_decide; apply Hmid; try reflexivity;
    unfold close_current; destruct (socket (this w1)); reflexivity.
Qed.

(** X13.  [connect()] does not restore the retry budget that
    [disconnect()] used up.  Called after [disconnect()], with a
    constructor that accepts the URL, it creates a new connecting transport
    and sets the status to [connecting], but the retry counter is still at
    its bound; so if that transport closes before it opens, whatever the
    closure code, no reconnect is armed and the status ends as
    [disconnected]. *)
Theorem manual_reconnect_has_no_retry_budget (event_code : Z) (w : World)
  (Hctor : WebSocket_new_throws (url (this w)) = None) :
  let w1 := connect (disconnect w) in
  let i := length (sockets w) in
  socket (this w1) = Some i
  ∧ socket_readyState w1 = Some CONNECTING
  ∧ status (this w1) = connecting
  ∧ reconnectAttempts (this w1) = maxReconnectAttempts
  ∧ ∃ w2, step (TransportClose i event_code) w1 = Some w2
      ∧ timers w2 = timers (clearTimeout (nextTimerId w) w)
      ∧ reconnectAttempts (this w2) = maxReconnectAttempts
      ∧ status (this w2) = disconnected.
Proof.
  intros w1 i.
  destruct (disconnect_effect w) as (Ha & Hk & _ & Ht & Hsk).
  destruct (disconnect_clock w) as (Hn & _ & Hu).
  assert (Hlen : length (sockets (disconnect w)) = length (sockets w)).
  { rewrite Hsk. destruct (socket (this w)); [|reflexivity].
    case_decide; [apply length_alter|reflexivity]. }
  assert (Hidle : ¬ pending_or_open (disconnect w)).
  { unfold pending_or_open, socket_readyState. rewrite Hk.
    intros [Hc|Hc]; discriminate. }
  rewrite <- Hu in Hctor.
  destruct (connect_fresh (disconnect w) Hidle Hctor) as (Hs1 & Hk1 & Hst1 & Ha1 & Ht1).
  fold w1 in Hs1, Hk1, Hst1, Ha1, Ht1. rewrite Hlen in Hk1. fold i in Hk1.
  rewrite Hn in Hs1, Ht1. rewrite Ha in Ha1. rewrite Ht in Ht1.
  assert (Hi : sockets w1 !! i
               = Some {| readyState := CONNECTING; sent := [];
                         closeDispatched := false;
                         connectionTimeout := nextTimerId w |}).
  { rewrite Hs1. unfold i. rewrite <- Hlen.
    rewrite lookup_app_r by reflexivity.
    replace (length (sockets (disconnect w)) - length (sockets (disconnect w)))%nat
      with 0%nat by lia. reflexivity. }
  split; [exact Hk1|]. split.
  { unfold socket_readyState. rewrite Hk1, Hi. reflexivity. }
  split; [exact Hst1|]. split; [exact Ha1|].
  simpl. unfold dispatch. rewrite Hi. simpl. eexists. split; [reflexivity|].
  set (w0 := with_sockets _ w1).
  pose proof (onclose_timers (nextTimerId w) event_code w0) as Htm.
  pose proof (onclose_reconnectAttempts (nextTimerId w) event_code w0) as Hat.
  assert (Hmax : reconnectAttempts (this w0) = maxReconnectAttempts) by exact Ha1.
  rewrite decide_False in Htm by (intros [_ Hlt]; rewrite Hmax in Hlt; lia).
  rewrite decide_False in Hat by (intros [_ Hlt]; rewrite Hmax in Hlt; lia).
  rewrite app_nil_r in Htm.
  split; [|split; [exact Hat|apply onclose_status]].
  rewrite Htm. simpl. rewrite Ht1. rewrite filter_app.
  rewrite (filter_cons_False _ _ []) by (simpl; intros Hc; apply Hc; reflexivity).
  apply app_nil_r.
Qed.

(** ** The pending timers *)

Lemma onerror_clock t w :
  nextTimerId (onerror t w) = nextTimerId w ∧ now (onerror t w) = now w.
Proof.
  unfold onerror, notifyErrorHandlers. cbv zeta. simpl.
  destruct (setStatus_frame error (clearTimeout t w)) as (_ & _ & -> & -> & _).
  auto.
Qed.

Lemma onclose_clock t event_code w :
  now (onclose t event_code w) = now w
  ∧ nextTimerId (onclose t event_code w) =
      if decide (¬ terminal_code event_code
                 ∧ reconnectAttempts (this w) < maxReconnectAttempts)
      then S (nextTimerId w) else nextTimerId w.
Proof.
  unfold onclose, terminal_code.
  set (w1 := clearTimeout t w).
  set (w2 := setStatus disconnected w1).
  destruct (setStatus_frame disconnected w1) as (_ & _ & Hn & Hnow & _ & Ha & _).
  fold w2 in Hn, Hnow, Ha.
  assert (Hw3 : ∀ w3 : World,
    w3 = (if decide (event_code ≠ 1000)
          then emit [ConsoleWarn ("WebSocket closed: " ++ getCloseReason event_code
                                    ++ " (code: " ++ pretty event_code ++ ")")] w2
          else w2) ->
    this w3 = this w2 ∧ nextTimerId w3 = nextTimerId w2 ∧ now w3 = now w2).
  { intros w3 ->. case_decide; simpl; auto. }
  specialize (Hw3 _ eq_refl). destruct Hw3 as (Hthis & Hn3 & Hnow3).
  set (w3 := if decide (event_code ≠ 1000) then _ else w2) in *.
  assert (Hatt : reconnectAttempts (this w3) = reconnectAttempts (this w)).
  { rewrite Hthis, Ha. reflexivity. }
  destruct (decide (event_code ≠ 1006 ∧ event_code ≠ 1002
                    ∧ reconnectAttempts (this w3) < maxReconnectAttempts))
    as [(H6 & H2 & Hlt)|Hno].
  - rewrite decide_True by (split; [intros [?|?]; contradiction | lia]).
    unfold attemptReconnect. rewrite decide_False by lia. simpl.
    rewrite Hn3, Hn, Hnow3, Hnow. auto.
  - rewrite decide_False.
    + simpl. rewrite Hn3, Hn, Hnow3, Hnow. auto.
    + intros (Hterm & Hlt). apply Hno. repeat split; [| |lia];
        intros ->; apply Hterm; [left|right]; reflexivity.
Qed.

Lemma connectionTimeoutCallback_clock w :
  nextTimerId (connectionTimeoutCallback w) = nextTimerId w
  ∧ now (connectionTimeoutCallback w) = now w.
Proof.
  unfold connectionTimeoutCallback.
  destruct (socket_readyState w); [|auto]. case_decide; [|auto]. cbv zeta. simpl.
  destruct (setStatus_frame disconnected (close_current w))
    as (_ & _ & -> & -> & _).
  unfold close_current. destruct (socket (this w)); auto.
Qed.

Lemma connect_fresh_clock w :
  ¬ pending_or_open w ->
  WebSocket_new_throws (url (this w)) = None ->
  timers (connect w) = (timers w ++ [timeout_timer w])%list
  ∧ sockets (connect w) = (sockets w ++ [fresh_transport w])%list
  ∧ nextTimerId (connect w) = S (nextTimerId w)
  ∧ now (connect w) = now w.
Proof.
  intros Hn Hctor.
  destruct (connect_fresh w Hn Hctor) as (Hs & _ & _ & _ & Ht).
  split; [exact Ht|]. split; [exact Hs|].
  destruct (connect_cases w) as [[Hp _]|[(_ & _ & ->)|(_ & t & Ht' & _)]];
    [contradiction| |congruence].
  simpl.
  destruct (setStatus_frame connecting w) as (_ & _ & -> & -> & _). auto.
Qed.

(** How a step changes the pending timers, the transports, the next timer
    identifier and the clock. *)
Lemma step_shape e w w' :
  step e w = Some w' ->
  ∃ ts ss,
    (ts = timers w ∨ ∃ x, ts = filter (fun tm => timerId tm ≠ x) (timers w))
    ∧ (ss = sockets w
       ∨ ∃ f i, ss = alter f i (sockets w)
                ∧ ∀ ws, connectionTimeout (f ws) = connectionTimeout ws)
    ∧ ((timers w' = ts ∧ sockets w' = ss ∧ nextTimerId w' = nextTimerId w
        ∧ now w <= now w')
       ∨ (timers w' = (ts ++ [timeout_timer w])%list
          ∧ sockets w' = (ss ++ [fresh_transport w])%list
          ∧ nextTimerId w' = S (nextTimerId w) ∧ now w' = now w)
       ∨ (timers w' = (ts ++ [reconnect_timer w])%list ∧ sockets w' = ss
          ∧ reconnectAttempts (this w) < maxReconnectAttempts
          ∧ nextTimerId w' = S (nextTimerId w) ∧ now w' = now w)).
Proof.
  assert (Hconnect : ∀ x ts ss,
    timers x = ts -> sockets x = ss ->
    (timers (connect x) = ts ∧ sockets (connect x) = ss
     ∧ nextTimerId (connect x) = nextTimerId x ∧ now (connect x) = now x)
    ∨ (timers (connect x) = (ts ++ [timeout_timer x])%list
       ∧ sockets (connect x) = (ss ++ [fresh_transport x])%list
       ∧ nextTimerId (connect x) = S (nextTimerId x) ∧ now (connect x) = now x)).
  { intros x ts ss <- <-.
    destruct (connect_cases x) as [[_ ->]|[(Hn & Hnone & _)|(Hn & t & Ht & _)]].
    - left. auto.
    - right. apply connect_fresh_clock; auto.
    - left. destruct (connect_throws_effect t x Hn Ht)
        as (Hs & _ & Htm & Hid & Hnow & _). auto. }
  assert (Hle : ∀ a b : Z, a = b -> b <= a) by (intros; lia).
  intros Hstep. destruct e; simpl in Hstep.
  - injection Hstep as <-. exists (timers w), (sockets w).
    split; [left; reflexivity|]. split; [left; reflexivity|].
    destruct (Hconnect w _ _ eq_refl eq_refl) as [(A & B & C & D)|(A & B & C & D)];
      [left|right; left]; auto.
  - injection Hstep as <-.
    destruct (disconnect_effect w) as (_ & _ & _ & Ht & Hs).
    destruct (disconnect_clock w) as (Hn & Hnow & _).
    exists (timers w), (sockets (disconnect w)).
    split; [left; reflexivity|]. split.
    + rewrite Hs. destruct (socket (this w)) as [i|]; [|left; reflexivity].
      case_decide; [|left; reflexivity].
      right. exists WebSocket_close, i. split; [reflexivity|].
      intros ws. unfold WebSocket_close. destruct (readyState ws); reflexivity.
    + left. auto.
  - injection Hstep as <-.
    destruct (send_effect message w) as [(_ & i & ws & _ & _ & _ & ->)|[_ ->]].
    + exists (timers w), (alter (push_sent (JSON_stringify message)) i (sockets w)).
      split; [left; reflexivity|]. split; [right; eauto|]. left. simpl. auto.
    + exists (timers w), (sockets w). simpl. auto 10.
  - injection Hstep as <-. unfold sendAddNumbers.
    match goal with |- context [send ?m w] =>
      destruct (send_effect m w) as [(_ & i & ws & _ & _ & _ & ->)|[_ ->]];
      [exists (timers w), (alter (push_sent (JSON_stringify m)) i (sockets w))|]
    end.
    + split; [left; reflexivity|]. split; [right; eauto|]. left. simpl. auto.
    + exists (timers w), (sockets w). simpl. auto 10.
  - injection Hstep as <-. unfold sendHealthCheck.
    match goal with |- context [send ?m w] =>
      destruct (send_effect m w) as [(_ & i & ws & _ & _ & _ & ->)|[_ ->]];
      [exists (timers w), (alter (push_sent (JSON_stringify m)) i (sockets w))|]
    end.
    + split; [left; reflexivity|]. split; [right; eauto|]. left. simpl. auto.
    + exists (timers w), (sockets w). simpl. auto 10.
  - injection Hstep as <-. exists (timers w), (sockets w). simpl. auto 10.
  - injection Hstep as <-. exists (timers w), (sockets w). simpl. auto 10.
  - injection Hstep as <-. exists (timers w), (sockets w). simpl. auto 10.
  - injection Hstep as <-. exists (timers w), (sockets w). simpl. auto 10.
  - injection Hstep as <-. exists (timers w), (sockets w). simpl. auto 10.
  - injection Hstep as <-. exists (timers w), (sockets w). simpl. auto 10.
  - apply dispatch_Some in Hstep as (ws & _ & _ & ->).
    set (w0 := with_sockets (alter (set_readyState OPEN) i) w).
    destruct (onopen_effect (connectionTimeout ws) w0) as (Hs & _ & Ht & Hn & Hnow & _).
    exists (filter (fun tm => timerId tm ≠ connectionTimeout ws) (timers w)),
           (alter (set_readyState OPEN) i (sockets w)).
    split; [right; eauto|]. split; [right; eauto|]. left. auto.
  - apply dispatch_Some in Hstep as (ws & _ & _ & ->).
    exists (timers w), (alter id i (sockets w)).
    split; [left; reflexivity|]. split; [right; eauto|]. left.
    onmessage_emits. simpl. auto.
  - apply dispatch_Some in Hstep as (ws & _ & _ & ->).
    exists (timers w), (alter (set_readyState CLOSING) i (sockets w)).
    split; [left; reflexivity|]. split; [right; eauto|]. left. simpl. auto.
  - apply dispatch_Some in Hstep as (ws & _ & _ & ->).
    set (w0 := with_sockets (alter (set_readyState CLOSED) i) w).
    destruct (onerror_effect (connectionTimeout ws) w0) as (Hs & Ht & _).
    destruct (onerror_clock (connectionTimeout ws) w0) as (Hn & Hnow).
    exists (filter (fun tm => timerId tm ≠ connectionTimeout ws) (timers w)),
           (alter (set_readyState CLOSED) i (sockets w)).
    split; [right; eauto|]. split; [right; eauto|]. left. auto.
  - apply dispatch_Some in Hstep as (ws & _ & _ & ->).
    set (w0 := with_sockets
                 (alter (fun ws => set_closeDispatched (set_readyState CLOSED ws)) i) w).
    pose proof (onclose_timers (connectionTimeout ws) event_code w0) as Ht.
    destruct (onclose_clock (connectionTimeout ws) event_code w0) as (Hnow & Hn).
    destruct (handlers_keep_transports (connectionTimeout ws) event_code "" w0)
      as (_ & _ & _ & (Hs & _)).
    exists (filter (fun tm => timerId tm ≠ connectionTimeout ws) (timers w)),
           (alter (fun ws => set_closeDispatched (set_readyState CLOSED ws)) i
              (sockets w)).
    split; [right; eauto|]. split; [right; eauto|].
    destruct (decide (¬ terminal_code event_code
                      ∧ reconnectAttempts (this w0) < maxReconnectAttempts))
      as [[_ Hlt]|_].
    + right. right. auto.
    + left. rewrite app_nil_r in Ht. auto.
  - unfold elapse in Hstep.
    destruct (bool_decide (0 <= ms)) eqn:Hms; [|discriminate].
    injection Hstep as <-. apply bool_decide_eq_true in Hms.
    exists (timers w), (sockets w).
    split; [left; reflexivity|]. split; [left; reflexivity|]. left. simpl.
    split; [reflexivity|]. split; [reflexivity|]. split; [reflexivity|]. lia.
  - apply fire_Some in Hstep as (tm & _ & _ & ->).
    set (w0 := clearTimeout id w).
    destruct (callback tm); simpl.
    + destruct (connectionTimeoutCallback_clock w0) as (Hn & Hnow).
      destruct (socket_readyState w0) as [r|] eqn:Hr.
      * destruct (decide (r = OPEN)) as [->|Hne].
        -- rewrite connectionTimeoutCallback_idle by auto.
           exists (timers w0), (sockets w). split; [right; eauto|].
           split; [left; reflexivity|]. left. auto.
        -- destruct (connectionTimeoutCallback_effect r w0 Hr Hne)
             as (_ & _ & _ & Ht & i & _ & Hs).
           exists (timers w0), (alter WebSocket_close i (sockets w)).
           split; [right; eauto|]. split.
           ++ right. exists WebSocket_close, i. split; [reflexivity|].
              intros ws. unfold WebSocket_close. destruct (readyState ws); reflexivity.
           ++ left. auto.
      * rewrite connectionTimeoutCallback_idle by auto.
        exists (timers w0), (sockets w). split; [right; eauto|].
        split; [left; reflexivity|]. left. auto.
    + exists (timers w0), (sockets w). split; [right; eauto|].
      split; [left; reflexivity|].
      unfold reconnectCallback. case_decide; [|left; auto].
      destruct (Hconnect w0 _ _ eq_refl eq_refl) as [(A & B & C & D)|(A & B & C & D)];
        [left|right; left]; auto.
Qed.

Lemma NoDup_fmap_filter {A B} (f : A -> B) (P : A -> Prop)
  `{∀ x, Decision (P x)} (l : list A) :
  NoDup (f <$> l) -> NoDup (f <$> filter P l).
Proof.
  induction l as [|a l IH]; [auto|].
  rewrite fmap_cons, NoDup_cons. intros [Hni Hnd].
  destruct (decide (P a)) as [Hp|Hp].
  - rewrite filter_cons_True by exact Hp. rewrite fmap_cons, NoDup_cons.
    split; [|auto]. intros Hin. apply Hni.
    apply list_elem_of_fmap in Hin as (y & -> & Hy).
    apply list_elem_of_filter in Hy as [_ Hy].
    apply list_elem_of_fmap. eauto.
  - rewrite filter_cons_False by exact Hp. auto.
Qed.

Lemma fmap_alter_same {A B} (f : A -> B) (g : A -> A) (i : nat) (l : list A) :
  (∀ x, f (g x) = f x) -> f <$> alter g i l = f <$> l.
Proof.
  intros Hg. revert i. induction l as [|a l IH]; intros [|i]; simpl; auto.
  - rewrite Hg. reflexivity.
  - f_equal. apply IH.
Qed.

Lemma NoDup_fmap_unique {A B} (f : A -> B) (l : list A) x y :
  NoDup (f <$> l) -> x ∈ l -> y ∈ l -> f x = f y -> x = y.
Proof.
  intros Hnd Hx Hy Hf.
  apply list_elem_of_lookup in Hx as [i Hi].
  apply list_elem_of_lookup in Hy as [j Hj].
  assert (Hij : i = j).
  { apply (NoDup_lookup (f <$> l) i j (f x)); [exact Hnd| |].
    - rewrite list_lookup_fmap, Hi. reflexivity.
    - rewrite list_lookup_fmap, Hj, Hf. reflexivity. }
  subst j. congruence.
Qed.

Lemma Forall_connectionTimeout (n : nat) (l : list WebSocket) :
  Forall (fun ws => (connectionTimeout ws < n)%nat) l
  ↔ Forall (fun m => (m < n)%nat) (connectionTimeout <$> l).
Proof. rewrite Forall_fmap. reflexivity. Qed.

Lemma timers_sound_step e w w' :
  0 <= reconnectAttempts (this w) ->
  timers_sound w -> step e w = Some w' -> timers_sound w'.
Proof.
  intros Hatt (Ht & Htn & Hs & Hsn) Hstep.
  apply Forall_connectionTimeout in Hs.
  destruct (step_shape e w w' Hstep) as (ts & ss & Hts & Hss & Hcases).
  assert (Hts' : Forall (fun tm => timer_shape tm ∧ (timerId tm < nextTimerId w)%nat
                                   ∧ due tm - delay tm <= now w) ts
                 ∧ NoDup (timerId <$> ts)).
  { destruct Hts as [->|[x ->]]; [auto|]. split.
    - apply Forall_forall. intros tm Hin.
      apply list_elem_of_filter in Hin as [_ Hin].
      rewrite Forall_forall in Ht. auto.
    - apply NoDup_fmap_filter. exact Htn. }
  assert (Hss' : Forall (fun n => (n < nextTimerId w)%nat) (connectionTimeout <$> ss)
                 ∧ NoDup (connectionTimeout <$> ss)).
  { destruct Hss as [->|(f & i & -> & Hf)]; [auto|].
    rewrite (fmap_alter_same connectionTimeout f i (sockets w) Hf). auto. }
  clear Hts Hss. destruct Hts' as [Hta Htb]. destruct Hss' as [Hsa Hsb].
  assert (Hfresh_t : nextTimerId w ∉ timerId <$> ts).
  { intros Hin. apply list_elem_of_fmap in Hin as (tm & Hid & Hin).
    rewrite Forall_forall in Hta. destruct (Hta tm Hin) as (_ & Hlt & _). lia. }
  assert (Hfresh_s : nextTimerId w ∉ connectionTimeout <$> ss).
  { intros Hin. rewrite Forall_forall in Hsa. specialize (Hsa _ Hin). lia. }
  assert (Hup_t : Forall (fun tm => timer_shape tm ∧ (timerId tm < S (nextTimerId w))%nat
                                    ∧ due tm - delay tm <= now w) ts).
  { eapply Forall_impl; [exact Hta|]. intros tm (A & B & C). split; [auto|]. split; [lia|auto]. }
  assert (Hup_s : Forall (fun n => (n < S (nextTimerId w))%nat) (connectionTimeout <$> ss)).
  { eapply Forall_impl; [exact Hsa|]. intros n Hn. simpl in *. lia. }
  unfold timers_sound.
  destruct Hcases as [(A & B & C & D)|[(A & B & C & D)|(A & B & Hlt & C & D)]];
    rewrite A, B, C.
  - split; [|split; [exact Htb|split; [apply Forall_connectionTimeout; exact Hsa|exact Hsb]]].
    eapply Forall_impl; [exact Hta|]. intros tm (S1 & S2 & S3).
    split; [exact S1|]. split; [exact S2|]. lia.
  - rewrite D. split; [|split; [|split]].
    + apply Forall_app. split; [exact Hup_t|].
      apply Forall_singleton. unfold timer_shape, timeout_timer. simpl.
      split; [reflexivity|]. split; lia.
    + rewrite fmap_app. apply NoDup_app. split; [exact Htb|]. split.
      * intros n Hn Hin. simpl in Hin. apply list_elem_of_singleton in Hin.
        subst n. contradiction.
      * simpl. apply NoDup_singleton.
    + apply Forall_connectionTimeout. rewrite fmap_app.
      apply Forall_app. split; [exact Hup_s|].
      simpl. apply Forall_singleton. lia.
    + rewrite fmap_app. apply NoDup_app. split; [exact Hsb|]. split.
      * intros n Hn Hin. simpl in Hin. apply list_elem_of_singleton in Hin.
        subst n. contradiction.
      * simpl. apply NoDup_singleton.
  - rewrite D. split; [|split; [|split]].
    + apply Forall_app. split; [exact Hup_t|].
      apply Forall_singleton. unfold timer_shape, reconnect_timer. simpl.
      split; [|split; [lia|unfold reconnectDelay; lia]].
      exists (reconnectAttempts (this w) + 1). split; [lia|reflexivity].
    + rewrite fmap_app. apply NoDup_app. split; [exact Htb|]. split.
      * intros n Hn Hin. simpl in Hin. apply list_elem_of_singleton in Hin.
        subst n. contradiction.
      * simpl. apply NoDup_singleton.
    + apply Forall_connectionTimeout. exact Hup_s.
    + exact Hsb.
Qed.

Lemma reachable_timers_sound w : reachable w -> timers_sound w.
Proof.
  induction 1 as [apiBaseUrl|e w w' Hw IH Hstep].
  - unfold timers_sound. simpl.
    split; [constructor|]. split; [constructor|]. split; constructor.
  - apply (timers_sound_step e w w'); [|exact IH|exact Hstep].
    apply reachable_counter_bounds. exact Hw.
Qed.

(** X14.  In every reachable world a pending timer is either a connection
    timeout of 5000 ms or a reconnect of 1000 ms times the number of the
    attempt, which lies between 1 and 5; so no timer waits less than one
    second or more than five.  Its due time lies at most its delay ahead of
    the clock, so within the next five seconds it is due (it may be due
    already), and no two pending timers share an identifier. *)
Theorem pending_timers_are_bounded (w : World) (tm : Timer)
  (Hreach : reachable w)
  (Hin : tm ∈ timers w) :
  timer_shape tm
  ∧ 1000 <= delay tm <= 5000
  ∧ due tm <= now w + delay tm
  ∧ due tm <= now w + 5000
  ∧ ∀ tm', tm' ∈ timers w -> timerId tm' = timerId tm -> tm' = tm.
Proof.
  destruct (reachable_timers_sound w Hreach) as (Ht & Hnd & _).
  rewrite Forall_forall in Ht. destruct (Ht tm Hin) as (Hshape & _ & Hdue).
  assert (Hdelay : 1000 <= delay tm <= 5000).
  { unfold timer_shape in Hshape. destruct (callback tm).
    - lia.
    - destruct Hshape as (k & Hk & Hd).
      unfold maxReconnectAttempts, reconnectDelay in *. lia. }
  split; [exact Hshape|]. split; [exact Hdelay|]. split; [lia|]. split; [lia|].
  intros tm' Hin' Hid.
  apply (NoDup_fmap_unique timerId (timers w)); auto.
Qed.

(** ** Connecting transports and their timeouts *)

Lemma guarded_same w w' :
  sockets w' = sockets w ->
  (∀ tm, tm ∈ timers w -> callback tm = ConnectionTimeoutCallback -> tm ∈ timers w') ->
  guarded w -> guarded w'.
Proof.
  intros Hs Ht Hg j ws Hj Hc. rewrite Hs in Hj.
  destruct (Hg j ws Hj Hc) as (tm & Hin & Hid & Hcb). eauto.
Qed.

Lemma guarded_alter (f : WebSocket -> WebSocket) i w w' :
  (∀ ws, connectionTimeout (f ws) = connectionTimeout ws) ->
  (∀ ws, readyState (f ws) = CONNECTING -> readyState ws = CONNECTING) ->
  sockets w' = alter f i (sockets w) ->
  (∀ tm, tm ∈ timers w -> callback tm = ConnectionTimeoutCallback -> tm ∈ timers w') ->
  guarded w -> guarded w'.
Proof.
  intros Hct Hrs Hs Ht Hg j ws' Hj Hc. rewrite Hs in Hj.
  destruct (decide (i = j)) as [<-|Hij].
  - rewrite list_lookup_alter_eq in Hj.
    destruct (sockets w !! i) as [ws|] eqn:Hi; [|discriminate].
    simpl in Hj. injection Hj as <-.
    destruct (Hg i ws Hi (Hrs ws Hc)) as (tm & Hin & Hid & Hcb).
    exists tm. rewrite Hct. auto.
  - rewrite list_lookup_alter_ne in Hj by exact Hij.
    destruct (Hg j ws' Hj Hc) as (tm & Hin & Hid & Hcb). eauto.
Qed.

(** A transport leaves the connecting state and its own timeout is
    cancelled: the other transports keep theirs. *)
Lemma guarded_settle (f : WebSocket -> WebSocket) i ws w w' :
  sockets w !! i = Some ws ->
  NoDup (connectionTimeout <$> sockets w) ->
  (∀ x, readyState (f x) ≠ CONNECTING) ->
  sockets w' = alter f i (sockets w) ->
  (∀ tm, tm ∈ timers w -> timerId tm ≠ connectionTimeout ws -> tm ∈ timers w') ->
  guarded w -> guarded w'.
Proof.
  intros Hi Hnd Hrs Hs Ht Hg j ws' Hj Hc. rewrite Hs in Hj.
  destruct (decide (i = j)) as [<-|Hij].
  - rewrite list_lookup_alter_eq, Hi in Hj. simpl in Hj. injection Hj as <-.
    destruct (Hrs ws Hc).
  - rewrite list_lookup_alter_ne in Hj by exact Hij.
    destruct (Hg j ws' Hj Hc) as (tm & Hin & Hid & Hcb).
    exists tm. split; [|auto]. apply Ht; [exact Hin|].
    intros Heq. rewrite Hid in Heq. apply Hij.
    apply (NoDup_lookup (connectionTimeout <$> sockets w) i j (connectionTimeout ws));
      [exact Hnd| |].
    + rewrite list_lookup_fmap, Hi. reflexivity.
    + rewrite list_lookup_fmap, Hj. simpl. rewrite Heq. reflexivity.
Qed.

Lemma guarded_connect w : guarded w -> guarded (connect w).
Proof.
  intros Hg.
  destruct (connect_cases w) as [[_ ->]|[(Hn & Hnone & _)|(Hn & t & Ht & _)]];
    [exact Hg| |].
  - destruct (connect_fresh_clock w Hn Hnone) as (Htm & Hs & _).
    intros j ws Hj Hc. rewrite Hs in Hj. rewrite Htm.
    apply lookup_app_Some in Hj as [Hj|[_ Hj]].
    + destruct (Hg j ws Hj Hc) as (tm & Hin & Hid & Hcb).
      exists tm. split; [apply elem_of_app; left; exact Hin|auto].
    + destruct (j - length (sockets w))%nat; [|discriminate].
      simpl in Hj. injection Hj as <-.
      exists (timeout_timer w). split; [|auto].
      apply elem_of_app. right. apply list_elem_of_singleton. reflexivity.
  - destruct (connect_throws_effect t w Hn Ht) as (Hs & _ & Htm & _).
    apply (guarded_same w); [exact Hs| |exact Hg].
    intros tm Hin _. rewrite Htm. exact Hin.
Qed.

Lemma elem_of_clearTimeout tm id w :
  tm ∈ timers w -> timerId tm ≠ id -> tm ∈ timers (clearTimeout id w).
Proof.
  intros Hin Hne. unfold clearTimeout. simpl.
  apply list_elem_of_filter. auto.
Qed.

Lemma WebSocket_close_not_connecting ws :
  readyState (WebSocket_close ws) ≠ CONNECTING.
Proof. unfold WebSocket_close. destruct (readyState ws) eqn:Hr; simpl; congruence. Qed.

Lemma guarded_step e w w' :
  stale_closed w -> timers_sound w ->
  guarded w -> step e w = Some w' -> guarded w'.
Proof.
  intros Hstale (_ & Htn & _ & Hsn) Hg Hstep.
  assert (Hkeep : ∀ x : World, timers x = timers w ->
            ∀ tm, tm ∈ timers w -> callback tm = ConnectionTimeoutCallback ->
                  tm ∈ timers x).
  { intros x -> tm Hin _. exact Hin. }
  destruct e; simpl in Hstep.
  - injection Hstep as <-. apply guarded_connect, Hg.
  - injection Hstep as <-.
    destruct (disconnect_effect w) as (_ & _ & _ & Ht & Hs).
    destruct (socket (this w)) as [i|];
      [|apply (guarded_same w); [exact Hs|apply Hkeep, Ht|exact Hg]].
    destruct (decide (pending_or_open w));
      [|apply (guarded_same w); [exact Hs|apply Hkeep, Ht|exact Hg]].
    apply (guarded_alter WebSocket_close i w); [| |exact Hs|apply Hkeep, Ht|exact Hg].
    + intros ws. unfold WebSocket_close. destruct (readyState ws); reflexivity.
    + intros ws Hc. destruct (WebSocket_close_not_connecting ws Hc).
  - injection Hstep as <-.
    destruct (send_effect message w) as [(_ & i & ws & _ & _ & _ & ->)|[_ ->]];
      [|exact Hg].
    apply (guarded_alter (push_sent (JSON_stringify message)) i w); auto.
  - injection Hstep as <-. unfold sendAddNumbers.
    match goal with |- context [send ?m w] =>
      destruct (send_effect m w) as [(_ & i & ws & _ & _ & _ & ->)|[_ ->]];
      [apply (guarded_alter (push_sent (JSON_stringify m)) i w); auto|exact Hg]
    end.
  - injection Hstep as <-. unfold sendHealthCheck.
    match goal with |- context [send ?m w] =>
      destruct (send_effect m w) as [(_ & i & ws & _ & _ & _ & ->)|[_ ->]];
      [apply (guarded_alter (push_sent (JSON_stringify m)) i w); auto|exact Hg]
    end.
  - injection Hstep as <-. apply (guarded_same w); auto.
  - injection Hstep as <-. apply (guarded_same w); auto.
  - injection Hstep as <-. apply (guarded_same w); auto.
  - injection Hstep as <-. apply (guarded_same w); auto.
  - injection Hstep as <-. apply (guarded_same w); auto.
  - injection Hstep as <-. apply (guarded_same w); auto.
  - apply dispatch_Some in Hstep as (ws & Hi & _ & ->).
    set (w0 := with_sockets (alter (set_readyState OPEN) i) w).
    destruct (onopen_effect (connectionTimeout ws) w0) as (Hs & _ & Ht & _).
    apply (guarded_settle (set_readyState OPEN) i ws w);
      [exact Hi|exact Hsn|intros x; simpl; congruence|exact Hs| |exact Hg].
    intros tm Hin Hne. rewrite Ht. apply elem_of_clearTimeout; auto.
  - apply dispatch_Some in Hstep as (ws & Hi & _ & ->).
    apply (guarded_alter id i w); auto.
    + onmessage_emits. reflexivity.
    + apply Hkeep. onmessage_emits. reflexivity.
  - apply dispatch_Some in Hstep as (ws & Hi & _ & ->).
    apply (guarded_alter (set_readyState CLOSING) i w);
      [reflexivity|intros x; simpl; congruence|reflexivity|auto|exact Hg].
  - apply dispatch_Some in Hstep as (ws & Hi & _ & ->).
    set (w0 := with_sockets (alter (set_readyState CLOSED) i) w).
    destruct (onerror_effect (connectionTimeout ws) w0) as (Hs & Ht & _).
    apply (guarded_settle (set_readyState CLOSED) i ws w);
      [exact Hi|exact Hsn|intros x; simpl; congruence|exact Hs| |exact Hg].
    intros tm Hin Hne. rewrite Ht. apply elem_of_clearTimeout; auto.
  - apply dispatch_Some in Hstep as (ws & Hi & _ & ->).
    set (w0 := with_sockets
                 (alter (fun ws => set_closeDispatched (set_readyState CLOSED ws)) i) w).
    pose proof (onclose_timers (connectionTimeout ws) event_code w0) as Ht.
    destruct (handlers_keep_transports (connectionTimeout ws) event_code "" w0)
      as (_ & _ & _ & (Hs & _)).
    apply (guarded_settle (fun ws => set_closeDispatched (set_readyState CLOSED ws))
             i ws w);
      [exact Hi|exact Hsn|intros x; simpl; congruence|exact Hs| |exact Hg].
    intros tm Hin Hne. rewrite Ht. apply elem_of_app. left.
    apply elem_of_clearTimeout; auto.
  - unfold elapse in Hstep.
    destruct (bool_decide (0 <= ms)); [|discriminate].
    injection Hstep as <-. apply (guarded_same w); auto.
  - apply fire_Some in Hstep as (tm & Hfind & _ & ->).
    apply find_timer_spec in Hfind as [Hin Hid].
    set (w0 := clearTimeout id w).
    destruct (callback tm) eqn:Hcb; simpl.
    + assert (Hcur : ∀ j ws, sockets w !! j = Some ws -> readyState ws = CONNECTING ->
                socket (this w0) = Some j ∧ socket_readyState w0 = Some CONNECTING).
      { intros j ws Hj Hc. pose proof (Hstale j ws Hj (or_introl Hc)) as Hsock.
        split; [exact Hsock|]. unfold socket_readyState. simpl.
        rewrite Hsock, Hj. simpl. rewrite Hc. reflexivity. }
      intros j ws' Hj Hc. exfalso.
      destruct (socket_readyState w0) as [r|] eqn:Hr.
      * destruct (decide (r = OPEN)) as [->|Hne].
        -- rewrite connectionTimeoutCallback_idle in Hj by auto.
           destruct (Hcur j ws' Hj Hc) as [_ ?]. congruence.
        -- destruct (connectionTimeoutCallback_effect r w0 Hr Hne)
             as (_ & _ & _ & _ & i & Hsock & Hs).
           rewrite Hs in Hj. simpl in Hj.
           destruct (decide (i = j)) as [<-|Hij].
           ++ rewrite list_lookup_alter_eq in Hj.
              destruct (sockets w !! i) as [ws|]; [|discriminate].
              simpl in Hj. injection Hj as <-.
              exact (WebSocket_close_not_connecting ws Hc).
           ++ rewrite list_lookup_alter_ne in Hj by exact Hij.
              destruct (Hcur j ws' Hj Hc) as [? _]. congruence.
      * rewrite connectionTimeoutCallback_idle in Hj by auto.
        destruct (Hcur j ws' Hj Hc) as [_ ?]. congruence.
    + assert (Hg0 : guarded w0).
      { apply (guarded_same w); [reflexivity| |exact Hg].
        intros tm' Hin' Hcb'. apply elem_of_clearTimeout; [exact Hin'|].
        intros Heq. rewrite <- Hid in Heq.
        rewrite (NoDup_fmap_unique timerId (timers w) tm' tm Htn Hin' Hin Heq) in Hcb'.
        congruence. }
      unfold reconnectCallback. case_decide; [apply guarded_connect|]; exact Hg0.
Qed.

Lemma reachable_guarded w : reachable w -> guarded w.
Proof.
  induction 1 as [apiBaseUrl|e w w' Hw IH Hstep].
  - intros j ws Hj. discriminate.
  - apply (guarded_step e w w'); auto.
    + apply reachable_stale_closed, Hw.
    + apply reachable_timers_sound, Hw.
Qed.

Lemma find_timer_complete id (l : list Timer) tm :
  tm ∈ l -> timerId tm = id ->
  ∃ tm', find (fun t => bool_decide (timerId t = id)) l = Some tm'.
Proof.
  induction l as [|a l IH]; intros Hin Hid.
  - apply elem_of_nil in Hin. destruct Hin.
  - simpl. case_bool_decide as Ha; [eauto|].
    apply elem_of_cons in Hin as [->|Hin]; [contradiction|]. auto.
Qed.

(** X15.  In every reachable world a transport that is still connecting is
    the current one and has its connection timeout pending: a timer armed
    for 5000 ms that is due at the latest five seconds from now.  When that
    timer fires, however late, the attempt is abandoned: the transport is
    closing, the status is [disconnected] and the retry counter is at its
    bound. *)
Theorem connecting_transport_has_its_timeout (w : World) (i : nat) (ws : WebSocket)
  (Hreach : reachable w)
  (Hi : sockets w !! i = Some ws)
  (Hconnecting : readyState ws = CONNECTING) :
  socket (this w) = Some i
  ∧ ∃ tm,
      find (fun t => bool_decide (timerId t = connectionTimeout ws)) (timers w) = Some tm
      ∧ callback tm = ConnectionTimeoutCallback
      ∧ delay tm = 5000
      ∧ due tm <= now w + 5000
      ∧ ∀ w1, step (TimerFires (connectionTimeout ws)) w = Some w1 ->
          status (this w1) = disconnected
          ∧ reconnectAttempts (this w1) = maxReconnectAttempts
          ∧ socket_readyState w1 = Some CLOSING.
Proof.
  pose proof (reachable_stale_closed w Hreach i ws Hi (or_introl Hconnecting)) as Hsock.
  split; [exact Hsock|].
  destruct (reachable_guarded w Hreach i ws Hi Hconnecting) as (tm & Hin & Hid & Hcb).
  destruct (reachable_timers_sound w Hreach) as (Ht & Hnd & _).
  destruct (find_timer_complete _ _ tm Hin Hid) as (tm' & Hfind).
  pose proof (find_timer_spec _ _ _ Hfind) as [Hin' Hid'].
  assert (tm' = tm) as ->.
  { apply (NoDup_fmap_unique timerId (timers w)); auto. congruence. }
  rewrite Forall_forall in Ht. destruct (Ht tm Hin) as (Hshape & _ & Hdue).
  unfold timer_shape in Hshape. rewrite Hcb in Hshape.
  exists tm. split; [exact Hfind|]. split; [exact Hcb|]. split; [exact Hshape|].
  split; [lia|].
  intros w1 Hfire. simpl in Hfire.
  apply fire_Some in Hfire as (tm2 & Hfind2 & _ & ->).
  rewrite Hfind in Hfind2. injection Hfind2 as <-. rewrite Hcb. simpl.
  set (w0 := clearTimeout (connectionTimeout ws) w).
  assert (Hr : socket_readyState w0 = Some CONNECTING).
  { unfold socket_readyState. simpl. rewrite Hsock, Hi. simpl.
    rewrite Hconnecting. reflexivity. }
  destruct (connectionTimeoutCallback_effect CONNECTING w0 Hr)
    as (Hst & Ha & Hrs & _); [congruence|]. auto.
Qed.

End FurtherProperties.

(** * Further scenarios on the sample platform *)

Section FurtherScenarios.
#[local] Existing Instance sample_platform.
#[local] Existing Instance sample_observers.

Ltac sample_reachable es :=
  apply (reachable_run es (initial sample_url));
  [apply reachable_initial|vm_compute; reflexivity].

(** X1.  After a disconnect and a second [connect()] the second transport is
    the only live one, and it is the current one. *)
Lemma at_most_one_live_transport_witness :
  let w := sample_run [CallConnect; TransportOpen 0%nat; CallDisconnect; CallConnect] in
  live w 1 ∧ 1%nat = 1%nat ∧ socket (this w) = Some 1%nat.
Proof.
  intros w.
  assert (Hreach : reachable w)
    by sample_reachable [CallConnect; TransportOpen 0%nat; CallDisconnect; CallConnect].
  assert (Hlive : live w 1).
  { exists {| readyState := CONNECTING; sent := []; closeDispatched := false;
              connectionTimeout := 1 |}.
    split; [vm_compute; reflexivity|left; reflexivity]. }
  split; [exact Hlive|].
  exact (at_most_one_live_transport w 1%nat 1%nat Hreach Hlive Hlive).
Defined.

(** X2.  A reconnect timer armed by the close of a first transport fires
    while a second transport, connected by hand, is open: it is removed and
    nothing else happens. *)
Lemma open_transport_ignores_timers_witness :
  let es := [CallConnect; TransportClose 0%nat 1000; CallConnect;
             TransportOpen 1%nat; Elapse 1000] in
  let w := sample_run es in
  let w' := sample_run (es ++ [TimerFires 1]) in
  socket_readyState w = Some OPEN
  ∧ step (TimerFires 1) w = Some w'
  ∧ w' = clearTimeout 1 w.
Proof.
  intros es w w'.
  assert (Hopen : socket_readyState w = Some OPEN) by (vm_compute; reflexivity).
  assert (Hfire : step (TimerFires 1) w = Some w') by (vm_compute; reflexivity).
  split; [exact Hopen|]. split; [exact Hfire|].
  exact (open_transport_ignores_timers 1%nat w w' Hopen Hfire).
Defined.

(** X3.  Handler 7 is subscribed to messages and unsubscribed again in a
    world where only handler 3 is subscribed: the world is unchanged. *)
Lemma subscribe_unsubscribe_round_trip_witness :
  let w := sample_run [CallOnMessage 3%nat] in
  (7%nat ∉ messageHandlers (this w))
  ∧ snd (onMessage 7%nat w) (fst (onMessage 7%nat w)) = w.
Proof.
  intros w.
  assert (Hm : messageHandlers (this w) = [3%nat]) by (vm_compute; reflexivity).
  assert (Hn : 7%nat ∉ messageHandlers (this w)).
  { rewrite Hm. intros Hin. apply list_elem_of_singleton in Hin. discriminate. }
  split; [exact Hn|].
  destruct (subscribe_unsubscribe_round_trip 7%nat w) as (_ & Hback & _).
  exact (Hback Hn).
Defined.

(** X4.  [disconnect()] on a connected service. *)
Lemma disconnect_releases_the_transport_witness :
  let w := sample_run [CallConnect; TransportOpen 0%nat] in
  isConnected w = true
  ∧ isConnected (disconnect w) = false
  ∧ getStatus (disconnect w) = disconnected
  ∧ disconnect (disconnect w) = disconnect w.
Proof.
  intros w.
  assert (Hreach : reachable w) by sample_reachable [CallConnect; TransportOpen 0%nat].
  split; [vm_compute; reflexivity|].
  destruct (disconnect_releases_the_transport w Hreach)
    as (_ & _ & Hst & Hconn & _ & _ & _ & Hidem).
  auto.
Defined.

(** X5.  An open transport is closed with code 1006; an error event never
    comes and an hour passes: the service is still disconnected. *)
Lemma unretried_close_is_terminal_witness :
  let w := sample_run [CallConnect; TransportOpen 0%nat] in
  let w1 := sample_run [CallConnect; TransportOpen 0%nat; TransportClose 0%nat 1006] in
  let w2 := sample_run [CallConnect; TransportOpen 0%nat; TransportClose 0%nat 1006;
                        Elapse 3600000] in
  step (TransportClose 0%nat 1006) w = Some w1
  ∧ run [Elapse 3600000] w1 = Some w2
  ∧ status (this w1) = disconnected
  ∧ reconnectAttempts (this w2) = maxReconnectAttempts
  ∧ no_reconnect_pending w2.
Proof.
  intros w w1 w2.
  assert (Hreach : reachable w) by sample_reachable [CallConnect; TransportOpen 0%nat].
  assert (Hcur : socket (this w) = Some 0%nat) by (vm_compute; reflexivity).
  assert (Hstop : terminal_code 1006
                  ∨ maxReconnectAttempts <= reconnectAttempts (this w))
    by (left; left; reflexivity).
  assert (Hnorec : no_reconnect_pending w).
  { intros tm. vm_compute. intros Hin. inversion Hin. }
  assert (Hev : step (TransportClose 0%nat 1006) w = Some w1) by (vm_compute; reflexivity).
  assert (Hrun : run [Elapse 3600000] w1 = Some w2) by (vm_compute; reflexivity).
  destruct (unretried_close_is_terminal 0%nat 1006 w w1 Hreach Hcur Hstop Hnorec Hev)
    as ((Hst & _) & Hlater).
  destruct (Hlater [Elapse 3600000] w2 eq_refl Hrun) as (_ & Hnr & Ha & _).
  auto.
Defined.

(** X6.  On a page loaded over https the constructor refuses the [ws:] URL
    of an http backend: [connect()] leaves the service in status [error]
    with no transport. *)
Lemma connect_constructor_failure_witness :
  let w := initial {| protocol := "http:"; host := "localhost:3000";
                      pathname := "/" |} in
  let c := @connect mixed_content_platform w in
  ¬ pending_or_open w
  ∧ sockets c = [] ∧ timers c = [] ∧ status (this c) = error.
Proof.
  intros w c.
  assert (Hidle : ¬ pending_or_open w).
  { intros [Hc|Hc]; vm_compute in Hc; discriminate. }
  assert (Hctor : @WebSocket_new_throws mixed_content_platform (url (this w))
                  = Some (ThrownError (Error "SecurityError")))
    by (vm_compute; reflexivity).
  split; [exact Hidle|].
  destruct (@connect_constructor_failure mixed_content_platform _ w Hidle Hctor)
    as (Hs & _ & Ht & _ & Hst & _).
  auto.
Defined.

(** X7.  An error event on a transport that is still connecting. *)
Lemma error_event_reports_without_retrying_witness :
  let w := sample_run [CallConnect] in
  let w' := sample_run [CallConnect; TransportError 0%nat] in
  step (TransportError 0%nat) w = Some w'
  ∧ status (this w') = error
  ∧ reconnectAttempts (this w') = reconnectAttempts (this w).
Proof.
  intros w w'.
  assert (Hev : step (TransportError 0%nat) w = Some w') by (vm_compute; reflexivity).
  split; [exact Hev|].
  destruct (error_event_reports_without_retrying 0%nat w w' Hev)
    as (ws & _ & Hst & Ha & _).
  auto.
Defined.

(** X8.  [sendAddNumbers(2, 3)] on a connected service returns and leaves
    the log alone; [sendHealthCheck()] on a fresh service throws. *)
Lemma convenience_senders_write_one_frame_witness :
  let w := sample_run [CallConnect; TransportOpen 0%nat] in
  let w0 := initial sample_url in
  isConnected w = true
  ∧ isConnected w0 = false
  ∧ (∃ w1, sendAddNumbers 2 3 w = Returns w1 ∧ log w1 = log w)
  ∧ sendHealthCheck w0 = Throws (Error "WebSocket is not connected").
Proof.
  intros w w0.
  assert (Hyes : isConnected w = true) by (vm_compute; reflexivity).
  assert (Hno : isConnected w0 = false) by (vm_compute; reflexivity).
  split; [exact Hyes|]. split; [exact Hno|]. split.
  - destruct (convenience_senders_write_one_frame 2 3 w) as [Hsend _].
    destruct (Hsend Hyes) as (i & ws & w1 & w2 & _ & _ & Hadd & _ & _ & _ & _ & Hframe & _).
    exists w1. split; [exact Hadd|apply Hframe].
  - destruct (convenience_senders_write_one_frame 2 3 w0) as [_ Hthrow].
    apply (Hthrow Hno).
Defined.


(** X10.  After one retry the counter is 1; the retried transport opens and
    the counter is 0 again. *)
Lemma retry_counter_drops_only_on_open_witness :
  let es := [CallConnect; TransportClose 0%nat 1000; Elapse 1000; TimerFires 1] in
  let w := sample_run es in
  let w' := sample_run (es ++ [TransportOpen 1%nat]) in
  step (TransportOpen 1%nat) w = Some w'
  ∧ reconnectAttempts (this w) = 1
  ∧ reconnectAttempts (this w') = 0.
Proof.
  intros es w w'.
  assert (Hreach : reachable w) by sample_reachable es.
  assert (Hstep : step (TransportOpen 1%nat) w = Some w') by (vm_compute; reflexivity).
  split; [exact Hstep|]. split; [vm_compute; reflexivity|].
  destruct (retry_counter_drops_only_on_open (TransportOpen 1%nat) w w' Hreach Hstep)
    as (_ & _ & Hopen & _).
  apply Hopen. exists 1%nat. reflexivity.
Defined.


(** X12.  Two observers stay subscribed through a connection that opens,
    fails and is dropped. *)
Lemma observers_outlive_connections_witness :
  let w := sample_run [CallOnMessage 3%nat; CallOnStatusChange 4%nat] in
  let es := [CallConnect; TransportOpen 0%nat; TransportClose 0%nat 1006;
             CallDisconnect] in
  let w' := sample_run ([CallOnMessage 3%nat; CallOnStatusChange 4%nat] ++ es) in
  run es w = Some w'
  ∧ messageHandlers (this w') = messageHandlers (this w)
  ∧ statusChangeHandlers (this w') = statusChangeHandlers (this w).
Proof.
  intros w es w'.
  assert (Hrun : run es w = Some w') by (vm_compute; reflexivity).
  split; [exact Hrun|].
  destruct (observers_outlive_connections es w w' eq_refl Hrun) as (Hm & _ & Hs & _).
  auto.
Defined.

(** X13.  A connected service is disconnected and connected again by hand;
    the new transport is closed normally and no reconnect is armed. *)
Lemma manual_reconnect_has_no_retry_budget_witness :
  let w := sample_run [CallConnect; TransportOpen 0%nat] in
  let w1 := connect (disconnect w) in
  WebSocket_new_throws (url (this w)) = None
  ∧ reconnectAttempts (this w1) = maxReconnectAttempts
  ∧ ∃ w2, step (TransportClose 1%nat 1000) w1 = Some w2
      ∧ reconnectAttempts (this w2) = maxReconnectAttempts
      ∧ status (this w2) = disconnected.
Proof.
  intros w w1.
  assert (Hctor : WebSocket_new_throws (url (this w)) = None)
    by (vm_compute; reflexivity).
  split; [exact Hctor|].
  destruct (manual_reconnect_has_no_retry_budget 1000 w Hctor)
    as (_ & _ & _ & Ha & w2 & Hstep & _ & Ha2 & Hst2).
  split; [exact Ha|].
  assert (Hlen : length (sockets w) = 1%nat) by (vm_compute; reflexivity).
  rewrite Hlen in Hstep. exists w2. auto.
Defined.

(** X14.  The reconnect timer armed by the first close waits one second;
    seven seconds later it is overdue and still pending. *)
Lemma pending_timers_are_bounded_witness :
  let w := sample_run [CallConnect; TransportClose 0%nat 1000; Elapse 7000] in
  let tm := {| timerId := 1; delay := 1000; due := 1000;
               callback := ReconnectCallback |} in
  tm ∈ timers w
  ∧ now w = 7000
  ∧ 1000 <= delay tm <= 5000
  ∧ due tm <= now w + delay tm.
Proof.
  intros w tm.
  assert (Hreach : reachable w)
    by sample_reachable [CallConnect; TransportClose 0%nat 1000; Elapse 7000].
  assert (Ht : timers w = [tm]) by (vm_compute; reflexivity).
  assert (Hin : tm ∈ timers w).
  { rewrite Ht. apply list_elem_of_singleton. reflexivity. }
  split; [exact Hin|]. split; [vm_compute; reflexivity|].
  destruct (pending_timers_are_bounded w tm Hreach Hin) as (_ & Hd & Hdue & _).
  auto.
Defined.

(** X15.  Nine seconds after [connect()] the transport is still connecting
    and its timeout, overdue, is still pending; when it fires the attempt
    is abandoned. *)
Lemma connecting_transport_has_its_timeout_witness :
  let w := sample_run [CallConnect; Elapse 9000] in
  let w1 := sample_run [CallConnect; Elapse 9000; TimerFires 0] in
  let ws := {| readyState := CONNECTING; sent := []; closeDispatched := false;
               connectionTimeout := 0 |} in
  sockets w !! 0%nat = Some ws
  ∧ step (TimerFires 0) w = Some w1
  ∧ socket (this w) = Some 0%nat
  ∧ (∃ tm, find (fun t => bool_decide (timerId t = 0%nat)) (timers w) = Some tm
           ∧ callback tm = ConnectionTimeoutCallback
           ∧ delay tm = 5000)
  ∧ status (this w1) = disconnected
  ∧ socket_readyState w1 = Some CLOSING.
Proof.
  intros w w1 ws.
  assert (Hreach : reachable w) by sample_reachable [CallConnect; Elapse 9000].
  assert (Hi : sockets w !! 0%nat = Some ws) by (vm_compute; reflexivity).
  assert (Hfire : step (TimerFires 0) w = Some w1) by (vm_compute; reflexivity).
  split; [exact Hi|]. split; [exact Hfire|].
  destruct (connecting_transport_has_its_timeout w 0%nat ws Hreach Hi eq_refl)
    as (Hsock & tm & Hfind & Hcb & Hdelay & _ & Hlater).
  destruct (Hlater w1 Hfire) as (Hst & _ & Hrs).
  split; [exact Hsock|]. split; [exists tm; auto|]. auto.
Defined.

End FurtherScenarios.
